(** * Filer: file statistics collector and conflict-safe gatherer

    A shallow embedding of [Filing/filestatser.py] (class
    [FileStatsCollector]) and [Filing/gatherer.py] (classes [MediaGatherer]
    and [Gatherer]), with the properties of the scan, of the size
    formatter, of the summary statistics, of the destination-name conflict
    resolution and of the (batched) move loop.

    Modelling conventions.
    - A Python [str] is a [string]; characters are the code points below
      256, so [str.lower] is the Latin-1 lower-casing and the regular
      expression class [\d] is the ten digits [0]..[9].
    - [os.path] is [posixpath] (separator [/]).
    - The operating system is passed explicitly: the scan reads a snapshot
      of the node found at the root path (a directory tree), the mover reads
      and updates the finite set of paths that exist, and its calls of
      [os.makedirs], [shutil.move] and [sleep] fail whenever the operating
      system of the run refuses them.  Listing and [stat] succeed on a
      snapshot; there are no symbolic links.
    - A [float] is the rational it denotes; dividing a binary64 value that is
      at least 1024 by 1024.0 is exact. *)

From Stdlib Require Import ZArith QArith Qabs Ascii String Lia.
From Stdlib Require Qcanon.
From stdpp Require Import base decidable option list sorting gmap strings
  pretty.

Local Open Scope Z_scope.
Local Open Scope nat_scope.

(** ** Python strings *)

Module PyStr.

Definition newline : ascii := "010"%char.

(** Code point of a character. *)
Definition ord (c : ascii) : N := N_of_ascii c.

(** [c.lower()] for one character of the Latin-1 range: [A]..[Z] and
    U+00C0..U+00DE except the multiplication sign U+00D7 move up by 32. *)
Definition lower_char (c : ascii) : ascii :=
  let n := ord c in
  if ((65 <=? n) && (n <=? 90))%N then ascii_of_N (n + 32)
  else if ((192 <=? n) && (n <=? 222) && negb (n =? 215))%N
       then ascii_of_N (n + 32)
  else c.

(** [s.lower()] for a string of the Latin-1 range, on which Python lowers
    character by character and keeps the length.  (On other strings
    [str.lower] can depend on the neighbours of a character and change the
    length; they are outside the model.) *)
Fixpoint lower (s : string) : string :=
  match s with
  | EmptyString => EmptyString
  | String c s' => String (lower_char c) (lower s')
  end.

(** [s.startswith(pre)] *)
Fixpoint startswith (s pre : string) {struct pre} : bool :=
  match pre, s with
  | EmptyString, _ => true
  | String _ _, EmptyString => false
  | String a pre', String b s' =>
      if decide (a = b) then startswith s' pre' else false
  end.

(** [s[n:]] for [0 <= n] *)
Fixpoint drop (n : nat) (s : string) : string :=
  match n, s with
  | O, _ => s
  | S _, EmptyString => EmptyString
  | S n', String _ s' => drop n' s'
  end.

(** [s[:n]] for [0 <= n] *)
Fixpoint take (n : nat) (s : string) : string :=
  match n, s with
  | O, _ => EmptyString
  | S _, EmptyString => EmptyString
  | S n', String c s' => String c (take n' s')
  end.

(** [s.endswith(suf)]: the last [len(suf)] characters of [s] are [suf]. *)
Definition endswith (s suf : string) : bool :=
  let n := String.length s in
  let m := String.length suf in
  if decide (m <= n) then bool_decide (drop (n - m) s = suf) else false.

(** [needle in hay]: [needle] occurs in [hay] as a contiguous substring. *)
Fixpoint contains (needle hay : string) : bool :=
  startswith hay needle ||
  match hay with
  | EmptyString => false
  | String _ hay' => contains needle hay'
  end.

(** [s.rfind(c)] for a one-character [c]: the highest index holding [c],
    or [-1]. *)
Fixpoint rfind_from (i : Z) (c : ascii) (s : string) : Z :=
  match s with
  | EmptyString => (-1)%Z
  | String a s' =>
      let r := rfind_from (i + 1)%Z c s' in
      if (0 <=? r)%Z then r else if decide (a = c) then i else (-1)%Z
  end.
Definition rfind (s : string) (c : ascii) : Z := rfind_from 0%Z c s.

(** The longest prefix of characters satisfying [f], and the rest. *)
Fixpoint span (f : ascii -> bool) (s : string) : string * string :=
  match s with
  | EmptyString => (EmptyString, EmptyString)
  | String c s' =>
      if f c then let '(a, b) := span f s' in (String c a, b)
      else (EmptyString, s)
  end.

Fixpoint forallb (f : ascii -> bool) (s : string) : bool :=
  match s with
  | EmptyString => true
  | String c s' => f c && forallb f s'
  end.

End PyStr.

(** ** [os.path] (posixpath) *)

Module OsPath.

Definition sep : ascii := "/"%char.
Definition extsep : ascii := "."%char.

(** [os.path.join(a, b)] with two arguments. *)
Definition join (a b : string) : string :=
  if PyStr.startswith b "/" then b
  else if decide (a = "") then b
  else if PyStr.endswith a "/" then a +:+ b
  else a +:+ "/" +:+ b.

(** The loop of [genericpath._splitext] that skips the leading dots of the
    file name: [n] iterations remain, [filenameIndex] is the index under
    test.  Returns [true] when a character other than the dot is found
    before [dotIndex]. *)
Fixpoint skip_leading_dots (p : string) (n filenameIndex : nat) : bool :=
  match n with
  | O => false
  | S n' =>
      if decide (PyStr.take 1 (PyStr.drop filenameIndex p) ≠ ".") then true
      else skip_leading_dots p n' (S filenameIndex)
  end.

(** [os.path.splitext(p)]: the extension starts at the last dot of the last
    component, unless that component has only leading dots before it. *)
Definition splitext (p : string) : string * string :=
  let sepIndex := PyStr.rfind p sep in
  let dotIndex := PyStr.rfind p extsep in
  if (sepIndex <? dotIndex)%Z then
    let filenameIndex := (sepIndex + 1)%Z in
    if skip_leading_dots p (Z.to_nat (dotIndex - filenameIndex))
                         (Z.to_nat filenameIndex)
    then (PyStr.take (Z.to_nat dotIndex) p, PyStr.drop (Z.to_nat dotIndex) p)
    else (p, "")
  else (p, "").

(** [s.rstrip('/')] *)
Fixpoint rstrip_sep (s : string) : string :=
  match s with
  | EmptyString => EmptyString
  | String c s' =>
      let r := rstrip_sep s' in
      if decide (c = sep) then
        if decide (r = "") then "" else String c r
      else String c r
  end.

(** [os.path.basename(p)] *)
Definition basename (p : string) : string :=
  let i := (PyStr.rfind p sep + 1)%Z in
  PyStr.drop (Z.to_nat i) p.

(** [os.path.dirname(p)] *)
Definition dirname (p : string) : string :=
  let i := (PyStr.rfind p sep + 1)%Z in
  let head := PyStr.take (Z.to_nat i) p in
  if negb (bool_decide (head = ""))
     && negb (PyStr.forallb (fun c => bool_decide (c = sep)) head)
  then rstrip_sep head
  else head.

(** The directories above [p]: the prefixes of [pre ++ p] that are longer
    than [pre], are not empty and have a separator after them. *)
Fixpoint parents_from (pre p : string) : list string :=
  match p with
  | EmptyString => []
  | String c p' =>
      (if decide (c = sep /\ pre <> "") then [pre] else [])
      ++ parents_from (pre +:+ String c "") p'
  end.
Definition parents (p : string) : list string := parents_from "" p.

End OsPath.


(** ** Exceptions *)

Inductive exn : Type :=
  | FileNotFoundError (msg : string)
  | ValueError (msg : string)
  | EOFError
  | OSError (msg : string)
  | OverflowError (msg : string).

Inductive result (A : Type) : Type :=
  | Ok (a : A)
  | Raise (e : exn).
Arguments Ok {A} a.
Arguments Raise {A} e.

(** ** The file system as the scan sees it *)

(** A non-directory entry returned by [os.scandir], with the fields of
    [entry.stat()] the program reads.  [is_file] is [entry.is_file()]: false
    for sockets, broken links and the like. *)
Record DirEntry : Type := mkEntry {
  name : string;
  is_file : bool;
  st_size : Z;
  st_ctime : Z;
  st_mtime : Z
}.

#[global] Instance DirEntry_eq_dec : EqDecision DirEntry.
Proof. solve_decision. Defined.

(** A directory: its non-directory entries and its sub-directories by name,
    both in listing order. *)
#[warnings="-register-all"] Inductive dirtree : Type :=
  | Dir (entries : list DirEntry) (subdirs : list (string * dirtree)).

(** What is found at a path. *)
Inductive fsnode : Type :=
  | Absent
  | NotADirectory
  | Directory (t : dirtree).

Definition os_path_exists_node (n : fsnode) : bool :=
  match n with Absent => false | _ => true end.

Definition os_path_isdir_node (n : fsnode) : bool :=
  match n with Directory _ => true | _ => false end.

(** [os.walk(top)], top-down, on a directory tree: one [(dirpath, entries)]
    per directory, the directory itself first, then its sub-directories in
    listing order, each visited under [os.path.join(top, name)]. *)
Fixpoint walk (top : string) (t : dirtree) : list (string * list DirEntry) :=
  match t with
  | Dir entries subdirs =>
      (top, entries) ::
      (fix walk_subdirs (l : list (string * dirtree)) :=
         match l with
         | [] => []
         | (n, sub) :: l' => walk (OsPath.join top n) sub ++ walk_subdirs l'
         end) subdirs
  end.

(** [os.walk] yields nothing when [top] cannot be listed (its [onerror] is
    [None]). *)
Definition os_walk (top : string) (n : fsnode)
  : list (string * list DirEntry) :=
  match n with
  | Directory t => walk top t
  | _ => []
  end.

(** ** [Filing/filestatser.py]: class [FileStatsCollector] *)

Module FileStatsCollector.

(** One element of [self.file_stats]: the dictionary built by
    [process_files], a field per key.  The two dates hold the time stamps;
    their rendering as local time is outside the model. *)
Record FileStat : Type := mkStat {
  File_Name : string;
  File_Type : string;
  File_Size_Bytes : Z;
  File_Size_Human : string;
  Creation_Date : Z;
  Modification_Date : Z;
  Source_Folder : string
}.

(** The attributes set by [__init__]. *)
Record t : Type := mkCollector {
  root_folder : string;
  media_extensions : list string;
  all_files : bool;
  skip_folders : list string;
  file_stats : list FileStat;
  file_types : list string
}.

(** [is_media_file]:
    [any(filename.lower().endswith(ext) for ext in self.media_extensions)] *)
Definition is_media_file (media_extensions : list string) (filename : string)
  : bool :=
  existsb (fun ext => PyStr.endswith (PyStr.lower filename) ext)
          media_extensions.

(** [check_root_folder]: the folder itself when [os.path.exists(folder)],
    [FileNotFoundError] otherwise. *)
Definition check_root_folder (folder : string) (node : fsnode)
  : result string :=
  if os_path_exists_node node then Ok folder
  else Raise (FileNotFoundError ("Folder '" +:+ folder +:+ "' doesn't exist.")).

(** *** [format_size] *)

(** Nearest integer, ties to the even one, of a non-negative rational. *)
Definition round_half_even (q : Q) : Z :=
  let n := Qnum q in
  let d := Zpos (Qden q) in
  let fl := (n / d)%Z in
  let r := (2 * (n mod d))%Z in
  if (r <? d)%Z then fl
  else if (d <? r)%Z then (fl + 1)%Z
  else if Z.even fl then fl else (fl + 1)%Z.

(** [float(n)]: the binary64 value nearest to the integer [n] (53
    significant bits, ties to even), for [n] within the binary64 range. *)
Definition binary64_of_Z (n : Z) : Q :=
  let a := Z.abs n in
  if (a <? 2 ^ 53)%Z then inject_Z n
  else
    let e := (Z.log2 a - 52)%Z in
    let m := round_half_even (a # Z.to_pos (2 ^ e)) in
    inject_Z (Z.sgn n * (m * 2 ^ e)).

Definition two_digits (n : Z) : string :=
  if (n <? 10)%Z then "0" +:+ pretty n else pretty n.

(** ["{:.2f}".format(x)]: the decimal with two places nearest to [x], ties
    to even. *)
Definition fmt_2f (x : Q) : string :=
  let c := round_half_even (Qabs x * 100) in
  (if Qle_bool 0 x then "" else "-")
    +:+ pretty (c / 100)%Z +:+ "." +:+ two_digits (c mod 100)%Z.

Definition units : list string := ["B"; "KB"; "MB"; "GB"; "TB"].

(** The loop [for unit in units: if size < 1024.0: break; size /= 1024.0].
    [unit] is the loop variable: it keeps its last value when the loop
    runs to the end of the list. *)
Fixpoint format_size_loop (us : list string) (size : Q) (unit : string)
  : Q * string :=
  match us with
  | [] => (size, unit)
  | u :: us' =>
      if negb (Qle_bool 1024 size) then (size, u)
      else format_size_loop us' (Qred (size / 1024)) u
  end.

(** [format_size(size)] for an integer [size].  The first division turns
    the integer into a float; an integer below 1024 is formatted as the
    float of the same value, so the conversion is made on entry. *)
Definition format_size (size : Z) : string :=
  let '(size, unit) := format_size_loop units (binary64_of_Z size) "" in
  fmt_2f size +:+ " " +:+ unit.

(** *** The scan *)

(** [process_files(foldername, all_files, is_media_file, format_size)]:
    [entries] is what [os.scandir(foldername)] lists (directories left
    out: [entry.is_file()] is false for them). *)
Definition process_files (foldername : string) (entries : list DirEntry)
    (all_files : bool) (is_media_file : string -> bool)
    (format_size : Z -> string) : list FileStat :=
  flat_map (fun entry =>
    if is_file entry then
      let filename := name entry in
      if all_files || is_media_file filename then
        [ {| File_Name := filename;
             File_Type := PyStr.lower (snd (OsPath.splitext filename));
             File_Size_Bytes := st_size entry;
             File_Size_Human := format_size (st_size entry);
             Creation_Date := st_ctime entry;
             Modification_Date := st_mtime entry;
             Source_Folder := foldername |} ]
      else []
    else []) entries.

(** The test of [_gather_file_stats] on a folder:
    [all(skip_folder not in foldername for skip_folder in self.skip_folders)] *)
Definition not_skipped (skip_folders : list string) (foldername : string)
  : bool :=
  forallb (fun skip_folder => negb (PyStr.contains skip_folder foldername))
          skip_folders.

(** [_gather_file_stats]: [pool.starmap] returns the results of
    [process_files] in the order of the folders it is given. *)
Definition _gather_file_stats (root_folder : string)
    (media_extensions : list string) (all_files : bool)
    (skip_folders : list string) (node : fsnode) : list FileStat :=
  let folder_stats_lists :=
    map (fun '(foldername, entries) =>
           process_files foldername entries all_files
                         (is_media_file media_extensions) format_size)
        (filter (fun fe => not_skipped skip_folders (fst fe) = true)
                (os_walk root_folder node)) in
  concat folder_stats_lists.

(** [__init__] *)
Definition init (root_folder : string) (media_extensions : list string)
    (all_files : bool) (skip_folders : list string) (node : fsnode)
  : result t :=
  match check_root_folder root_folder node with
  | Raise e => Raise e
  | Ok root =>
      let file_stats :=
        _gather_file_stats root media_extensions all_files skip_folders node in
      Ok {| root_folder := root;
            media_extensions := media_extensions;
            all_files := all_files;
            skip_folders := skip_folders;
            file_stats := file_stats;
            file_types := map File_Type file_stats |}
  end.

(** *** Summary statistics *)

(** [l.count(x)] *)
Definition count (l : list string) (x : string) : nat :=
  length (filter (fun y => y = x) l).

(** [max(xs, key=key)] after the first element [best]: a later element
    replaces the current one only when its key is strictly larger. *)
Fixpoint max_from {A} (key : A -> nat) (best : A) (xs : list A) : A :=
  match xs with
  | [] => best
  | x :: xs' => max_from key (if key best <? key x then x else best) xs'
  end.

(** [max(xs, key=key)]; [ValueError] on an empty sequence. *)
Definition py_max {A} (key : A -> nat) (xs : list A) : result A :=
  match xs with
  | [] => Raise (ValueError "max() arg is an empty sequence")
  | x :: xs' => Ok (max_from key x xs')
  end.

(** [order] lists the elements of [set(l)] the way Python iterates over
    the set: each distinct element of [l] once, in an order fixed by the
    hashes of the strings and not by [l]. *)
Definition set_iteration (order l : list string) : Prop :=
  NoDup order /\ forall x, x ∈ order <-> x ∈ l.

Record Summary : Type := mkSummary {
  total_files : nat;
  total_folders : nat;
  total_size : Z;
  avg_size : Q;
  most_occurring_file_type : option string
}.

(** [get_summary_stats], given the iteration order of [set(file_types)].
    [None] is the Python [None] returned after a caught exception.  The
    average is the exact quotient. *)
Definition get_summary_stats (file_stats : list FileStat)
    (order : list string) : option Summary :=
  let total_files := length file_stats in
  if decide (total_files = 0) then
    Some (mkSummary 0 0 0 0 None)
  else
    let total_size := foldr Z.add 0%Z (map File_Size_Bytes file_stats) in
    let avg_size := (total_size # Pos.of_nat total_files) in
    let file_types := map File_Type file_stats in
    match py_max (count file_types) order with
    | Raise _ => None
    | Ok most =>
        let unique_folders : gset string :=
          list_to_set (map Source_Folder file_stats) in
        Some (mkSummary total_files (size unique_folders) total_size
                        avg_size (Some most))
    end.

(** *** Distributions *)

(** The upper end of a size range: a number of bytes or [float('inf')]. *)
Inductive bound : Type :=
  | Finite (z : Z)
  | Infinity.

(** [size_ranges] of [show_file_size_distribution], in the order of the
    dictionary. *)
Definition size_ranges : list (string * (Z * bound)) :=
  [ ("0-1KB", (0, Finite 1024));
    ("1KB-100KB", (1024, Finite (1024 * 100)));
    ("100KB-1MB", (1024 * 100, Finite (1024 * 1024)));
    ("1MB-10MB", (1024 * 1024, Finite (1024 * 1024 * 10)));
    ("10MB-100MB", (1024 * 1024 * 10, Finite (1024 * 1024 * 100)));
    ("100MB+", (1024 * 1024 * 100, Finite (1024 * 1024 * 500)));
    ("500MB+", (1024 * 1024 * 500, Infinity)) ]%Z.

(** [min_size <= file_size < max_size] *)
Definition in_range (file_size : Z) (r : Z * bound) : bool :=
  (fst r <=? file_size)%Z
  && match snd r with
     | Finite max_size => (file_size <? max_size)%Z
     | Infinity => true
     end.

(** The inner loop of [show_file_size_distribution]: the name of the first
    range that holds the size, where the loop breaks; [None] when it runs
    to its end. *)
Fixpoint first_range (file_size : Z) (ranges : list (string * (Z * bound)))
  : option string :=
  match ranges with
  | [] => None
  | (size_range, r) :: ranges' =>
      if in_range file_size r then Some size_range
      else first_range file_size ranges'
  end.

(** [d[k] += 1] on a dictionary held as the list of its items in insertion
    order; the key is one of the dictionary here. *)
Fixpoint increment (k : string) (d : list (string * nat))
  : list (string * nat) :=
  match d with
  | [] => []
  | (k', c) :: d' =>
      if decide (k = k') then (k', S c) :: d' else (k', c) :: increment k d'
  end.

(** [show_file_size_distribution]: the items of [size_distribution] in the
    order in which they are printed. *)
Definition show_file_size_distribution (file_stats : list FileStat)
  : list (string * nat) :=
  fold_left
    (fun size_distribution stat =>
       match first_range (File_Size_Bytes stat) size_ranges with
       | Some size_range => increment size_range size_distribution
       | None => size_distribution
       end)
    file_stats
    (map (fun sr => (fst sr, 0)) size_ranges).

(** [get_folder_size_distribution]:
    [folder_sizes[folder_path] = folder_sizes.get(folder_path, 0) + file_size]
    for each record in turn. *)
Definition get_folder_size_distribution (file_stats : list FileStat)
  : gmap string Z :=
  fold_left
    (fun (folder_sizes : gmap string Z) stat =>
       <[Source_Folder stat :=
           (default 0%Z (folder_sizes !! Source_Folder stat)
            + File_Size_Bytes stat)%Z]> folder_sizes)
    file_stats ∅.

(** [Counter(xs)]: each element is counted in turn. *)
Definition Counter (xs : list string) : gmap string nat :=
  fold_left
    (fun (c : gmap string nat) x => <[x := S (default 0 (c !! x))]> c)
    xs ∅.

(** [c[x]] on a [Counter]: zero for a key that is not there. *)
Definition Counter_getitem (c : gmap string nat) (x : string) : nat :=
  default 0 (c !! x).

(** [get_file_typedist] *)
Definition get_file_typedist (self : t) : gmap string nat :=
  Counter (file_types self).

(** [get_folders_info] *)
Definition get_folders_info (self : t) : gmap string nat :=
  Counter (map Source_Folder (file_stats self)).

(** *** Sorting *)

(** One step of a stable sort: [x], which came before the elements of the
    sorted [l], goes in front of the first element it does not have to
    follow. *)
Fixpoint insert_sorted {A K} (leb : K -> K -> bool) (key : A -> K) (x : A)
    (l : list A) : list A :=
  match l with
  | [] => [x]
  | y :: l' =>
      if leb (key x) (key y) then x :: l
      else y :: insert_sorted leb key x l'
  end.

(** [sorted(xs, key=key, reverse=reverse)], by what it returns: the stable
    arrangement of [xs] by key, ascending, or descending when [reverse]
    (elements of equal keys keep their order in both cases). *)
Definition py_sorted {A K} (leb : K -> K -> bool) (key : A -> K)
    (reverse : bool) (xs : list A) : list A :=
  foldr (insert_sorted (if reverse then flip leb else leb) key) [] xs.

(** [sort_by_key(file_stats, key, reverse)].  [item stat] is [stat[key]],
    [None] when [stat] has no such key; [leb] is the order of the values.
    The keys are taken from all the records first; a [KeyError] there gives
    the list back as it is. *)
Definition sort_by_key {K} (item : FileStat -> option K)
    (leb : K -> K -> bool) (reverse : bool) (file_stats : list FileStat)
  : list FileStat :=
  match mapM (fun stat => (fun k => (k, stat)) <$> item stat) file_stats with
  | None => file_stats
  | Some keyed => snd <$> py_sorted leb fst reverse keyed
  end.

(** *** [get_file_stats] *)

(** What [os.stat] gives of a path, as far as it is read. *)
Record stat_result : Type := mkStatResult {
  stat_size : Z;
  stat_ctime : Z;
  stat_mtime : Z
}.

(** [get_file_stats(file_path)], given what [os.stat] answers.  [None] is
    the Python [None] returned after the exception is printed. *)
Definition get_file_stats (os_stat : string -> result stat_result)
    (file_path : string) : option (list FileStat) :=
  let filename := OsPath.basename file_path in
  let foldername := OsPath.dirname file_path in
  match os_stat file_path with
  | Raise _ => None
  | Ok file_stat =>
      Some [ {| File_Name := filename;
                File_Type := PyStr.lower (snd (OsPath.splitext filename));
                File_Size_Bytes := stat_size file_stat;
                File_Size_Human := format_size (stat_size file_stat);
                Creation_Date := stat_ctime file_stat;
                Modification_Date := stat_mtime file_stat;
                Source_Folder := foldername |} ]
  end.

End FileStatsCollector.

(** ** [Filing/gatherer.py]: class [MediaGatherer] *)

Module MediaGatherer.
Import FileStatsCollector.

(** *** Conflict resolution *)

Definition is_digit (c : ascii) : bool :=
  ((48 <=? PyStr.ord c) && (PyStr.ord c <=? 57))%N.

(** The tail [\(\d+\)$] of the pattern, tried where the lazy group stops:
    an opening parenthesis, the longest run of digits (at least one), a
    closing parenthesis, then the end of the string or a last newline
    ([$] also matches just before a final newline). *)
Definition match_number_suffix (s : string) : bool :=
  match s with
  | String "(" rest =>
      let '(digits, tail) := PyStr.span is_digit rest in
      negb (bool_decide (digits = ""))
      && (bool_decide (tail = ")")
          || bool_decide (tail = String ")"%char (String PyStr.newline "")))
  | _ => false
  end.

(** [re.match(r'^(.*?)\(\d+\)$', basename)], giving [group(1)].  The lazy
    group tries the tail at each position before taking one more character,
    and [.] takes any character but the newline. *)
Fixpoint re_match_group1 (s : string) : option string :=
  if match_number_suffix s then Some ""
  else
    match s with
    | EmptyString => None
    | String c s' =>
        if decide (c = PyStr.newline) then None
        else String c <$> re_match_group1 s'
    end.

(** [remove_number_suffix(basename)] *)
Definition remove_number_suffix (basename : string) : string :=
  match re_match_group1 basename with
  | Some group1 => group1
  | None => basename
  end.

(** [os.path.exists(p)] on the set of the paths that exist. *)
Definition os_path_exists (fs : gset string) (p : string) : bool :=
  bool_decide (p ∈ fs).

(** [f"{base_name}({counter}){extension}"] *)
Definition candidate (base_name extension : string) (counter : nat) : string :=
  base_name +:+ "(" +:+ pretty counter +:+ ")" +:+ extension.

(** The loop of [rename_if_exists], entered with [counter] and
    [new_filename]; [fuel] bounds the number of iterations. *)
Fixpoint rename_loop (fs : gset string) (base_name extension : string)
    (fuel counter : nat) (new_filename : string) : option string :=
  if os_path_exists fs new_filename then
    match fuel with
    | O => None
    | S fuel' =>
        rename_loop fs base_name extension fuel' (counter + 1)
                    (candidate base_name extension counter)
    end
  else Some new_filename.

(** [rename_if_exists(filename)].  One more iteration than there are
    existing paths is enough (see [rename_if_exists_total]). *)
Definition rename_if_exists (fs : gset string) (filename : string)
  : option string :=
  let '(base_name, extension) := OsPath.splitext filename in
  let base_name := remove_number_suffix base_name in
  rename_loop fs base_name extension (S (size fs)) 1 filename.

(** [handle_file_conflict(destination_path)] *)
Definition handle_file_conflict (fs : gset string) (destination_path : string)
  : option string :=
  if os_path_exists fs destination_path
  then rename_if_exists fs destination_path
  else Some destination_path.

(** *** Moving *)

(** What the program prints, and its calls of [sleep], in order. *)
Inductive event : Type :=
  | PrintNoFilesToMove
  | PrintMoved (file_name : string)
  | PrintTotalFilesMoved (n : nat)
  | PrintErrorMoving (e : exn)
  | PrintMovedBatch (i n : Z)
  | PrintBatchException (e : exn)
  | PrintTotalMovedFiles (n : nat)
  | Sleep (delay : Q).

(** The attributes of a gatherer that the move reads and writes. *)
Record t : Type := mkGatherer {
  collector : FileStatsCollector.t;
  moved_files : gmap string string;
  dest_folder : string
}.

(** The calls of the mover that the operating system may refuse. *)
Inductive os_call : Type :=
  | Makedirs (name : string)
  | Rename (src dst : string)
  | Sleeping (secs : Q).

(** A refused call: the exception it raises, and the paths it had created
    when it failed (directories above the one asked for, a copy of the
    file that could not be completed or whose original could not be
    removed). *)
Record refusal : Type := mkRefusal {
  raised : exn;
  left_behind : gset string
}.

(** The outside world of a move: the paths that exist (the empty string is
    no path), the trace, and what the operating system refuses.
    [os_refuses fs call] tells whether [call] fails when the existing paths
    are [fs], for a reason that [fs] does not show: a component of the path
    is a regular file, a directory may not be written to, the destination
    is on a full or read-only device, the delay is more than the clock can
    count, ... *)
Record world : Type := mkWorld {
  fs : gset string;
  trace : list event;
  os_refuses : gset string -> os_call -> option refusal
}.

(** An operating system that refuses nothing. *)
Definition obliging : gset string -> os_call -> option refusal :=
  fun _ _ => None.

Definition emit (e : event) (w : world) : world :=
  {| fs := fs w; trace := trace w ++ [e]; os_refuses := os_refuses w |}.

(** The paths [created] exist from now on. *)
Definition create (created : gset string) (w : world) : world :=
  {| fs := created ∪ fs w; trace := trace w; os_refuses := os_refuses w |}.

(** [shutil.move(src, dst)] for a [dst] that does not exist: [src] is
    renamed to [dst].  It raises [FileNotFoundError] when [src] does not
    exist, and the exception of the operating system when it refuses.  The
    second component is the exception, if any. *)
Definition shutil_move (w : world) (src dst : string) : world * option exn :=
  if os_path_exists (fs w) src then
    match os_refuses w (fs w) (Rename src dst) with
    | Some r => (create (left_behind r) w, Some (raised r))
    | None =>
        ({| fs := {[dst]} ∪ fs w ∖ {[src]}; trace := trace w;
            os_refuses := os_refuses w |}, None)
    end
  else (w, Some (FileNotFoundError src)).

(** [os.makedirs(name)] for a [name] that does not exist: [name] and the
    directories above it exist afterwards.  It raises [FileNotFoundError]
    for the empty name, and the exception of the operating system when it
    refuses. *)
Definition os_makedirs (name : string) (w : world) : world * option exn :=
  if decide (name = "") then (w, Some (FileNotFoundError name))
  else
    match os_refuses w (fs w) (Makedirs name) with
    | Some r => (create (left_behind r) w, Some (raised r))
    | None =>
        (create ({[name]} ∪ list_to_set (OsPath.parents name)) w, None)
    end.

(** [time.sleep(secs)]: [ValueError] for a negative number of seconds, and
    the exception of the operating system when it refuses. *)
Definition time_sleep (secs : Q) (w : world) : result world :=
  if Qle_bool 0 secs then
    match os_refuses w (fs w) (Sleeping secs) with
    | Some r => Raise (raised r)
    | None => Ok (emit (Sleep secs) w)
    end
  else Raise (ValueError "sleep length must be non-negative").

(** [create_media_folder(destination_folder)].  The third component is the
    exception of [os.makedirs], if any. *)
Definition create_media_folder (destination_folder : string)
    (self : t) (w : world) : t * world * option exn :=
  if os_path_exists (fs w) destination_folder then (self, w, None)
  else
    match os_makedirs destination_folder w with
    | (w, Some e) => (self, w, Some e)
    | (w, None) =>
        ({| collector := collector self;
            moved_files := moved_files self;
            dest_folder := destination_folder |}, w, None)
    end.

(** [get_files_to_move(move_all_files)] *)
Definition get_files_to_move (self : t) (move_all_files : bool)
  : list FileStat :=
  filter (fun stat =>
            move_all_files
            || is_media_file (media_extensions (collector self))
                             (File_Name stat) = true)
         (file_stats (collector self)).

(** The [for] loop of [move_files_to_destination].  The second component
    is the exception that left the loop, if any; the attributes and the
    world are as the loop left them.  [handle_file_conflict] always returns
    ([handle_file_conflict_total]): its case [None] is never taken. *)
Fixpoint move_loop (destination_folder : string) (files : list FileStat)
    (self : t) (w : world) : t * world * option exn :=
  match files with
  | [] => (self, w, None)
  | file_stat :: files' =>
      let source_path :=
        OsPath.join (Source_Folder file_stat) (File_Name file_stat) in
      let destination_path :=
        OsPath.join destination_folder (File_Name file_stat) in
      if decide (source_path = destination_path) then
        move_loop destination_folder files' self w
      else
        match handle_file_conflict (fs w) destination_path with
        | None => (self, w, Some (ValueError "out of fuel"))
        | Some destination_path =>
            match shutil_move w source_path destination_path with
            | (w, Some e) => (self, w, Some e)
            | (w, None) =>
                move_loop destination_folder files'
                  {| collector := collector self;
                     moved_files :=
                       <[source_path := destination_path]> (moved_files self);
                     dest_folder := dest_folder self |}
                  (emit (PrintMoved (File_Name file_stat)) w)
            end
        end
  end.

(** The value returned by [move_files_to_destination]. *)
Inductive retval : Type := ReturnNone | ReturnMinusOne.

(** [move_files_to_destination(files_to_move, destination_folder)]: the
    whole body is one [try], whose handler prints the exception. *)
Definition move_files_to_destination (files_to_move : list FileStat)
    (destination_folder : string) (self : t) (w : world)
  : t * world * retval :=
  match create_media_folder destination_folder self w with
  | (self, w, Some e) => (self, emit (PrintErrorMoving e) w, ReturnNone)
  | (self, w, None) =>
      match files_to_move with
      | [] => (self, emit PrintNoFilesToMove w, ReturnMinusOne)
      | _ =>
          match move_loop destination_folder files_to_move self w with
          | (self, w, None) =>
              (self, emit (PrintTotalFilesMoved (length files_to_move)) w,
               ReturnNone)
          | (self, w, Some e) =>
              (self, emit (PrintErrorMoving e) w, ReturnNone)
          end
      end
  end.

(** [range(0, stop, step)] for [0 <= stop]: [ValueError] when [step] is
    zero, empty when it is negative. *)
Definition py_range (stop step : Z) : result (list Z) :=
  if (step =? 0)%Z then Raise (ValueError "range() arg 3 must not be zero")
  else if (step <? 0)%Z then Ok []
  else Ok (map (fun j => (Z.of_nat j * step)%Z)
               (seq 0 (Z.to_nat ((stop + step - 1) / step)))).

(** [l[i:i + n]] for [0 <= i] and [0 < n] *)
Definition slice {A} (l : list A) (i n : Z) : list A :=
  take (Z.to_nat n) (drop (Z.to_nat i) l).

(** The [for] loop of [_batch_move_files] over the indices [indices].  The
    third component is the exception that left the loop, if any: the one of
    [sleep].  (The loop is entered with a positive [batch_size] only: for
    another one the range is empty or raises.) *)
Fixpoint batch_loop (indices : list Z) (files_to_move : list FileStat)
    (destination_folder : string) (batch_size : Z) (delay : Q)
    (self : t) (w : world) : t * world * option exn :=
  match indices with
  | [] => (self, w, None)
  | i :: indices' =>
      let batch := slice files_to_move i batch_size in
      let '(self, w, _) :=
        move_files_to_destination batch destination_folder self w in
      let w :=
        emit (PrintMovedBatch
                (i / batch_size + 1)
                (Z.of_nat (length files_to_move) / batch_size + 1)) w in
      match time_sleep delay w with
      | Raise e => (self, w, Some e)
      | Ok w =>
          batch_loop indices' files_to_move destination_folder batch_size
                     delay self w
      end
  end.

(** [_batch_move_files(files_to_move, destination_folder, batch_size, delay)]:
    the loop is in one [try], whose handler prints the exception. *)
Definition _batch_move_files (files_to_move : list FileStat)
    (destination_folder : string) (batch_size : Z) (delay : Q)
    (self : t) (w : world) : t * world :=
  match py_range (Z.of_nat (length files_to_move)) batch_size with
  | Raise e => (self, emit (PrintBatchException e) w)
  | Ok indices =>
      match batch_loop indices files_to_move destination_folder batch_size
                       delay self w with
      | (self, w, None) => (self, w)
      | (self, w, Some e) => (self, emit (PrintBatchException e) w)
      end
  end.

(** [show_moved_stats], when the size of every moved file can be read:
    prints the number of moved files (and their total size, which the set
    of existing paths does not carry). *)
Definition show_moved_stats (self : t) (w : world) : world :=
  emit (PrintTotalMovedFiles (size (moved_files self))) w.

(** [gather_media(destination_folder, move_all, batch_size, time_delay)] *)
Definition gather_media (destination_folder : option string)
    (move_all : bool) (batch_size : Z) (time_delay : Q)
    (self : t) (w : world) : t * world :=
  let destination_folder := default (dest_folder self) destination_folder in
  let move_all := if all_files (collector self) then true else move_all in
  let files_to_move := get_files_to_move self move_all in
  let '(self, w) :=
    if decide (100 < length (file_stats (collector self))) then
      _batch_move_files files_to_move destination_folder batch_size
                        time_delay self w
    else
      let '(self, w, _) :=
        move_files_to_destination files_to_move destination_folder self w in
      (self, w) in
  (self, show_moved_stats self w).

Definition default_media_extensions : list string :=
  [".mp3"; ".mp4"; ".avi"; ".mkv"; ".jpg"; ".jpeg"; ".png"; ".gif"].

(** [__init__]: an argument left out ([None]) is [None] here. *)
Definition init (root_folder : string) (destination_folder : option string)
    (skip_folders : option (list string)) (media_extensions : list string)
    (all_files : bool) (node : fsnode) : result t :=
  let skip_folders := default [] skip_folders in
  let destination_folder :=
    default (OsPath.join root_folder "media") destination_folder in
  let skip_folders := skip_folders ++ [destination_folder] in
  match FileStatsCollector.init root_folder media_extensions all_files
                                skip_folders node with
  | Raise e => Raise e
  | Ok c =>
      Ok {| collector := c; moved_files := ∅;
            dest_folder := destination_folder |}
  end.

(** *** The report of the moved files *)

(** A row handed to [writer.writerow]: the fields of the record, the date
    of the report and the destination found in [moved_files]. *)
Record csv_row : Type := mkRow {
  row_stat : FileStat;
  Moved_Date : string;
  Destination_Folder : string
}.

(** What [generate_moved_stats_csv] does with the rows: it returns [-1]
    when nothing was moved; otherwise it writes the header, and then a row
    per scanned record until a record whose key is not in [moved_files]
    raises [KeyError], which is caught and printed.  Opening the file is
    outside the model. *)
Inductive csv_outcome : Type :=
  | NothingMoved
  | Rows (rows : list csv_row)
  | RowsThenKeyError (rows : list csv_row) (key : string).

(** The key under which the destination of a record is looked up:
    [file["Source Folder"] + "\\" + file["File Name"]], with one
    backslash between the two. *)
Definition moved_key (file : FileStat) : string :=
  Source_Folder file +:+ "\" +:+ File_Name file.

(** The loop over [self.file_stats]: the rows written, and the key that
    was not found, if any. *)
Fixpoint write_rows (moved_files : gmap string string)
    (current_date : string) (file_stats : list FileStat)
  : list csv_row * option string :=
  match file_stats with
  | [] => ([], None)
  | file :: file_stats' =>
      match moved_files !! moved_key file with
      | None => ([], Some (moved_key file))
      | Some destination =>
          let '(rows, missing) :=
            write_rows moved_files current_date file_stats' in
          (mkRow file current_date destination :: rows, missing)
      end
  end.

(** [generate_moved_stats_csv(csv_path)], at the date [current_date]. *)
Definition generate_moved_stats_csv (current_date : string) (self : t)
  : csv_outcome :=
  if decide (moved_files self = ∅) then NothingMoved
  else
    match write_rows (moved_files self) current_date
                     (file_stats (collector self)) with
    | (rows, None) => Rows rows
    | (rows, Some key) => RowsThenKeyError rows key
    end.

End MediaGatherer.

(** ** [Filing/gatherer.py]: class [Gatherer] *)

Module Gatherer.

(** [s.split(',')] *)
Fixpoint split_comma_go (cur : string) (s : string) : list string :=
  match s with
  | EmptyString => [String.rev cur]
  | String c s' =>
      if decide (c = ","%char) then String.rev cur :: split_comma_go "" s'
      else split_comma_go (String c cur) s'
  end.
Definition split_comma (s : string) : list string := split_comma_go "" s.

(** [set_extensions(extensions)]: while an element is the empty string the
    user is asked again; [stdin] holds the lines still to be read, and
    [input()] raises [EOFError] when none is left. *)
Fixpoint set_extensions (stdin : list string) (extensions : list string)
  : result (list string) :=
  if existsb (fun element => bool_decide (element = "")) extensions then
    match stdin with
    | [] => Raise EOFError
    | line :: stdin' => set_extensions stdin' (split_comma line)
    end
  else Ok extensions.

(** [__init__] *)
Definition init (stdin : list string) (root_folder : string)
    (destination_folder : option string) (extensions : option (list string))
    (skip_folders : option (list string)) (all_files : bool) (node : fsnode)
  : result MediaGatherer.t :=
  let extensions := default [] extensions in
  let skip_folders := default [] skip_folders in
  let destination_folder :=
    default (OsPath.join root_folder "Extracted Files") destination_folder in
  match set_extensions stdin extensions with
  | Raise e => Raise e
  | Ok extensions =>
      MediaGatherer.init root_folder (Some destination_folder)
                         (Some skip_folders) extensions all_files node
  end.

(** [gather_files(destination_folder, all_files, batch_size, time_delay)] *)
Definition gather_files (destination_folder : option string)
    (all_files : bool) (batch_size : Z) (time_delay : Q)
    (self : MediaGatherer.t) (w : MediaGatherer.world)
  : MediaGatherer.t * MediaGatherer.world :=
  MediaGatherer.gather_media destination_folder all_files batch_size
                             time_delay self w.

End Gatherer.

(** ** Reference notions the properties are stated against *)

Module Reference.
Import FileStatsCollector.

(** Induction on a directory tree, with the hypothesis for every
    sub-directory. *)
Fixpoint dirtree_ind' (P : dirtree -> Prop)
    (H : forall entries subdirs,
           Forall (fun ns => P (snd ns)) subdirs -> P (Dir entries subdirs))
    (t : dirtree) : P t :=
  match t with
  | Dir entries subdirs =>
      H entries subdirs
        ((fix go (l : list (string * dirtree))
            : Forall (fun ns => P (snd ns)) l :=
            match l with
            | [] => @List.Forall_nil _ _
            | ns :: l' =>
                @List.Forall_cons _ _ ns l' (dirtree_ind' P H (snd ns)) (go l')
            end) subdirs)
  end.

(** [reachable top t folder entries]: below the directory [t] found at the
    path [top] there is a directory, [t] itself or one reached through
    sub-directories, whose path is [folder] and whose listing is
    [entries]. *)
Inductive reachable : string -> dirtree -> string -> list DirEntry -> Prop :=
  | reachable_here top entries subdirs :
      reachable top (Dir entries subdirs) top entries
  | reachable_below top entries subdirs n sub folder es :
      (n, sub) ∈ subdirs ->
      reachable (OsPath.join top n) sub folder es ->
      reachable top (Dir entries subdirs) folder es.

(** The same from a node: nothing is reachable from what is not a
    directory. *)
Definition reachable_from (top : string) (node : fsnode) (folder : string)
    (entries : list DirEntry) : Prop :=
  match node with
  | Directory t => reachable top t folder entries
  | _ => False
  end.

(** The record of the entry [e] of the directory [folder]. *)
Definition file_stat_of (folder : string) (e : DirEntry) : FileStat :=
  {| File_Name := name e;
     File_Type := PyStr.lower (snd (OsPath.splitext (name e)));
     File_Size_Bytes := st_size e;
     File_Size_Human := format_size (st_size e);
     Creation_Date := st_ctime e;
     Modification_Date := st_mtime e;
     Source_Folder := folder |}.

(** Every entry of every directory of a walk, with the path of its
    directory: one element per entry, in the order of the walk. *)
Definition entries_of_walk (w : list (string * list DirEntry))
  : list (string * DirEntry) :=
  flat_map (fun '(folder, entries) => map (pair folder) entries) w.

(** [skip] is a literal substring of [folder]. *)
Definition substring (skip folder : string) : Prop :=
  exists before after, folder = before +:+ skip +:+ after.

(** The entry is a file, its directory holds no skip substring, and the
    classifier accepts its name unless all files are wanted. *)
Definition selected (media_extensions : list string) (all_files : bool)
    (skip_folders : list string) (fe : string * DirEntry) : bool :=
  not_skipped skip_folders (fst fe)
  && is_file (snd fe)
  && (all_files || is_media_file media_extensions (name (snd fe))).

(** The extension, case-insensitively a member of the extension list. *)
Definition extension_in (media_extensions : list string) (ext : string)
  : Prop :=
  exists e, e ∈ media_extensions /\ PyStr.lower e = PyStr.lower ext.

(** The histogram of the specification, in first-seen order: a new key is
    appended with count 1, a known key has its count increased in place. *)
Fixpoint histogram_add (x : string) (h : list (string * nat))
  : list (string * nat) :=
  match h with
  | [] => [(x, 1)]
  | (y, c) :: h' =>
      if decide (x = y) then (y, S c) :: h' else (y, c) :: histogram_add x h'
  end.

Definition histogram (l : list string) : list (string * nat) :=
  fold_left (fun h x => histogram_add x h) l [].

(** The most common extension as the specification words it: the
    histogram is built in first-seen order and scanned in that order for
    the largest count, the first such key winning. *)
Definition spec_most_common_extension (file_types : list string)
  : option string :=
  match histogram file_types with
  | [] => None
  | xc :: h => Some (fst (max_from snd xc h))
  end.

(** [source_path] of [move_files_to_destination] for a record. *)
Definition source_path (file_stat : FileStat) : string :=
  OsPath.join (Source_Folder file_stat) (File_Name file_stat).

(** The calls of [sleep] in a trace, in order, and their number. *)
Definition is_sleep (e : MediaGatherer.event) : bool :=
  match e with MediaGatherer.Sleep _ => true | _ => false end.

Definition sleep_events (tr : list MediaGatherer.event)
  : list MediaGatherer.event :=
  filter (fun e => is_sleep e = true) tr.

Definition sleeps (tr : list MediaGatherer.event) : nat :=
  length (sleep_events tr).


(** The list cut into consecutive groups of [k] elements, the last of which
    may be shorter.  [fuel] bounds the number of groups; [length l] is
    enough of it when [k] is positive. *)
Fixpoint chunks {A} (fuel k : nat) (l : list A) : list (list A) :=
  match fuel, l with
  | O, _ => []
  | _, [] => []
  | S fuel', _ => take k l :: chunks fuel' k (drop k l)
  end.

(** A batched run as the specification words it: the batches are moved one
    after the other, each by one call of [move_files_to_destination]; after
    a batch its number is printed and the run sleeps for [delay] seconds.
    With [after_last] the run also sleeps after the final batch; without,
    after every batch except the final one. *)
Fixpoint paced_run (after_last : bool) (todo : list (list FileStat))
    (number total : Z) (destination_folder : string) (delay : Q)
    (self : MediaGatherer.t) (w : MediaGatherer.world)
  : MediaGatherer.t * MediaGatherer.world :=
  match todo with
  | [] => (self, w)
  | batch :: todo' =>
      let '(self, w, _) :=
        MediaGatherer.move_files_to_destination
          batch destination_folder self w in
      let w := MediaGatherer.emit
                 (MediaGatherer.PrintMovedBatch number total) w in
      let final := match todo' with [] => true | _ => false end in
      let w :=
        if after_last || negb final
        then MediaGatherer.emit (MediaGatherer.Sleep delay) w
        else w in
      paced_run after_last todo' (number + 1) total destination_folder
                delay self w
  end.

(** [c] does not occur in [s]. *)
Definition absent (c : ascii) (s : string) : Prop :=
  PyStr.forallb (fun x => negb (bool_decide (x = c))) s = true.

(** The records of a folder, and the bytes of a list of records. *)
Definition in_folder (folder : string) (file_stats : list FileStat)
  : list FileStat :=
  filter (fun stat => Source_Folder stat = folder) file_stats.

Definition total_bytes (file_stats : list FileStat) : Z :=
  foldr Z.add 0%Z (map File_Size_Bytes file_stats).

(** The sum of the values of a dictionary. *)
Definition sum_values (m : gmap string Z) : Z :=
  map_fold (fun _ v acc => (v + acc)%Z) 0%Z m.

Definition sum_counts (m : gmap string nat) : nat :=
  map_fold (fun _ v acc => v + acc) 0 m.

(** The dictionary of [show_file_size_distribution], given the count of
    each range. *)
Definition counts_of (c : Z * bound -> nat) : list (string * nat) :=
  map (fun sr => (fst sr, c (snd sr))) size_ranges.

(** What a run of the mover may do between two states, given the source
    paths of the records it is handed: the scan is left as it is, no fewer
    paths exist, a path that is not a source path stays, and a new entry of
    [moved_files] has a source path as its key and, as its value, a path
    that did not exist or was a source path. *)
Definition only_moves (sources : list string)
    (before after : MediaGatherer.t * MediaGatherer.world) : Prop :=
  MediaGatherer.collector (fst after) = MediaGatherer.collector (fst before)
  /\ size (MediaGatherer.fs (snd before))
     <= size (MediaGatherer.fs (snd after))
  /\ (forall p, p ∈ MediaGatherer.fs (snd before) -> p ∉ sources ->
                p ∈ MediaGatherer.fs (snd after))
  /\ (forall src dst,
        MediaGatherer.moved_files (fst after) !! src = Some dst ->
        MediaGatherer.moved_files (fst before) !! src = Some dst
        \/ (src ∈ sources
            /\ (dst ∉ MediaGatherer.fs (snd before) \/ dst ∈ sources))).

(** [stem] is [base] followed by a number in parentheses, the number
    written with one or more digits. *)
Definition has_number_suffix (stem base : string) : Prop :=
  exists ds,
    ds ≠ "" /\ PyStr.forallb MediaGatherer.is_digit ds = true
    /\ stem = base +:+ "(" +:+ ds +:+ ")".

(** [base] is [stem] with its trailing number in parentheses stripped; a
    [stem] that does not end with one is its own [base]. *)
Definition strips_number_suffix (stem base : string) : Prop :=
  has_number_suffix stem base
  \/ (base = stem /\ forall b, ~ has_number_suffix stem b).

(** Every character of [s] is a dot. *)
Definition all_dots (s : string) : bool :=
  PyStr.forallb (fun c => bool_decide (c = "."%char)) s.

End Reference.

(** ** Concrete inputs used below *)

Module Scenarios.

(** The path [d/a<newline>b(1).jpg]. *)
Definition newline_path : string :=
  "d/a" +:+ String PyStr.newline "b(1).jpg".

(** A directory whose only file is the hidden file [.mp3]. *)
Definition hidden_mp3_tree : dirtree :=
  Dir [mkEntry ".mp3" true 10 0 0] [].

(** The tree of the scan scenario of the specification: [a.mp3] (10
    bytes), [b.txt] (20 bytes) and the folder [skip_me] with [c.mp3] (5
    bytes). *)
Definition scenario_tree : dirtree :=
  Dir [mkEntry "a.mp3" true 10 0 0; mkEntry "b.txt" true 20 0 0]
      [("skip_me", Dir [mkEntry "c.mp3" true 5 0 0] [])].

(** A root with one song, and one more under its [media] folder. *)
Definition media_tree : dirtree :=
  Dir [mkEntry "a.mp3" true 10 0 0]
      [("media", Dir [mkEntry "b.mp3" true 5 0 0] [])].

(** Two records, of the types [.a] and [.b] in this order. *)
Definition two_types : list FileStatsCollector.FileStat :=
  [ FileStatsCollector.mkStat "x.a" ".a" 1 "1.00 B" 0 0 "root";
    FileStatsCollector.mkStat "y.b" ".b" 1 "1.00 B" 0 0 "root" ].

(** Three records of the folder [src]; the file of the first one is no
    longer there when the move starts. *)
Definition gone : FileStatsCollector.FileStat :=
  FileStatsCollector.mkStat "gone.jpg" ".jpg" 1 "1.00 B" 0 0 "src".
Definition here : FileStatsCollector.FileStat :=
  FileStatsCollector.mkStat "here.jpg" ".jpg" 1 "1.00 B" 0 0 "src".
Definition later : FileStatsCollector.FileStat :=
  FileStatsCollector.mkStat "later.jpg" ".jpg" 1 "1.00 B" 0 0 "src".

Definition start_world : MediaGatherer.world :=
  {| MediaGatherer.fs := {["dest"; "src/here.jpg"; "src/later.jpg"]};
     MediaGatherer.trace := [];
     MediaGatherer.os_refuses := MediaGatherer.obliging |}.

(** The same paths on an operating system that cannot remove
    [src/here.jpg]: moving it raises, and leaves its copy behind. *)
Definition locked_world : MediaGatherer.world :=
  {| MediaGatherer.fs := {["dest"; "src/here.jpg"; "src/later.jpg"]};
     MediaGatherer.trace := [];
     MediaGatherer.os_refuses := fun _ call =>
       match call with
       | MediaGatherer.Rename src dst =>
           if decide (src = "src/here.jpg")
           then Some (MediaGatherer.mkRefusal
                        (OSError "[Errno 13] Permission denied") {[dst]})
           else None
       | _ => None
       end |}.

Definition start_gatherer : MediaGatherer.t :=
  {| MediaGatherer.collector :=
       FileStatsCollector.mkCollector
         "src" MediaGatherer.default_media_extensions false ["dest"]
         [gone; here; later] [".jpg"; ".jpg"; ".jpg"];
     MediaGatherer.moved_files := ∅;
     MediaGatherer.dest_folder := "dest" |}.

(** The destination already holds [x.jpg]; two more files [x.jpg] wait in
    the folders [a] and [b]. *)
Definition x_from_a : FileStatsCollector.FileStat :=
  FileStatsCollector.mkStat "x.jpg" ".jpg" 1 "1.00 B" 0 0 "a".
Definition x_from_b : FileStatsCollector.FileStat :=
  FileStatsCollector.mkStat "x.jpg" ".jpg" 1 "1.00 B" 0 0 "b".

Definition x_world : MediaGatherer.world :=
  {| MediaGatherer.fs := {["dest"; "dest/x.jpg"; "a/x.jpg"; "b/x.jpg"]};
     MediaGatherer.trace := [];
     MediaGatherer.os_refuses := MediaGatherer.obliging |}.

(** A gatherer whose scan holds 101 records. *)
Definition crowded_gatherer : MediaGatherer.t :=
  {| MediaGatherer.collector :=
       FileStatsCollector.mkCollector
         "src" MediaGatherer.default_media_extensions false ["dest"]
         (replicate 101 here) (replicate 101 ".jpg");
     MediaGatherer.moved_files := ∅;
     MediaGatherer.dest_folder := "dest" |}.

End Scenarios.

(** * Properties *)

(** ** Strings *)

Section StringFacts.

Lemma app_nil_l_str (b : string) : "" +:+ b = b.
Proof. reflexivity. Qed.

Lemma app_cons_str (x : ascii) (a b : string) :
  String x a +:+ b = String x (a +:+ b).
Proof. reflexivity. Qed.

Lemma length_app_str (a b : string) :
  String.length (a +:+ b) = String.length a + String.length b.
Proof.
  induction a as [|c a IH]; [done|].
  rewrite app_cons_str. simpl. by rewrite IH.
Qed.

Lemma app_assoc_str (a b c : string) : (a +:+ b) +:+ c = a +:+ (b +:+ c).
Proof.
  induction a as [|x a IH]; [done|]. rewrite !app_cons_str. by rewrite IH.
Qed.

Lemma app_nil_r_str (a : string) : a +:+ "" = a.
Proof.
  induction a as [|x a IH]; [done|]. rewrite app_cons_str. by rewrite IH.
Qed.

(** The append of strings cancels on the right. *)
Lemma app_inv_tail_str (a b c : string) : a +:+ c = b +:+ c -> a = b.
Proof.
  revert b; induction a as [|x a IH]; intros [|y b] H;
    rewrite ?app_cons_str, ?app_nil_l_str in H.
  - done.
  - apply (f_equal String.length) in H. simpl in H.
    rewrite length_app_str in H. lia.
  - apply (f_equal String.length) in H. simpl in H.
    rewrite length_app_str in H. lia.
  - injection H as -> H. f_equal. by apply IH.
Qed.

Lemma startswith_spec (s pre : string) :
  PyStr.startswith s pre = true <-> exists rest, s = pre +:+ rest.
Proof.
  revert s; induction pre as [|a pre IH]; intros s; simpl.
  - split; [intros _; by exists s | done].
  - destruct s as [|b s].
    + split; [done | intros [rest Hr]; discriminate].
    + destruct (decide (a = b)) as [->|Hne].
      * rewrite IH. split; intros [rest Hr]; exists rest.
        -- by rewrite Hr.
        -- by injection Hr.
      * split; [done | intros [rest Hr]; injection Hr as ? ?; congruence].
Qed.

Lemma drop_app_length (a b : string) :
  PyStr.drop (String.length a) (a +:+ b) = b.
Proof.
  induction a as [|x a IH]; [by destruct b|]. by rewrite app_cons_str.
Qed.

Lemma take_drop_str (n : nat) (s : string) :
  PyStr.take n s +:+ PyStr.drop n s = s.
Proof.
  revert s; induction n as [|n IH]; intros [|c s]; simpl;
    rewrite ?app_cons_str, ?app_nil_l_str; try done.
  by rewrite IH.
Qed.

Lemma length_take_le (n : nat) (s : string) :
  n <= String.length s -> String.length (PyStr.take n s) = n.
Proof.
  revert s; induction n as [|n IH]; intros [|c s]; simpl; try lia.
  intros H. rewrite IH; lia.
Qed.

(** [endswith] is the suffix relation. *)
Lemma endswith_spec (s suf : string) :
  PyStr.endswith s suf = true <-> exists pre, s = pre +:+ suf.
Proof.
  unfold PyStr.endswith. split.
  - destruct (decide _) as [Hle|]; [|done].
    intros H%bool_decide_eq_true.
    exists (PyStr.take (String.length s - String.length suf) s).
    rewrite <- H at 2. by rewrite take_drop_str.
  - intros [pre ->]. rewrite length_app_str.
    destruct (decide _) as [_|]; [|lia].
    apply bool_decide_eq_true.
    replace (String.length pre + String.length suf - String.length suf)
      with (String.length pre) by lia.
    apply drop_app_length.
Qed.

(** [needle in hay] holds exactly when [hay] splits around [needle]. *)
Lemma contains_spec (needle hay : string) :
  PyStr.contains needle hay = true <->
  exists before after, hay = before +:+ needle +:+ after.
Proof.
  induction hay as [|c hay IH]; simpl.
  - rewrite orb_false_r, startswith_spec. split.
    + intros [rest Hr]. by exists "", rest.
    + intros [[|x before] [after Ha]]; [by exists after | discriminate].
  - rewrite orb_true_iff, startswith_spec, IH. split.
    + intros [[rest Hr] | (before & after & Hb)].
      * by exists "", rest.
      * exists (String c before), after. by rewrite app_cons_str, Hb.
    + intros [[|x before] [after Ha]].
      * left. by exists after.
      * right. rewrite app_cons_str in Ha. injection Ha as _ Ha.
        by exists before, after.
Qed.

End StringFacts.

(** ** Conflict resolution *)

Section ConflictResolution.
Import MediaGatherer.

Lemma os_path_exists_true (fs : gset string) (p : string) :
  os_path_exists fs p = true <-> p ∈ fs.
Proof. unfold os_path_exists. apply bool_decide_eq_true. Qed.

Lemma os_path_exists_false (fs : gset string) (p : string) :
  os_path_exists fs p = false <-> p ∉ fs.
Proof. unfold os_path_exists. apply bool_decide_eq_false. Qed.

(** Two counters never give the same candidate name. *)
Lemma candidate_inj (base_name extension : string) (n m : nat) :
  candidate base_name extension n = candidate base_name extension m -> n = m.
Proof.
  unfold candidate. intros H.
  apply (inj (String.app base_name)) in H.
  apply (inj (String.app "(")) in H.
  apply app_inv_tail_str in H.
  by apply (inj pretty) in H.
Qed.

(** Among the first [size fs + 1] candidates one does not exist. *)
Lemma free_candidate (fs : gset string) (base_name extension : string) :
  exists n, 1 <= n <= S (size fs) /\ candidate base_name extension n ∉ fs.
Proof.
  set (l := seq 1 (S (size fs))).
  destruct (decide (Forall (fun n => candidate base_name extension n ∈ fs) l))
    as [Hall | Hex].
  - exfalso.
    assert (Hnd : NoDup (candidate base_name extension <$> l)).
    { apply NoDup_fmap_2; [| apply NoDup_seq].
      intros n m. apply candidate_inj. }
    assert (Hsub : list_to_set (C := gset string)
                     (candidate base_name extension <$> l) ⊆ fs).
    { intros x Hx. apply elem_of_list_to_set in Hx.
      apply list_elem_of_fmap in Hx as (n & -> & Hn).
      by apply (proj1 (Forall_forall _ _) Hall). }
    apply subseteq_size in Hsub.
    rewrite size_list_to_set in Hsub by done.
    rewrite length_fmap in Hsub. subst l. rewrite length_seq in Hsub. lia.
  - apply not_Forall_Exists in Hex; [| intros n; apply _].
    apply Exists_exists in Hex as (n & Hn & Hfree).
    exists n. split; [| done].
    subst l. apply elem_of_seq in Hn. lia.
Qed.

(** The loop stops when some candidate within reach of the fuel is free. *)
Lemma rename_loop_total (fs : gset string) (base_name extension : string)
    (fuel counter : nat) (new_filename : string) :
  (new_filename ∉ fs) \/
  (exists n, counter <= n < counter + fuel /\
             candidate base_name extension n ∉ fs) ->
  is_Some (rename_loop fs base_name extension fuel counter new_filename).
Proof.
  revert counter new_filename.
  induction fuel as [|fuel IH]; intros counter new_filename H; simpl.
  - destruct (os_path_exists fs new_filename) eqn:E; [| by eexists].
    apply os_path_exists_true in E.
    destruct H as [H | (n & Hn & _)]; [done | lia].
  - destruct (os_path_exists fs new_filename) eqn:E; [| by eexists].
    apply os_path_exists_true in E.
    destruct H as [H | (n & Hn & Hfree)]; [done |].
    apply IH. destruct (decide (n = counter)) as [-> | Hne].
    + by left.
    + right. exists n. split; [lia | done].
Qed.

(** What the loop returns is the path it was entered with when that one is
    free, and otherwise the first free candidate from [counter] on. *)
Lemma rename_loop_first (fs : gset string) (base_name extension : string)
    (fuel counter : nat) (new_filename r : string) :
  rename_loop fs base_name extension fuel counter new_filename = Some r ->
  ((new_filename ∉ fs) /\ r = new_filename) \/
  ((new_filename ∈ fs) /\
   exists n, counter <= n /\ r = candidate base_name extension n /\
             (candidate base_name extension n ∉ fs) /\
             forall m, counter <= m < n ->
                       candidate base_name extension m ∈ fs).
Proof.
  revert counter new_filename.
  induction fuel as [|fuel IH]; intros counter new_filename; simpl;
    destruct (os_path_exists fs new_filename) eqn:E; intros H;
    try discriminate.
  - left. apply os_path_exists_false in E. by injection H as <-.
  - right. apply os_path_exists_true in E. split; [done |].
    apply IH in H as [[Hfree ->] | (Hin & n & Hn & -> & Hfree & Hbefore)].
    + exists counter. repeat split; [lia | done | intros m; lia].
    + exists n. repeat split; [lia | done |].
      intros m Hm. destruct (decide (m = counter)) as [-> | Hne]; [done |].
      apply Hbefore. lia.
  - left. apply os_path_exists_false in E. by injection H as <-.
Qed.

(** [rename_if_exists] always returns: the fuel it gives the loop is
    enough. *)
Lemma rename_if_exists_total (fs : gset string) (filename : string) :
  is_Some (rename_if_exists fs filename).
Proof.
  unfold rename_if_exists.
  destruct (OsPath.splitext filename) as [base_name extension].
  apply rename_loop_total. right.
  destruct (free_candidate fs (remove_number_suffix base_name) extension)
    as (n & Hn & Hfree).
  exists n. split; [lia | done].
Qed.

(** A path that does not exist is returned as it is. *)
Lemma handle_file_conflict_fresh (fs : gset string) (p : string) :
  (p ∉ fs) -> handle_file_conflict fs p = Some p.
Proof.
  intros H. unfold handle_file_conflict.
  apply os_path_exists_false in H. by rewrite H.
Qed.

(** A path that exists is replaced by the first free candidate. *)
Lemma handle_file_conflict_first_free (fs : gset string)
    (p base_name extension : string) :
  OsPath.splitext p = (base_name, extension) ->
  (p ∈ fs) ->
  exists n,
    1 <= n /\
    handle_file_conflict fs p
    = Some (candidate (remove_number_suffix base_name) extension n) /\
    (candidate (remove_number_suffix base_name) extension n ∉ fs) /\
    forall m, 1 <= m < n ->
              candidate (remove_number_suffix base_name) extension m ∈ fs.
Proof.
  intros Hsplit H. unfold handle_file_conflict.
  rewrite (proj2 (os_path_exists_true fs p) H).
  destruct (rename_if_exists_total fs p) as [r Hr]. rewrite Hr.
  unfold rename_if_exists in Hr. rewrite Hsplit in Hr.
  apply rename_loop_first in Hr
    as [[Hfree _] | (_ & n & Hn & -> & Hfree & Hbefore)]; [done |].
  by exists n.
Qed.

End ConflictResolution.

(** ** The number suffix *)

Section NumberSuffix.
Import MediaGatherer Scenarios.

Lemma span_all (f : ascii -> bool) (ds rest : string) (c : ascii) :
  PyStr.forallb f ds = true -> f c = false ->
  PyStr.span f (ds +:+ String c rest) = (ds, String c rest).
Proof.
  intros Hds Hc. induction ds as [|d ds IH]; simpl.
  - by rewrite Hc.
  - simpl in Hds. apply andb_true_iff in Hds as [Hd Hds].
    by rewrite Hd, (IH Hds).
Qed.

(** The rest left by [span] keeps everything from a character that fails
    the test. *)
Lemma span_rest_length (f : ascii -> bool) (x y : string) (c : ascii) :
  f c = false ->
  S (String.length y) <= String.length (snd (PyStr.span f (x +:+ String c y))).
Proof.
  intros Hc. induction x as [|a x IH].
  - simpl. by rewrite Hc.
  - rewrite app_cons_str. simpl. destruct (f a).
    + destruct (PyStr.span f (x +:+ String c y)) as [u v]. exact IH.
    + simpl. rewrite length_app_str. simpl. lia.
Qed.

(** The tail of the pattern matches a parenthesised number. *)
Lemma match_number_suffix_here (ds : string) :
  ds ≠ "" -> PyStr.forallb is_digit ds = true ->
  match_number_suffix ("(" +:+ ds +:+ ")") = true.
Proof.
  intros Hne Hds. rewrite app_cons_str, app_nil_l_str.
  unfold match_number_suffix.
  rewrite (span_all is_digit ds "" ")"%char Hds eq_refl).
  rewrite bool_decide_eq_false_2 by done.
  by rewrite (bool_decide_eq_true_2 (")" = ")")).
Qed.

(** It does not match earlier, where a further opening parenthesis
    follows. *)
Lemma match_number_suffix_before (c : ascii) (b ds : string) :
  ds ≠ "" ->
  match_number_suffix (String c b +:+ "(" +:+ ds +:+ ")") = false.
Proof.
  intros Hne. rewrite app_cons_str. unfold match_number_suffix.
  destruct (decide (c = "("%char)) as [-> | Hc].
  - pose proof (span_rest_length is_digit b (ds +:+ ")") "("%char eq_refl)
      as Hlen.
    rewrite app_cons_str, app_nil_l_str.
    destruct (PyStr.span is_digit (b +:+ String "(" (ds +:+ ")")))
      as [digits tail].
    simpl in Hlen. rewrite length_app_str in Hlen. simpl in Hlen.
    assert (2 <= String.length ds + 1).
    { destruct ds; [done | simpl; lia]. }
    rewrite (bool_decide_eq_false_2 (tail = ")")),
            (bool_decide_eq_false_2 (tail = String ")" _)).
    + by rewrite andb_false_r.
    + intros ->. simpl in Hlen. lia.
    + intros ->. simpl in Hlen. lia.
  - destruct c as [[] [] [] [] [] [] [] []]; try done.
Qed.

Lemma re_match_group1_here (s : string) :
  match_number_suffix s = true -> re_match_group1 s = Some "".
Proof.
  intros H. destruct s as [|c s]; [done|].
  change (re_match_group1 (String c s)) with
    (if match_number_suffix (String c s) then Some ""
     else if decide (c = PyStr.newline) then None
     else String c <$> re_match_group1 s).
  by rewrite H.
Qed.

Lemma re_match_group1_step (c : ascii) (s : string) :
  match_number_suffix (String c s) = false -> c ≠ PyStr.newline ->
  re_match_group1 (String c s) = String c <$> re_match_group1 s.
Proof.
  intros H Hc.
  change (re_match_group1 (String c s)) with
    (if match_number_suffix (String c s) then Some ""
     else if decide (c = PyStr.newline) then None
     else String c <$> re_match_group1 s).
  rewrite H. by destruct (decide (c = PyStr.newline)).
Qed.

(** Where the collapse works: a stem [b(N)] whose part [b] holds no
    newline is reduced to [b]. *)
Lemma remove_number_suffix_collapses (b ds : string) :
  PyStr.forallb (fun c => negb (bool_decide (c = PyStr.newline))) b = true ->
  ds ≠ "" -> PyStr.forallb is_digit ds = true ->
  remove_number_suffix (b +:+ "(" +:+ ds +:+ ")") = b.
Proof.
  intros Hb Hne Hds. unfold remove_number_suffix.
  assert (re_match_group1 (b +:+ "(" +:+ ds +:+ ")") = Some b) as ->; [| done].
  induction b as [|c b IH].
  - rewrite app_nil_l_str.
    by apply re_match_group1_here, match_number_suffix_here.
  - simpl in Hb. apply andb_true_iff in Hb as [Hc Hb].
    apply negb_true_iff, bool_decide_eq_false in Hc.
    pose proof (match_number_suffix_before c b ds Hne) as Hm.
    rewrite (app_cons_str c b) in Hm |- *.
    rewrite (re_match_group1_step _ _ Hm Hc).
    by rewrite (IH Hb).
Qed.

Lemma remove_number_suffix_collapses_witness :
  remove_number_suffix ("d/x" +:+ "(" +:+ "12" +:+ ")") = "d/x".
Proof.
  apply remove_number_suffix_collapses; [reflexivity | done | reflexivity].
Defined.

(** No stacking for such a stem: an existing [b(N)extension] is renamed to
    the first free [b(M)extension]. *)
Lemma no_suffix_stacking (fs : gset string) (p b ds extension : string) :
  OsPath.splitext p = (b +:+ "(" +:+ ds +:+ ")", extension) ->
  PyStr.forallb (fun c => negb (bool_decide (c = PyStr.newline))) b = true ->
  ds ≠ "" -> PyStr.forallb is_digit ds = true ->
  (p ∈ fs) ->
  exists n, 1 <= n /\
    handle_file_conflict fs p = Some (candidate b extension n) /\
    (candidate b extension n ∉ fs) /\
    forall m, 1 <= m < n -> candidate b extension m ∈ fs.
Proof.
  intros Hsplit Hb Hne Hds Hin.
  destruct (handle_file_conflict_first_free fs p _ _ Hsplit Hin)
    as (n & Hn & Hres & Hfree & Hbefore).
  rewrite (remove_number_suffix_collapses b ds Hb Hne Hds) in *.
  by exists n.
Qed.

Lemma no_suffix_stacking_witness :
  exists n, 1 <= n /\
    handle_file_conflict {["d/x(1).jpg"]} "d/x(1).jpg"
    = Some (candidate "d/x" ".jpg" n) /\
    (candidate "d/x" ".jpg" n ∉ ({["d/x(1).jpg"]} : gset string)) /\
    forall m, 1 <= m < n ->
              candidate "d/x" ".jpg" m ∈ ({["d/x(1).jpg"]} : gset string).
Proof.
  apply (no_suffix_stacking {["d/x(1).jpg"]} "d/x(1).jpg" "d/x" "1" ".jpg").
  - vm_compute. reflexivity.
  - reflexivity.
  - done.
  - reflexivity.
  - apply (proj1 (bool_decide_eq_true _)). reflexivity.
Defined.

(** The scenario of the destination that already holds [x.jpg]: the next
    [x.jpg] becomes [x(1).jpg] and the one after it [x(2).jpg]. *)
Lemma x_jpg_scenario :
  handle_file_conflict {["dest/x.jpg"]} "dest/x.jpg" = Some "dest/x(1).jpg" /\
  handle_file_conflict {["dest/x(1).jpg"; "dest/x.jpg"]} "dest/x.jpg"
  = Some "dest/x(2).jpg" /\
  handle_file_conflict {["dest/x(1).jpg"; "dest/x.jpg"]} "dest/x(1).jpg"
  = Some "dest/x(2).jpg".
Proof. repeat split; vm_compute; reflexivity. Qed.

(** The same scenario through the mover: the two files end up as
    [dest/x(1).jpg] and [dest/x(2).jpg]. *)
Lemma x_jpg_moved :
  let r := move_files_to_destination [x_from_a; x_from_b] "dest"
                                     start_gatherer x_world in
  moved_files (fst (fst r))
  = {["a/x.jpg" := "dest/x(1).jpg"; "b/x.jpg" := "dest/x(2).jpg"]}
  /\ fs (snd (fst r))
     = {["dest"; "dest/x.jpg"; "dest/x(1).jpg"; "dest/x(2).jpg"]}.
Proof. cbv zeta. split; vm_compute; reflexivity. Qed.

(** C2, at a stem that holds a newline before its [(N)] group.  The regular
    expression of [remove_number_suffix] does not match (its [.] stops at
    the newline), the stem is left as it is, and the existing
    [d/a<newline>b(1).jpg] is renamed with a second group,
    [d/a<newline>b(1)(1).jpg]. *)
Theorem suffix_stacks_after_newline :
  OsPath.splitext newline_path
  = ("d/a" +:+ String PyStr.newline "b" +:+ "(" +:+ "1" +:+ ")", ".jpg") /\
  remove_number_suffix (fst (OsPath.splitext newline_path))
  = fst (OsPath.splitext newline_path) /\
  handle_file_conflict {[newline_path]} newline_path
  = Some ("d/a" +:+ String PyStr.newline "b(1)(1).jpg").
Proof. repeat split; vm_compute; reflexivity. Qed.

End NumberSuffix.

(** ** [format_size] *)

Section FormatSize.
Import FileStatsCollector.

Lemma format_size_loop_step (u : string) (us : list string) (q : Q)
    (u0 : string) :
  (1024 <= q)%Q ->
  format_size_loop (u :: us) q u0
  = format_size_loop us (Qred (q / 1024)) u.
Proof. intros H. simpl. apply Qle_bool_iff in H. by rewrite H. Qed.

Lemma format_size_loop_stop (u : string) (us : list string) (q : Q)
    (u0 : string) :
  (q < 1024)%Q -> format_size_loop (u :: us) q u0 = (q, u).
Proof.
  intros H. simpl. destruct (Qle_bool 1024 q) eqn:E; [| done].
  apply Qle_bool_iff in E. by apply Qle_not_lt in E.
Qed.

Lemma Qred_div_1024 (q : Q) (n : Z) (d : positive) :
  (q == n # d)%Q -> Qred (q / 1024) = Qred (n # (d * 1024)).
Proof.
  intros H. apply Qred_complete. rewrite H.
  unfold Qeq, Qdiv, Qmult, Qinv. simpl. lia.
Qed.

(** Below [2 ^ 53] the conversion to a float is exact. *)
Lemma binary64_of_Z_small (n : Z) :
  (Z.abs n < 2 ^ 53)%Z -> binary64_of_Z n = inject_Z n.
Proof.
  intros H. unfold binary64_of_Z. apply Z.ltb_lt in H. by rewrite H.
Qed.

(** One more turn of the loop on a value known as [n / d]. *)
Local Ltac divide_again n :=
  rewrite format_size_loop_step;
  [ rewrite (Qred_div_1024 _ n _) by (reflexivity || apply Qred_correct)
  | rewrite ?Qred_correct; unfold Qle; simpl; lia ].

Local Ltac stop_here :=
  rewrite format_size_loop_stop;
  [ reflexivity | rewrite ?Qred_correct; unfold Qlt; simpl; lia ].

(** X5.  Below [1024 ^ 5] bytes the size is rendered in the first unit of
    [B, KB, MB, GB, TB] in which it is below 1024: for the [k]-th unit,
    [n / 1024 ^ k] with two decimals, then the unit. *)
Lemma format_size_in_unit (n : Z) (k : nat) (unit : string) :
  units !! k = Some unit ->
  (0 <= n)%Z ->
  k = 0 \/ (1024 ^ Z.of_nat k <= n)%Z ->
  (n < 1024 ^ (Z.of_nat k + 1))%Z ->
  format_size n
  = fmt_2f (Qred (n # Z.to_pos (1024 ^ Z.of_nat k))) +:+ " " +:+ unit.
Proof.
  intros Hu H0 Hlo Hhi. unfold format_size.
  assert (Hk : k < 5) by (apply lookup_lt_Some in Hu; exact Hu).
  rewrite binary64_of_Z_small.
  2:{ assert (1024 ^ (Z.of_nat k + 1) <= 1024 ^ 5)%Z
        by (apply Z.pow_le_mono_r; lia).
      lia. }
  unfold units in *.
  destruct k as [|[|[|[|[|k]]]]]; [| | | | | lia];
    simpl in Hu; injection Hu as <-;
    (destruct Hlo as [Hlo | Hlo]; [try done |]).
  - rewrite format_size_loop_stop by (unfold Qlt; simpl; lia).
    do 2 f_equal. symmetry. apply Qcanon.Qred_identity. apply Z.gcd_1_r.
  - rewrite format_size_loop_stop by (unfold Qlt; simpl; lia).
    do 2 f_equal. symmetry. apply Qcanon.Qred_identity. apply Z.gcd_1_r.
  - divide_again n. stop_here.
  - divide_again n. divide_again n. stop_here.
  - divide_again n. divide_again n. divide_again n. stop_here.
  - divide_again n. divide_again n. divide_again n. divide_again n.
    stop_here.
Qed.

Lemma format_size_in_unit_witness :
  format_size 1536 = fmt_2f (Qred (1536 # 1024)) +:+ " " +:+ "KB".
Proof.
  apply (format_size_in_unit 1536 1 "KB");
    [reflexivity | lia | right; simpl; lia | simpl; lia].
Defined.

(** The three sizes of the specification. *)
Lemma format_size_examples :
  format_size 1536 = "1.50 KB" /\
  format_size 1073741824 = "1.00 GB" /\
  format_size 512 = "512.00 B".
Proof. repeat split; vm_compute; reflexivity. Qed.

(** C9, at [1024 ^ 5] bytes.  No unit of the list brings the value below
    1024; the loop divides once more after its last unit, and the size is
    printed as [1.00 TB], the rendering of [1024 ^ 4] bytes, where the
    size in terabytes is 1024. *)
Theorem format_size_beyond_terabytes :
  format_size (1024 ^ 5) = "1.00 TB" /\
  format_size (1024 ^ 4) = "1.00 TB" /\
  fmt_2f (Qred (1024 ^ 5 # Z.to_pos (1024 ^ 4))) +:+ " " +:+ "TB"
  = "1024.00 TB".
Proof. repeat split; vm_compute; reflexivity. Qed.

End FormatSize.

(** ** The scan *)

Section Scan.
Import FileStatsCollector Reference Scenarios.

Lemma not_skipped_spec (skip_folders : list string) (folder : string) :
  not_skipped skip_folders folder = true <->
  forall s, s ∈ skip_folders -> ~ substring s folder.
Proof.
  unfold not_skipped, substring.
  induction skip_folders as [|s0 l IH]; simpl.
  - split; [intros _ s Hs; by apply elem_of_nil in Hs | done].
  - rewrite andb_true_iff, IH, negb_true_iff. split.
    + intros [H0 Hl] s Hs. apply elem_of_cons in Hs as [-> | Hs].
      * intros Hsub. apply contains_spec in Hsub. congruence.
      * by apply Hl.
    + intros H. split.
      * destruct (PyStr.contains s0 folder) eqn:E; [| done].
        apply contains_spec in E. exfalso. apply (H s0); [left | done].
      * intros s Hs. apply H. by right.
Qed.

Lemma walk_unfold (top : string) (entries : list DirEntry)
    (subdirs : list (string * dirtree)) :
  walk top (Dir entries subdirs)
  = (top, entries)
    :: flat_map (fun ns => walk (OsPath.join top (fst ns)) (snd ns)) subdirs.
Proof.
  simpl. f_equal.
  induction subdirs as [|[n sub] l IH]; simpl; [done | by rewrite IH].
Qed.

(** [os.walk] visits the reachable directories and nothing else. *)
Lemma walk_reachable (top : string) (t : dirtree) (folder : string)
    (es : list DirEntry) :
  (folder, es) ∈ walk top t <-> reachable top t folder es.
Proof.
  split.
  - revert top. induction t as [entries subdirs IH] using dirtree_ind'.
    intros top. rewrite walk_unfold. intros H.
    apply elem_of_cons in H as [H | H].
    + injection H as -> ->. constructor.
    + apply list_elem_of_In, in_flat_map in H as ([n sub] & Hns & H).
      apply list_elem_of_In in Hns, H.
      apply (reachable_below _ _ _ n sub); [done |].
      apply (proj1 (Forall_forall _ _) IH (n, sub) Hns). exact H.
  - induction 1 as [top entries subdirs
                   | top entries subdirs n sub folder es Hns _ IH];
      rewrite walk_unfold.
    + by left.
    + right. apply list_elem_of_In, in_flat_map.
      exists (n, sub). split; by apply list_elem_of_In.
Qed.

Lemma os_walk_reachable (top : string) (node : fsnode) (folder : string)
    (es : list DirEntry) :
  (folder, es) ∈ os_walk top node <-> reachable_from top node folder es.
Proof.
  destruct node as [| |t]; simpl; try apply walk_reachable;
    split; try done; intros H; by apply elem_of_nil in H.
Qed.

Lemma entries_of_walk_spec (w : list (string * list DirEntry))
    (folder : string) (e : DirEntry) :
  (folder, e) ∈ entries_of_walk w <->
  exists es, (folder, es) ∈ w /\ e ∈ es.
Proof.
  unfold entries_of_walk. rewrite list_elem_of_In, in_flat_map. split.
  - intros ([folder' es] & Hw & He). apply in_map_iff in He as (e' & He' & He).
    injection He' as -> ->. exists es. by rewrite !list_elem_of_In.
  - intros (es & Hw & He). exists (folder, es).
    rewrite <- list_elem_of_In. split; [done |].
    apply in_map_iff. exists e. by rewrite <- list_elem_of_In.
Qed.

(** What [process_files] returns for one folder. *)
Lemma process_files_spec (foldername : string) (entries : list DirEntry)
    (all_files : bool) (media_extensions : list string) :
  process_files foldername entries all_files
                (is_media_file media_extensions) format_size
  = map (file_stat_of foldername)
        (filter (fun e =>
                   is_file e
                   && (all_files || is_media_file media_extensions (name e))
                   = true) entries).
Proof.
  unfold process_files.
  induction entries as [|e l IH]; simpl; [done |].
  rewrite filter_cons, IH.
  destruct (is_file e); simpl; [| done].
  by destruct (all_files || is_media_file media_extensions (name e)).
Qed.

(** The scan as a whole: the records of the selected entries of the walk,
    one record per selected entry, in the order of the walk. *)
Lemma gather_file_stats_spec (root_folder : string)
    (media_extensions : list string) (all_files : bool)
    (skip_folders : list string) (node : fsnode) :
  _gather_file_stats root_folder media_extensions all_files skip_folders node
  = map (fun fe => file_stat_of (fst fe) (snd fe))
        (filter (fun fe =>
                   selected media_extensions all_files skip_folders fe = true)
                (entries_of_walk (os_walk root_folder node))).
Proof.
  unfold _gather_file_stats, entries_of_walk.
  induction (os_walk root_folder node) as [|[folder es] w IH]; [done |].
  simpl flat_map. rewrite filter_app, map_app, <- IH.
  rewrite filter_cons. simpl fst.
  assert (Hsel : map (fun fe => file_stat_of (fst fe) (snd fe))
            (filter (fun fe =>
               selected media_extensions all_files skip_folders fe = true)
               (map (pair folder) es))
          = if not_skipped skip_folders folder
            then process_files folder es all_files
                   (is_media_file media_extensions) format_size
            else []).
  { rewrite process_files_spec. unfold selected.
    induction es as [|e l IHl]; simpl.
    - by destruct (not_skipped skip_folders folder).
    - rewrite !filter_cons. simpl.
      destruct (not_skipped skip_folders folder) eqn:Hskip; simpl;
        [| exact IHl].
      destruct (is_file e
                && (all_files || is_media_file media_extensions (name e)));
        simpl; by rewrite IHl. }
  rewrite Hsel.
  by destruct (not_skipped skip_folders folder).
Qed.

(** Membership in the scan. *)
Lemma gather_file_stats_elem (root_folder : string)
    (media_extensions : list string) (all_files : bool)
    (skip_folders : list string) (node : fsnode) (r : FileStat) :
  r ∈ _gather_file_stats root_folder media_extensions all_files
                         skip_folders node <->
  exists folder es e,
    reachable_from root_folder node folder es /\ e ∈ es /\
    selected media_extensions all_files skip_folders (folder, e) = true /\
    r = file_stat_of folder e.
Proof.
  rewrite gather_file_stats_spec, list_elem_of_In, in_map_iff. split.
  - intros ([folder e] & <- & H). apply list_elem_of_In in H.
    apply list_elem_of_filter in H as [Hsel H].
    apply entries_of_walk_spec in H as (es & Hw & He).
    apply os_walk_reachable in Hw. by exists folder, es, e.
  - intros (folder & es & e & Hr & He & Hsel & ->).
    exists (folder, e). split; [done |].
    apply list_elem_of_In, list_elem_of_filter. split; [done |].
    apply entries_of_walk_spec. exists es. split; [| done].
    by apply os_walk_reachable.
Qed.

(** Two selected entries with the same record are the same entry of the
    same directory. *)
Lemma file_stat_of_inj (folder1 folder2 : string) (e1 e2 : DirEntry) :
  is_file e1 = true -> is_file e2 = true ->
  file_stat_of folder1 e1 = file_stat_of folder2 e2 ->
  (folder1, e1) = (folder2, e2).
Proof.
  destruct e1, e2. unfold file_stat_of. simpl.
  intros -> -> [= -> _ -> _ -> -> ->]. done.
Qed.

(** When the walk lists no entry twice, the scan holds no record twice. *)
Lemma gather_file_stats_NoDup (root_folder : string)
    (media_extensions : list string) (all_files : bool)
    (skip_folders : list string) (node : fsnode) :
  NoDup (entries_of_walk (os_walk root_folder node)) ->
  NoDup (_gather_file_stats root_folder media_extensions all_files
                            skip_folders node).
Proof.
  intros Hnd. rewrite gather_file_stats_spec.
  apply (NoDup_fmap_2_strong (fun fe => file_stat_of (fst fe) (snd fe))).
  - intros [f1 e1] [f2 e2] H1 H2 Heq.
    apply list_elem_of_filter in H1 as [H1 _], H2 as [H2 _].
    unfold selected in H1, H2. simpl in *.
    apply andb_true_iff in H1 as [H1 _], H2 as [H2 _].
    apply andb_true_iff in H1 as [_ H1], H2 as [_ H2].
    by apply file_stat_of_inj.
  - by apply NoDup_filter.
Qed.

(** C4.  With [all_files = true] the scan returns one record per file of
    the walk whose directory path holds none of the skip substrings: the
    records are, position by position, the records of those entries; those
    entries are the files of the directories reachable from the root whose
    full path contains no skip substring; and no record comes twice when the
    walk lists no entry twice. *)
Theorem gather_all_files (root_folder : string)
    (media_extensions skip_folders : list string) (node : fsnode) :
  let scan :=
    _gather_file_stats root_folder media_extensions true skip_folders node in
  let found :=
    filter (fun fe => is_file (snd fe) = true
                      /\ not_skipped skip_folders (fst fe) = true)
           (entries_of_walk (os_walk root_folder node)) in
  scan = map (fun fe => file_stat_of (fst fe) (snd fe)) found
  /\ (forall folder e,
        (folder, e) ∈ found <->
        (exists es, reachable_from root_folder node folder es /\ e ∈ es)
        /\ is_file e = true
        /\ forall s, s ∈ skip_folders -> ~ substring s folder)
  /\ (NoDup (entries_of_walk (os_walk root_folder node)) -> NoDup scan).
Proof.
  cbv zeta. split_and!.
  - rewrite gather_file_stats_spec. f_equal. apply list_filter_iff.
    intros [folder e]. unfold selected. simpl.
    destruct (not_skipped skip_folders folder), (is_file e); simpl;
      intuition discriminate.
  - intros folder e. rewrite list_elem_of_filter, entries_of_walk_spec.
    simpl. rewrite not_skipped_spec. split.
    + intros [[Hf Hs] (es & Hw & He)]. repeat split; [| done | done].
      exists es. by rewrite <- os_walk_reachable.
    + intros [(es & Hw & He) [Hf Hs]]. repeat split; [done | done |].
      exists es. by rewrite os_walk_reachable.
  - apply gather_file_stats_NoDup.
Qed.

Lemma gather_all_files_witness :
  NoDup (_gather_file_stats "root" [".mp3"] true ["skip_me"]
                            (Directory scenario_tree))
  /\ map File_Name (_gather_file_stats "root" [".mp3"] true ["skip_me"]
                                      (Directory scenario_tree))
     = ["a.mp3"; "b.txt"].
Proof.
  split; [| reflexivity].
  apply (proj2 (proj2 (gather_all_files "root" [".mp3"] ["skip_me"]
                                        (Directory scenario_tree)))).
  apply (bool_decide_unpack _). vm_compute. exact I.
Defined.

End Scan.

(** ** The classifier and the records of a scan by extension *)

Section Classifier.
Import FileStatsCollector Reference Scenarios.

(** [is_media_file]: some entry of the list ends the lower-cased name. *)
Lemma is_media_file_spec (media_extensions : list string)
    (filename : string) :
  is_media_file media_extensions filename = true <->
  exists ext, ext ∈ media_extensions /\
              exists pre, PyStr.lower filename = pre +:+ ext.
Proof.
  unfold is_media_file. rewrite existsb_exists. split.
  - intros (ext & Hin & H). exists ext.
    by rewrite list_elem_of_In, <- endswith_spec.
  - intros (ext & Hin & H). exists ext.
    by rewrite <- list_elem_of_In, endswith_spec.
Qed.

(** C5, as the code has it.  With [all_files = false] the scan returns
    the records of the files of the walk that lie in a directory that is
    not skipped and whose name the classifier accepts, one record per such
    file; so every record has a name the classifier accepts; and the
    classifier accepts a name exactly when the lower-cased name ends with
    some entry of the list, the entry taken literally. *)
Theorem gather_media_files (root_folder : string)
    (media_extensions skip_folders : list string) (node : fsnode) :
  let scan :=
    _gather_file_stats root_folder media_extensions false skip_folders node in
  scan
  = map (fun fe => file_stat_of (fst fe) (snd fe))
        (filter (fun fe => is_file (snd fe) = true
                           /\ not_skipped skip_folders (fst fe) = true
                           /\ is_media_file media_extensions
                                            (name (snd fe)) = true)
                (entries_of_walk (os_walk root_folder node)))
  /\ (forall r, r ∈ scan ->
                is_media_file media_extensions (File_Name r) = true)
  /\ (forall filename,
        is_media_file media_extensions filename = true <->
        exists ext, ext ∈ media_extensions /\
                    exists pre, PyStr.lower filename = pre +:+ ext).
Proof.
  cbv zeta. repeat split.
  - rewrite gather_file_stats_spec. f_equal. apply list_filter_iff.
    intros [folder e]. unfold selected. simpl.
    destruct (not_skipped skip_folders folder), (is_file e),
      (is_media_file media_extensions (name e)); simpl;
      intuition discriminate.
  - intros r Hr.
    apply gather_file_stats_elem in Hr as (folder & es & e & _ & _ & Hsel & ->).
    unfold selected in Hsel. simpl in *.
    by apply andb_true_iff in Hsel as [_ Hsel].
  - by apply is_media_file_spec.
  - by apply is_media_file_spec.
Qed.

(** C5 as stated fails: with the default extension list, the hidden file
    [.mp3] is returned, and the extension of its record, the empty string,
    is not in the list, whatever the case. *)
Lemma hidden_mp3_has_no_extension :
  _gather_file_stats "root" MediaGatherer.default_media_extensions false []
                     (Directory hidden_mp3_tree)
  = [ {| File_Name := ".mp3"; File_Type := "";
         File_Size_Bytes := 10; File_Size_Human := "10.00 B";
         Creation_Date := 0; Modification_Date := 0;
         Source_Folder := "root" |} ]
  /\ ~ extension_in MediaGatherer.default_media_extensions "".
Proof.
  split; [vm_compute; reflexivity |].
  intros (e & Hin & Heq). unfold MediaGatherer.default_media_extensions in Hin.
  repeat (apply elem_of_cons in Hin as [-> | Hin]; [discriminate |]).
  by apply elem_of_nil in Hin.
Qed.

(** The scan scenario of the specification: one record, [a.mp3], 10
    bytes. *)
Lemma scan_scenario :
  _gather_file_stats "root" [".mp3"] false ["skip_me"]
                     (Directory scenario_tree)
  = [ {| File_Name := "a.mp3"; File_Type := ".mp3";
         File_Size_Bytes := 10; File_Size_Human := "10.00 B";
         Creation_Date := 0; Modification_Date := 0;
         Source_Folder := "root" |} ].
Proof. vm_compute. reflexivity. Qed.

End Classifier.

(** ** The root folder *)

Section RootFolder.
Import FileStatsCollector Reference Scenarios.

(** C8, as the code has it.  [__init__] raises [FileNotFoundError] exactly
    when the root does not exist, and it does so before any scan; when the
    root exists the check passes and the collector holds the scan of the
    root, whatever the root is. *)
Theorem root_folder_checked_first (root_folder : string)
    (media_extensions : list string) (all_files : bool)
    (skip_folders : list string) (node : fsnode) :
  ((exists e, init root_folder media_extensions all_files skip_folders node
              = Raise e) <->
   os_path_exists_node node = false)
  /\ (os_path_exists_node node = false ->
      init root_folder media_extensions all_files skip_folders node
      = Raise (FileNotFoundError
                 ("Folder '" +:+ root_folder +:+ "' doesn't exist.")))
  /\ (os_path_exists_node node = true ->
      exists c,
        init root_folder media_extensions all_files skip_folders node = Ok c
        /\ root_folder = FileStatsCollector.root_folder c
        /\ file_stats c
           = _gather_file_stats root_folder media_extensions all_files
                                skip_folders node).
Proof.
  unfold init, check_root_folder.
  destruct (os_path_exists_node node); repeat split; try done.
  - by intros [e He].
  - by eexists.
  - intros _. by eexists.
Qed.

Lemma root_folder_checked_first_witness :
  init "gone" [".mp3"] false [] Absent
  = Raise (FileNotFoundError "Folder 'gone' doesn't exist.")
  /\ exists c,
       init "root" [".mp3"] false ["skip_me"] (Directory scenario_tree) = Ok c
       /\ "root" = FileStatsCollector.root_folder c
       /\ file_stats c
          = _gather_file_stats "root" [".mp3"] false ["skip_me"]
                               (Directory scenario_tree).
Proof.
  split.
  - apply (proj1 (proj2 (root_folder_checked_first
                           "gone" [".mp3"] false [] Absent))).
    reflexivity.
  - apply (proj2 (proj2 (root_folder_checked_first
                           "root" [".mp3"] false ["skip_me"]
                           (Directory scenario_tree)))).
    reflexivity.
Defined.

(** C8 as stated fails: a root that exists and is not a directory passes
    the check; the collector is built, with an empty scan. *)
Lemma root_not_a_directory_is_accepted :
  os_path_isdir_node NotADirectory = false
  /\ init "root/file.txt" [".mp3"] false [] NotADirectory
     = Ok {| root_folder := "root/file.txt";
             media_extensions := [".mp3"];
             all_files := false;
             skip_folders := [];
             file_stats := [];
             file_types := [] |}
  /\ ~ (exists e, init "root/file.txt" [".mp3"] false [] NotADirectory
                  = Raise e).
Proof. repeat split. by intros [e He]. Qed.

End RootFolder.

(** ** The destination folder is skipped *)

Section DestinationSkipped.
Import FileStatsCollector Reference Scenarios.

Lemma media_gatherer_init_spec (root_folder : string)
    (destination_folder : option string)
    (skip_folders : option (list string)) (media_extensions : list string)
    (all_files : bool) (node : fsnode) (g : MediaGatherer.t) :
  MediaGatherer.init root_folder destination_folder skip_folders
                     media_extensions all_files node = Ok g ->
  MediaGatherer.dest_folder g
  = default (OsPath.join root_folder "media") destination_folder
  /\ FileStatsCollector.skip_folders (MediaGatherer.collector g)
     = default [] skip_folders ++ [MediaGatherer.dest_folder g]
  /\ forall r, r ∈ file_stats (MediaGatherer.collector g) ->
               ~ substring (MediaGatherer.dest_folder g) (Source_Folder r).
Proof.
  unfold MediaGatherer.init, init, check_root_folder.
  destruct (os_path_exists_node node); [| done].
  intros [= <-]. simpl. repeat split.
  intros r Hr.
  apply gather_file_stats_elem in Hr as (folder & es & e & _ & _ & Hsel & ->).
  unfold selected in Hsel. simpl in *.
  apply andb_true_iff in Hsel as [Hsel _].
  apply andb_true_iff in Hsel as [Hskip _].
  apply (proj1 (not_skipped_spec _ _) Hskip).
  apply elem_of_app. right. by left.
Qed.

(** C10.  A gatherer that is constructed has the destination folder, the
    one given or the default one under the root, as the last element of
    its skip list, and the scan made by the construction returns no record
    whose source folder contains the destination folder as a substring;
    for [MediaGatherer] and for [Gatherer]. *)
Theorem destination_folder_not_scanned (root_folder : string)
    (destination_folder : option string)
    (skip_folders : option (list string)) (all_files : bool)
    (node : fsnode) :
  (forall media_extensions g,
     MediaGatherer.init root_folder destination_folder skip_folders
                        media_extensions all_files node = Ok g ->
     MediaGatherer.dest_folder g
     = default (OsPath.join root_folder "media") destination_folder
     /\ FileStatsCollector.skip_folders (MediaGatherer.collector g)
        = default [] skip_folders ++ [MediaGatherer.dest_folder g]
     /\ forall r, r ∈ file_stats (MediaGatherer.collector g) ->
                  ~ substring (MediaGatherer.dest_folder g) (Source_Folder r))
  /\ (forall stdin extensions g,
        Gatherer.init stdin root_folder destination_folder extensions
                      skip_folders all_files node = Ok g ->
        MediaGatherer.dest_folder g
        = default (OsPath.join root_folder "Extracted Files")
                  destination_folder
        /\ FileStatsCollector.skip_folders (MediaGatherer.collector g)
           = default [] skip_folders ++ [MediaGatherer.dest_folder g]
        /\ forall r, r ∈ file_stats (MediaGatherer.collector g) ->
                     ~ substring (MediaGatherer.dest_folder g)
                                 (Source_Folder r)).
Proof.
  split.
  - intros media_extensions g. apply media_gatherer_init_spec.
  - intros stdin extensions g. unfold Gatherer.init.
    destruct (Gatherer.set_extensions stdin (default [] extensions));
      [| done].
    intros H. apply media_gatherer_init_spec in H. exact H.
Qed.

Lemma destination_folder_not_scanned_witness :
  (exists g,
     MediaGatherer.init "root" None None [".mp3"] false
                        (Directory media_tree) = Ok g
     /\ (MediaGatherer.dest_folder g = "root/media"
         /\ FileStatsCollector.skip_folders (MediaGatherer.collector g)
            = [] ++ [MediaGatherer.dest_folder g]
         /\ forall r, r ∈ file_stats (MediaGatherer.collector g) ->
                      ~ substring (MediaGatherer.dest_folder g)
                                  (Source_Folder r))
     /\ map File_Name (file_stats (MediaGatherer.collector g)) = ["a.mp3"])
  /\ (exists g,
        Gatherer.init [] "root" (Some "root/media") (Some [".mp3"]) None
                      false (Directory media_tree) = Ok g
        /\ (MediaGatherer.dest_folder g = "root/media"
            /\ FileStatsCollector.skip_folders (MediaGatherer.collector g)
               = [] ++ [MediaGatherer.dest_folder g]
            /\ forall r, r ∈ file_stats (MediaGatherer.collector g) ->
                         ~ substring (MediaGatherer.dest_folder g)
                                     (Source_Folder r))).
Proof.
  split.
  - eexists. split; [reflexivity |]. split; [| reflexivity].
    apply (proj1 (destination_folder_not_scanned
                    "root" None None false (Directory media_tree))
                 [".mp3"]).
    reflexivity.
  - eexists. split; [reflexivity |].
    apply (proj2 (destination_folder_not_scanned
                    "root" (Some "root/media") None false
                    (Directory media_tree))
                 [] (Some [".mp3"])).
    reflexivity.
Defined.

(** C10 as stated fails: with the destination folder written with a slash
    at its end, [root/media/], the file [b.mp3] that lies in that folder is
    scanned.  Its source folder is [root/media], as the walk writes it, of
    which [root/media/] is no substring. *)
Lemma destination_with_trailing_slash_is_scanned :
  exists g,
    MediaGatherer.init "root" (Some "root/media/") None [".mp3"] false
                       (Directory media_tree) = Ok g
    /\ MediaGatherer.dest_folder g = "root/media/"
    /\ map source_path (file_stats (MediaGatherer.collector g))
       = ["root/a.mp3"; "root/media/b.mp3"]
    /\ map Source_Folder (file_stats (MediaGatherer.collector g))
       = ["root"; "root/media"]
    /\ PyStr.startswith "root/media/b.mp3" (MediaGatherer.dest_folder g)
       = true
    /\ PyStr.contains (MediaGatherer.dest_folder g) "root/media" = false.
Proof. eexists. split_and!; vm_compute; reflexivity. Qed.

End DestinationSkipped.

(** ** The most occurring file type *)

Section Summary.
Import FileStatsCollector Reference Scenarios.

(** [max(best :: xs, key=key)] is an element with the largest key, and the
    first such element. *)
Lemma max_from_spec {A} (key : A -> nat) (best : A) (xs : list A) :
  (forall y, y ∈ best :: xs -> key y <= key (max_from key best xs))
  /\ exists pre post,
       best :: xs = pre ++ max_from key best xs :: post
       /\ forall y, y ∈ pre -> key y < key (max_from key best xs).
Proof.
  revert best. induction xs as [|x xs IH]; intros best; simpl.
  - split.
    + intros y Hy. apply list_elem_of_singleton in Hy as ->. lia.
    + exists [], []. split; [done |].
      intros y Hy. by apply elem_of_nil in Hy.
  - destruct (key best <? key x) eqn:E.
    + apply Nat.ltb_lt in E.
      destruct (IH x) as [Hmax (pre & post & Hdec & Hpre)]. split.
      * intros y Hy. apply elem_of_cons in Hy as [-> | Hy].
        -- assert (key x <= key (max_from key x xs))
             by (apply Hmax; by left).
           lia.
        -- by apply Hmax.
      * exists (best :: pre), post. split; [by rewrite Hdec |].
        intros y Hy. apply elem_of_cons in Hy as [-> | Hy].
        -- assert (key x <= key (max_from key x xs))
             by (apply Hmax; by left).
           lia.
        -- by apply Hpre.
    + apply Nat.ltb_ge in E.
      destruct (IH best) as [Hmax (pre & post & Hdec & Hpre)]. split.
      * intros y Hy. apply elem_of_cons in Hy as [-> | Hy].
        -- apply Hmax. by left.
        -- apply elem_of_cons in Hy as [-> | Hy].
           ++ assert (key best <= key (max_from key best xs))
                by (apply Hmax; by left).
              lia.
           ++ apply Hmax. by right.
      * destruct pre as [|b pre].
        -- simpl in Hdec. injection Hdec as Hb Hxs.
           exists [], (x :: xs). split; [simpl; congruence |].
           intros y Hy. by apply elem_of_nil in Hy.
        -- simpl in Hdec. injection Hdec as <- Hxs.
           exists (best :: x :: pre), post. split; [simpl; congruence |].
           assert (key best < key (max_from key best xs))
             by (apply Hpre; by left).
           intros y Hy. apply elem_of_cons in Hy as [-> | Hy]; [done |].
           apply elem_of_cons in Hy as [-> | Hy]; [lia |].
           apply Hpre. by right.
Qed.

Lemma count_not_elem (l : list string) (x : string) :
  x ∉ l -> count l x = 0.
Proof.
  unfold count. induction l as [|y l IH]; [done |].
  intros H. apply not_elem_of_cons in H as [Hne Hl].
  rewrite filter_cons, decide_False by done. by apply IH.
Qed.

(** C7, as the code has it.  For a non-empty sequence of records the
    summary exists, and its most occurring file type is a file type of the
    sequence with the largest count; among the file types with that count
    it is the first one in the order in which Python iterates over
    [set(file_types)]. *)
Theorem most_occurring_file_type_spec (file_stats : list FileStat)
    (order : list string) :
  file_stats ≠ [] ->
  set_iteration order (map File_Type file_stats) ->
  let file_types := map File_Type file_stats in
  exists s ext,
    get_summary_stats file_stats order = Some s
    /\ most_occurring_file_type s = Some ext
    /\ ext ∈ file_types
    /\ (forall x, count file_types x <= count file_types ext)
    /\ exists pre post,
         order = pre ++ ext :: post
         /\ forall y, y ∈ pre -> count file_types y < count file_types ext.
Proof.
  intros Hne [Hnd Hset]. cbv zeta.
  unfold get_summary_stats.
  destruct file_stats as [|r rs]; [done |].
  rewrite decide_False by done.
  destruct order as [|o order].
  { exfalso. apply (elem_of_nil (File_Type r)), Hset. by left. }
  simpl py_max.
  set (file_types := map File_Type (r :: rs)).
  set (ext := max_from (count file_types) o order).
  destruct (max_from_spec (count file_types) o order)
    as [Hmax (pre & post & Hdec & Hpre)].
  fold ext in Hmax, Hdec, Hpre.
  eexists. exists ext. split; [reflexivity |]. simpl.
  assert (Hin : ext ∈ o :: order).
  { rewrite Hdec. apply elem_of_app. right. by left. }
  repeat split.
  - by apply Hset.
  - intros x. destruct (decide (x ∈ file_types)) as [Hx | Hx].
    + apply Hmax. by apply Hset.
    + rewrite (count_not_elem _ _ Hx). lia.
  - by exists pre, post.
Qed.

Lemma most_occurring_file_type_spec_witness :
  exists s ext,
    get_summary_stats two_types [".b"; ".a"] = Some s
    /\ most_occurring_file_type s = Some ext
    /\ ext ∈ map File_Type two_types
    /\ (forall x, count (map File_Type two_types) x
                  <= count (map File_Type two_types) ext)
    /\ exists pre post,
         [".b"; ".a"] = pre ++ ext :: post
         /\ forall y, y ∈ pre ->
                      count (map File_Type two_types) y
                      < count (map File_Type two_types) ext.
Proof.
  apply (most_occurring_file_type_spec two_types [".b"; ".a"]).
  - discriminate.
  - split.
    + apply (bool_decide_unpack _). vm_compute. exact I.
    + intros x. simpl. rewrite !elem_of_cons, !elem_of_nil. tauto.
Defined.

(** C7 as stated fails: [set(file_types)] may be iterated with [.b]
    before [.a]; both types occur once, the code then answers [.b], and
    the first type met in the input, the answer of the specification, is
    [.a]. *)
Lemma tie_not_broken_by_input_order :
  set_iteration [".b"; ".a"] (map File_Type two_types)
  /\ most_occurring_file_type
       <$> get_summary_stats two_types [".b"; ".a"] = Some (Some ".b")
  /\ spec_most_common_extension (map File_Type two_types) = Some ".a"
  /\ most_occurring_file_type <$> get_summary_stats two_types [".b"; ".a"]
     <> Some (spec_most_common_extension (map File_Type two_types)).
Proof.
  split_and!.
  - split.
    + apply (bool_decide_unpack _). vm_compute. exact I.
    + intros x. simpl. rewrite !elem_of_cons, !elem_of_nil. tauto.
  - reflexivity.
  - reflexivity.
  - vm_compute. discriminate.
Qed.

End Summary.

(** ** Moving: failures *)

Section MoveFailures.
Import FileStatsCollector MediaGatherer Reference Scenarios.



(** [sleep] returns for a delay that is not negative and that the
    operating system takes, and raises for a negative one. *)
Lemma time_sleep_ok (delay : Q) (w : world) :
  (0 <= delay)%Q ->
  (forall fs', os_refuses w fs' (Sleeping delay) = None) ->
  time_sleep delay w = Ok (emit (Sleep delay) w).
Proof.
  intros H Hos. unfold time_sleep.
  by rewrite (proj2 (Qle_bool_iff 0 delay) H), Hos.
Qed.

Lemma time_sleep_negative (delay : Q) (w : world) :
  (delay < 0)%Q ->
  time_sleep delay w = Raise (ValueError "sleep length must be non-negative").
Proof.
  intros H. unfold time_sleep.
  destruct (Qle_bool 0 delay) eqn:E; [| done].
  apply Qle_bool_iff in E. by apply Qlt_not_le in H.
Qed.

(** Whether it raises or not, a move removes no path but its source, prints
    nothing and leaves the operating system as it is; a move that raises
    removes no path at all. *)
Lemma shutil_move_leaves (w w' : world) (src dst : string) (o : option exn) :
  shutil_move w src dst = (w', o) ->
  trace w' = trace w
  /\ os_refuses w' = os_refuses w
  /\ (forall p, p ∈ fs w -> p ≠ src \/ is_Some o -> p ∈ fs w').
Proof.
  unfold shutil_move. intros H.
  destruct (os_path_exists _ _); [| by injection H as <- <-].
  destruct (os_refuses _ _ _) as [r |]; injection H as <- <-; simpl;
    (split_and!; [done | done |]); intros p Hp Hsrc.
  - apply elem_of_union. by right.
  - apply elem_of_union. right. apply elem_of_difference.
    split; [done |]. rewrite elem_of_singleton.
    by destruct Hsrc as [? | [? ?]].
Qed.


(** The loop leaves alone what is not the source path of one of its
    records: the entry of the mapping under that key, and the file at that
    path.  It leaves the operating system as it is. *)
Lemma move_loop_leaves (destination_folder : string) (files : list FileStat)
    (self self' : t) (w w' : world) (o : option exn) :
  move_loop destination_folder files self w = (self', w', o) ->
  os_refuses w' = os_refuses w
  /\ forall p, p ∉ source_path <$> files ->
       moved_files self' !! p = moved_files self !! p
       /\ (p ∈ fs w -> p ∈ fs w').
Proof.
  revert self w. induction files as [|f files IH]; intros self w H.
  - simpl in H. by injection H as <- <- _.
  - simpl in H. destruct (decide _).
    + destruct (IH _ _ H) as [Hos Hrest]. split; [done |].
      intros p [_ Hp]%not_elem_of_cons. by apply Hrest.
    + destruct (handle_file_conflict _ _) as [d|];
        [| by injection H as <- <- _].
      destruct (shutil_move _ _ _) as [w2 o2] eqn:Hmove.
      apply shutil_move_leaves in Hmove as (_ & Hos2 & Hfs2).
      destruct o2 as [e |].
      * injection H as <- <- _. split; [done |].
        intros p _. split; [done |]. intros Hp. apply Hfs2; [done |].
        by right.
      * destruct (IH _ _ H) as [Hos Hrest]. split; [by rewrite Hos |].
        intros p [Hpf Hp]%not_elem_of_cons. unfold source_path in Hpf.
        destruct (Hrest p Hp) as [Hm Hfs]. simpl in Hm.
        rewrite lookup_insert_ne in Hm by congruence.
        split; [done |]. intros Hin. apply Hfs. simpl.
        apply Hfs2; [done |]. by left.
Qed.

(** Creating the destination folder, whether it raises or not, adds no
    entry, removes no path, prints nothing and leaves the operating system
    as it is. *)
Lemma create_media_folder_leaves (destination_folder : string)
    (self self' : t) (w w' : world) (o : option exn) :
  create_media_folder destination_folder self w = (self', w', o) ->
  moved_files self' = moved_files self
  /\ collector self' = collector self
  /\ trace w' = trace w
  /\ os_refuses w' = os_refuses w
  /\ fs w ⊆ fs w'.
Proof.
  unfold create_media_folder, os_makedirs. intros H.
  destruct (os_path_exists _ _); [by injection H as <- <- _ |].
  destruct (decide _); [by injection H as <- <- _ |].
  destruct (os_refuses _ _ _); injection H as <- <- _; simpl;
    (split_and!; try done); intros p Hp; apply elem_of_union; by right.
Qed.

(** A call of [move_files_to_destination] leaves the operating system as
    it is. *)
Lemma move_files_to_destination_os (files_to_move : list FileStat)
    (destination_folder : string) (self : t) (w : world) :
  os_refuses (snd (fst (move_files_to_destination
                          files_to_move destination_folder self w)))
  = os_refuses w.
Proof.
  unfold move_files_to_destination.
  destruct (create_media_folder destination_folder self w)
    as [[self0 w0] o] eqn:Hcreate.
  apply create_media_folder_leaves in Hcreate as (_ & _ & _ & Hos & _).
  destruct o as [e |]; [done |].
  destruct files_to_move as [|f files]; [done |].
  destruct (move_loop destination_folder (f :: files) self0 w0)
    as [[self1 w1] o] eqn:Hloop.
  apply move_loop_leaves in Hloop as [Hos1 _].
  destruct o; simpl; by rewrite Hos1.
Qed.



(** A move that the operating system refuses: the exception is printed,
    nothing is recorded, the copy that was left behind exists, and the
    record after it is not moved. *)
Lemma refused_move_ends_its_batch_too :
  let r := move_files_to_destination [here; later] "dest"
                                     start_gatherer locked_world in
  moved_files (fst (fst r)) = ∅
  /\ fs (snd (fst r))
     = {["dest"; "dest/here.jpg"; "src/here.jpg"; "src/later.jpg"]}
  /\ trace (snd (fst r))
     = [PrintErrorMoving (OSError "[Errno 13] Permission denied")].
Proof. cbv zeta. split_and!; vm_compute; reflexivity. Qed.


End MoveFailures.

(** ** Moving: batches and pauses *)

Section Batches.
Import FileStatsCollector MediaGatherer Reference Scenarios.

Lemma sleep_events_app (a b : list event) :
  sleep_events (a ++ b) = sleep_events a ++ sleep_events b.
Proof. unfold sleep_events. by rewrite filter_app. Qed.

Lemma sleep_events_cons (e : event) (l : list event) :
  sleep_events (e :: l) = (if is_sleep e then [e] else []) ++ sleep_events l.
Proof. unfold sleep_events. rewrite filter_cons. by destruct e. Qed.

Lemma sleep_events_nil : sleep_events [] = [].
Proof. done. Qed.

Lemma sleeps_app (a b : list event) : sleeps (a ++ b) = sleeps a + sleeps b.
Proof. unfold sleeps. by rewrite sleep_events_app, length_app. Qed.

Lemma sleeps_cons (e : event) (l : list event) :
  sleeps (e :: l) = (if is_sleep e then 1 else 0) + sleeps l.
Proof.
  unfold sleeps. rewrite sleep_events_cons, length_app. by destruct e.
Qed.

Lemma sleeps_nil : sleeps [] = 0.
Proof. done. Qed.

Local Arguments sleeps : simpl never.
Local Arguments sleep_events : simpl never.

(** Counts the sleeps of an extended trace. *)
Local Ltac count_sleeps :=
  simpl; rewrite ?sleeps_app, ?sleeps_cons, ?sleeps_nil; simpl; try lia.

(** The sleeps of an extended trace. *)
Local Ltac list_sleeps :=
  simpl;
  rewrite ?sleep_events_app, ?sleep_events_cons, ?sleep_events_nil; simpl;
  rewrite ?app_nil_r; try done.

(** Moving files does not sleep. *)
Lemma move_loop_sleep_events (destination_folder : string)
    (files : list FileStat) (self : t) (w : world) :
  sleep_events (trace (snd (fst (move_loop destination_folder files self w))))
  = sleep_events (trace w).
Proof.
  revert self w. induction files as [|f files IH]; intros self w; simpl.
  - done.
  - destruct (decide _); [apply IH |].
    destruct (handle_file_conflict _ _); [| done].
    destruct (shutil_move _ _ _) as [w1 o] eqn:Hmove.
    apply shutil_move_leaves in Hmove as (Htrace & _ & _).
    destruct o as [e |]; simpl; [by rewrite Htrace |].
    rewrite IH. list_sleeps. by rewrite Htrace.
Qed.

Lemma move_files_to_destination_sleep_events (files_to_move : list FileStat)
    (destination_folder : string) (self : t) (w : world) :
  sleep_events (trace (snd (fst (move_files_to_destination
                                   files_to_move destination_folder self w))))
  = sleep_events (trace w).
Proof.
  unfold move_files_to_destination.
  destruct (create_media_folder destination_folder self w)
    as [[self0 w0] o] eqn:Hcreate.
  apply create_media_folder_leaves in Hcreate as (_ & _ & Htrace & _).
  rewrite <- Htrace. destruct o as [e |]; [list_sleeps |].
  destruct files_to_move as [|f files].
  - list_sleeps.
  - pose proof (move_loop_sleep_events destination_folder (f :: files)
                  self0 w0) as Hl.
    destruct (move_loop destination_folder (f :: files) self0 w0)
      as [[self1 w1] [e|]]; simpl in *; rewrite <- Hl; list_sleeps.
Qed.

Lemma move_files_to_destination_sleeps (files_to_move : list FileStat)
    (destination_folder : string) (self : t) (w : world) :
  sleeps (trace (snd (fst (move_files_to_destination
                             files_to_move destination_folder self w))))
  = sleeps (trace w).
Proof.
  unfold sleeps. by rewrite move_files_to_destination_sleep_events.
Qed.

(** With a delay that is not negative and that the operating system takes,
    the batch loop is not left by an exception, and it sleeps for that
    delay once per index, after the batch of that index, the last one
    included. *)
Lemma batch_loop_sleep_events (indices : list Z)
    (files_to_move : list FileStat) (destination_folder : string)
    (batch_size : Z) (delay : Q) (self : t) (w : world) :
  (0 <= delay)%Q ->
  (forall fs', os_refuses w fs' (Sleeping delay) = None) ->
  let r := batch_loop indices files_to_move destination_folder batch_size
                      delay self w in
  snd r = None
  /\ sleep_events (trace (snd (fst r)))
     = sleep_events (trace w) ++ replicate (length indices) (Sleep delay)
  /\ (indices <> [] -> last (trace (snd (fst r))) = Some (Sleep delay)).
Proof.
  intros Hdelay. cbv zeta. revert self w.
  induction indices as [|i indices IH]; intros self w Hos; simpl.
  - by rewrite app_nil_r.
  - pose proof (move_files_to_destination_sleep_events
                  (slice files_to_move i batch_size) destination_folder
                  self w) as Hm.
    pose proof (move_files_to_destination_os
                  (slice files_to_move i batch_size) destination_folder
                  self w) as Hos1.
    destruct (move_files_to_destination _ _ _ _) as [[self1 w1] r].
    simpl in Hm, Hos1.
    rewrite time_sleep_ok; [| done | intros ?; simpl; by rewrite Hos1].
    destruct (IH self1
                (emit (Sleep delay)
                   (emit (PrintMovedBatch
                            (i / batch_size + 1)
                            (Z.of_nat (length files_to_move) / batch_size + 1))
                      w1))) as (Hnone & Hsleeps & Hlast);
      [intros ?; simpl; by rewrite Hos1 |].
    split_and!; [done | |].
    + rewrite Hsleeps. list_sleeps. rewrite Hm.
      by rewrite <- !app_assoc.
    + intros _. destruct indices as [|i' indices]; [| by apply Hlast].
      simpl. by rewrite !last_snoc.
Qed.

(** With a negative delay the batch loop is left by the exception of the
    first [sleep]; it does not sleep. *)
Lemma batch_loop_negative_delay (i : Z) (indices : list Z)
    (files_to_move : list FileStat) (destination_folder : string)
    (batch_size : Z) (delay : Q) (self : t) (w : world) :
  (delay < 0)%Q ->
  batch_loop (i :: indices) files_to_move destination_folder batch_size
             delay self w
  = (let '(self1, w1, _) :=
       move_files_to_destination (slice files_to_move i batch_size)
                                 destination_folder self w in
     (self1,
      emit (PrintMovedBatch
              (i / batch_size + 1)
              (Z.of_nat (length files_to_move) / batch_size + 1)) w1,
      Some (ValueError "sleep length must be non-negative"))).
Proof.
  intros Hdelay. simpl.
  destruct (move_files_to_destination _ _ _ _) as [[self1 w1] r].
  by rewrite time_sleep_negative.
Qed.








(** The run that does not sleep after the final batch is another run: on
    one batch it does not sleep at all. *)
Lemma paced_run_without_last_pause :
  sleeps (trace (snd (paced_run false (chunks 1 1 [here]) 1 2 "dest" (1 # 10)
                                start_gatherer start_world))) = 0
  /\ sleeps (trace (snd (_batch_move_files [here] "dest" 1 (1 # 10)
                                           start_gatherer start_world))) = 1.
Proof. split; vm_compute; reflexivity. Qed.

(** With at most 100 scanned records [gather_media] moves the files in one
    call and does not sleep. *)
Lemma gather_media_unbatched (destination_folder : option string)
    (move_all : bool) (batch_size : Z) (time_delay : Q)
    (self : t) (w : world) :
  length (file_stats (collector self)) <= 100 ->
  sleeps (trace (snd (gather_media destination_folder move_all batch_size
                                   time_delay self w)))
  = sleeps (trace w).
Proof.
  intros Hlen. unfold gather_media.
  rewrite decide_False by lia.
  set (files := get_files_to_move self _).
  set (dest := default (dest_folder self) destination_folder).
  pose proof (move_files_to_destination_sleeps files dest self w) as Hm.
  destruct (move_files_to_destination files dest self w) as [[self1 w1] r].
  simpl in *. unfold show_moved_stats. count_sleeps.
Qed.


End Batches.

(** ** More on the scan *)

Section ScanEdges.
Import FileStatsCollector Reference Scenarios.

Lemma contains_empty (hay : string) : PyStr.contains "" hay = true.
Proof. by destruct hay. Qed.

Lemma filter_none {A} (P : A -> Prop) `{!forall x, Decision (P x)}
    (l : list A) :
  (forall x, x ∈ l -> ~ P x) -> filter P l = [].
Proof.
  induction l as [|x l IH]; intros Hall; [done |].
  rewrite filter_cons, decide_False by (apply Hall; by left).
  apply IH. intros y Hy. apply Hall. by right.
Qed.

Lemma filter_all {A} (P : A -> Prop) `{!forall x, Decision (P x)}
    (l : list A) :
  (forall x, x ∈ l -> P x) -> filter P l = l.
Proof.
  induction l as [|x l IH]; intros Hall; [done |].
  rewrite filter_cons, decide_True by (apply Hall; by left).
  f_equal. apply IH. intros y Hy. apply Hall. by right.
Qed.

Lemma filter_weaken_sublist {A} (P Q : A -> Prop)
    `{!forall x, Decision (P x)} `{!forall x, Decision (Q x)} (l : list A) :
  (forall x, P x -> Q x) -> filter P l `sublist_of` filter Q l.
Proof.
  intros HPQ. induction l as [|x l IH]; [done |].
  rewrite !filter_cons.
  destruct (decide (P x)) as [HP | HP].
  - rewrite decide_True by auto. by apply sublist_skip.
  - destruct (decide (Q x)); [by apply sublist_cons | done].
Qed.

Lemma map_sublist {A B} (f : A -> B) (l k : list A) :
  l `sublist_of` k -> map f l `sublist_of` map f k.
Proof.
  induction 1 as [| x l k _ IH | x l k _ IH]; simpl.
  - done.
  - by apply sublist_skip.
  - by apply sublist_cons.
Qed.

(** X1.  A skip list that holds the empty string skips every folder: the scan
    returns nothing.  So does a gatherer whose destination folder is given
    as the empty string, since that folder goes to the skip list. *)
Theorem empty_skip_entry_empties_the_scan (root_folder : string)
    (media_extensions : list string) (all_files : bool) (node : fsnode) :
  (forall skip_folders,
     "" ∈ skip_folders ->
     _gather_file_stats root_folder media_extensions all_files skip_folders
                        node = [])
  /\ (forall skip_folders g,
        MediaGatherer.init root_folder (Some "") skip_folders
                           media_extensions all_files node = Ok g ->
        file_stats (MediaGatherer.collector g) = [])
  /\ (forall stdin extensions skip_folders g,
        Gatherer.init stdin root_folder (Some "") extensions skip_folders
                      all_files node = Ok g ->
        file_stats (MediaGatherer.collector g) = []).
Proof.
  assert (Hscan : forall exts skip_folders,
            "" ∈ skip_folders ->
            _gather_file_stats root_folder exts all_files skip_folders node
            = []).
  { intros exts skip_folders Hin. rewrite gather_file_stats_spec.
    rewrite filter_none; [done |].
    intros [folder e] _. unfold selected. simpl.
    assert (not_skipped skip_folders folder = false) as ->; [| done].
    destruct (not_skipped skip_folders folder) eqn:E; [| done].
    exfalso. apply (proj1 (not_skipped_spec _ _) E "" Hin).
    apply contains_spec, contains_empty. }
  assert (Hinit : forall exts skip_folders g,
            MediaGatherer.init root_folder (Some "") skip_folders exts
                               all_files node = Ok g ->
            file_stats (MediaGatherer.collector g) = []).
  { intros exts skip_folders g.
    unfold MediaGatherer.init, init, check_root_folder.
    destruct (os_path_exists_node node); [| done].
    intros [= <-]. simpl. apply Hscan.
    apply elem_of_app. right. by left. }
  split_and!.
  - apply Hscan.
  - apply Hinit.
  - intros stdin extensions skip_folders g. unfold Gatherer.init.
    destruct (Gatherer.set_extensions _ _); [| done]. simpl. apply Hinit.
Qed.

Lemma empty_skip_entry_empties_the_scan_witness :
  _gather_file_stats "root" [".mp3"] true [""] (Directory scenario_tree) = []
  /\ (exists g,
        MediaGatherer.init "root" (Some "") None [".mp3"] true
                           (Directory scenario_tree) = Ok g
        /\ file_stats (MediaGatherer.collector g) = [])
  /\ (exists g,
        Gatherer.init [] "root" (Some "") (Some [".mp3"]) None true
                      (Directory scenario_tree) = Ok g
        /\ file_stats (MediaGatherer.collector g) = []).
Proof.
  pose proof (empty_skip_entry_empties_the_scan
                "root" [".mp3"] true (Directory scenario_tree))
    as (H1 & H2 & H3).
  split_and!.
  - apply H1. apply (proj1 (bool_decide_eq_true _)). reflexivity.
  - eexists. split; [reflexivity |]. apply (H2 None). reflexivity.
  - eexists. split; [reflexivity |].
    apply (H3 [] (Some [".mp3"]) None). reflexivity.
Defined.

(** X2.  The scan only shrinks when files are restricted to the extension list
    or when folders are added to the skip list: in both cases the records
    returned form a sub-sequence, in the same order, of the records
    returned before. *)
Theorem scan_shrinks (root_folder : string)
    (media_extensions skip_folders more_skip_folders : list string)
    (all_files : bool) (node : fsnode) :
  _gather_file_stats root_folder media_extensions false skip_folders node
    `sublist_of`
  _gather_file_stats root_folder media_extensions true skip_folders node
  /\
  _gather_file_stats root_folder media_extensions all_files
                     (skip_folders ++ more_skip_folders) node
    `sublist_of`
  _gather_file_stats root_folder media_extensions all_files skip_folders node.
Proof.
  rewrite !gather_file_stats_spec. split; apply map_sublist,
    filter_weaken_sublist; intros [folder e]; unfold selected; simpl.
  - by destruct (not_skipped skip_folders folder), (is_file e),
      (is_media_file media_extensions (name e)).
  - rewrite !andb_true_iff. intros [[Hs ?] ?]. repeat split; [| done | done].
    apply not_skipped_spec. intros s Hin.
    apply (proj1 (not_skipped_spec _ _) Hs). apply elem_of_app. by left.
Qed.

(** X3.  A gatherer that was constructed moves every record of its scan:
    [get_files_to_move], called as [gather_media] calls it, filters nothing
    out, whatever [move_all] is. *)
Theorem gatherer_moves_all_it_scanned (root_folder : string)
    (destination_folder : option string)
    (skip_folders : option (list string)) (media_extensions : list string)
    (all_files move_all : bool) (node : fsnode) (g : MediaGatherer.t) :
  MediaGatherer.init root_folder destination_folder skip_folders
                     media_extensions all_files node = Ok g ->
  MediaGatherer.get_files_to_move
    g (if FileStatsCollector.all_files (MediaGatherer.collector g)
       then true else move_all)
  = file_stats (MediaGatherer.collector g).
Proof.
  unfold MediaGatherer.init, init.
  destruct (check_root_folder root_folder node); [| done].
  intros [= <-]. unfold MediaGatherer.get_files_to_move. simpl.
  apply filter_all. intros r Hr.
  apply gather_file_stats_elem in Hr as (folder & es & e & _ & _ & Hsel & ->).
  unfold selected in Hsel. simpl in *.
  apply andb_true_iff in Hsel as [_ Hsel].
  destruct all_files; simpl in *; [done |].
  destruct move_all; simpl; [done | exact Hsel].
Qed.

Lemma gatherer_moves_all_it_scanned_witness :
  exists g,
    MediaGatherer.init "root" None None [".mp3"] false
                       (Directory media_tree) = Ok g
    /\ MediaGatherer.get_files_to_move
         g (if FileStatsCollector.all_files (MediaGatherer.collector g)
            then true else false)
       = file_stats (MediaGatherer.collector g).
Proof.
  eexists. split; [reflexivity |].
  apply (gatherer_moves_all_it_scanned
           "root" None None [".mp3"] false false (Directory media_tree)).
  reflexivity.
Defined.

End ScanEdges.

(** ** The fields of a record *)

Section RecordFields.
Import FileStatsCollector Reference Scenarios.

Lemma absent_cons (c a : ascii) (s : string) :
  absent c (String a s) <-> a ≠ c /\ absent c s.
Proof.
  unfold absent. simpl. rewrite andb_true_iff, negb_true_iff.
  by rewrite bool_decide_eq_false.
Qed.

Lemma absent_drop (c : ascii) (n : nat) (s : string) :
  absent c s -> absent c (PyStr.drop n s).
Proof.
  revert s. induction n as [|n IH]; intros [|a s]; simpl; try done.
  intros [_ H]%absent_cons. by apply IH.
Qed.

Lemma lower_char_idem (c : ascii) :
  PyStr.lower_char (PyStr.lower_char c) = PyStr.lower_char c.
Proof. by destruct c as [[] [] [] [] [] [] [] []]. Qed.

Lemma lower_idem (s : string) : PyStr.lower (PyStr.lower s) = PyStr.lower s.
Proof.
  induction s as [|c s IH]; simpl; [done |]. by rewrite lower_char_idem, IH.
Qed.

Lemma lower_app (a b : string) :
  PyStr.lower (a +:+ b) = PyStr.lower a +:+ PyStr.lower b.
Proof.
  induction a as [|c a IH]; [done |].
  rewrite app_cons_str. simpl. by rewrite IH, app_cons_str.
Qed.



(** [rfind]: either the character does not occur, or the index returned
    holds it and it does not occur after that index. *)
Lemma rfind_from_spec (i : Z) (c : ascii) (s : string) :
  (0 <= i)%Z ->
  (PyStr.rfind_from i c s = (-1)%Z /\ absent c s)
  \/ ((i <= PyStr.rfind_from i c s)%Z
      /\ exists rest,
           PyStr.drop (Z.to_nat (PyStr.rfind_from i c s - i)) s
           = String c rest
           /\ absent c rest).
Proof.
  revert i. induction s as [|a s IH]; intros i Hi; simpl.
  - by left.
  - destruct (IH (i + 1)%Z ltac:(lia)) as [[Hr Habs] | (Hr & rest & Hd & Habs)].
    + rewrite Hr. simpl. destruct (decide (a = c)) as [-> | Hne].
      * right. split; [lia |]. exists s.
        by rewrite Z.sub_diag.
      * left. split; [done |]. by apply absent_cons.
    + rewrite (proj2 (Z.leb_le _ _)) by lia.
      right. split; [lia |]. exists rest. split; [| done].
      replace (Z.to_nat (PyStr.rfind_from (i + 1) c s - i))
        with (S (Z.to_nat (PyStr.rfind_from (i + 1) c s - (i + 1))))
        by lia.
      exact Hd.
Qed.

Lemma drop_drop_str (n m : nat) (s : string) :
  PyStr.drop n (PyStr.drop m s) = PyStr.drop (m + n) s.
Proof.
  revert s. induction m as [|m IH]; intros [|a s]; simpl; try done.
  by destruct n.
Qed.

(** The two parts [os.path.splitext] returns make up the path. *)
Lemma splitext_app (p : string) :
  fst (OsPath.splitext p) +:+ snd (OsPath.splitext p) = p.
Proof.
  unfold OsPath.splitext.
  destruct (_ <? _)%Z; simpl; [| apply app_nil_r_str].
  destruct (OsPath.skip_leading_dots _ _ _); simpl.
  - apply take_drop_str.
  - apply app_nil_r_str.
Qed.

(** The extension is empty, or it is a dot followed by characters among
    which there is neither a dot nor a slash. *)
Lemma splitext_extension (p : string) :
  snd (OsPath.splitext p) = ""
  \/ exists x, snd (OsPath.splitext p) = String "." x
               /\ absent "." x /\ absent "/" x.
Proof.
  unfold OsPath.splitext.
  destruct (_ <? _)%Z eqn:Hlt; simpl; [| by left].
  destruct (OsPath.skip_leading_dots _ _ _); simpl; [| by left].
  apply Z.ltb_lt in Hlt. right.
  unfold PyStr.rfind in *.
  destruct (rfind_from_spec 0 OsPath.extsep p ltac:(lia))
    as [[Hr _] | (Hr & x & Hd & Hdot)].
  { destruct (rfind_from_spec 0 OsPath.sep p ltac:(lia))
      as [[Hs _] | (Hs & _)]; lia. }
  rewrite Z.sub_0_r in Hd. exists x. split; [exact Hd |]. split; [done |].
  destruct (rfind_from_spec 0 OsPath.sep p ltac:(lia))
    as [[Hs Habs] | (Hs & y & Hds & Hsep)].
  - apply (absent_drop _ (Z.to_nat (PyStr.rfind_from 0 OsPath.extsep p)))
      in Habs.
    rewrite Hd in Habs. by apply absent_cons in Habs as [_ ?].
  - rewrite Z.sub_0_r in Hds.
    set (si := PyStr.rfind_from 0 OsPath.sep p) in *.
    set (di := PyStr.rfind_from 0 OsPath.extsep p) in *.
    assert (Hx : PyStr.drop (Z.to_nat di - Z.to_nat si - 1) y = String "." x).
    { assert (PyStr.drop (Z.to_nat di - Z.to_nat si)
                         (PyStr.drop (Z.to_nat si) p)
              = String "." x) as Hdd.
      { rewrite drop_drop_str.
        replace (Z.to_nat si + (Z.to_nat di - Z.to_nat si))
          with (Z.to_nat di) by lia.
        exact Hd. }
      rewrite Hds in Hdd.
      replace (Z.to_nat di - Z.to_nat si) with
        (S (Z.to_nat di - Z.to_nat si - 1)) in Hdd by lia.
      exact Hdd. }
    apply (absent_drop _ (Z.to_nat di - Z.to_nat si - 1)) in Hsep.
    rewrite Hx in Hsep. by apply absent_cons in Hsep as [_ ?].
Qed.



End RecordFields.

(** ** Counters and distributions *)

Section Distributions.
Import FileStatsCollector Reference Scenarios.

(** The sum of a dictionary after one of its values is replaced, and after
    a new key is added. *)
Lemma sum_values_insert (m : gmap string Z) (k : string) (v : Z) :
  sum_values (<[k := v]> m) = (sum_values m - default 0 (m !! k) + v)%Z.
Proof.
  assert (Hins : forall (m' : gmap string Z) x, m' !! k = None ->
            sum_values (<[k := x]> m') = (x + sum_values m')%Z).
  { intros m' x Hk. unfold sum_values.
    apply (map_fold_insert_L (fun _ v acc => (v + acc)%Z)); [| done].
    intros. lia. }
  destruct (m !! k) as [old |] eqn:Hk; simpl.
  - rewrite <- (insert_delete_eq m k v).
    rewrite <- (insert_delete_id m k old Hk) at 2.
    rewrite !Hins by apply lookup_delete_eq. lia.
  - rewrite Hins by done. lia.
Qed.

Lemma sum_counts_insert (m : gmap string nat) (k : string) (v : nat) :
  sum_counts (<[k := v]> m) + default 0 (m !! k) = sum_counts m + v.
Proof.
  assert (Hins : forall (m' : gmap string nat) x, m' !! k = None ->
            sum_counts (<[k := x]> m') = x + sum_counts m').
  { intros m' x Hk. unfold sum_counts.
    apply (map_fold_insert_L (fun _ v acc => v + acc)); [| done].
    intros. lia. }
  destruct (m !! k) as [old |] eqn:Hk; simpl.
  - rewrite <- (insert_delete_eq m k v).
    rewrite <- (insert_delete_id m k old Hk) at 2.
    rewrite !Hins by apply lookup_delete_eq. lia.
  - rewrite Hins by done. lia.
Qed.

(** The counting loop of [Counter], from any dictionary. *)
Lemma Counter_loop (xs : list string) (c : gmap string nat) :
  let c' :=
    fold_left (fun (c : gmap string nat) x =>
                 <[x := S (default 0 (c !! x))]> c) xs c in
  (forall x, default 0 (c' !! x) = default 0 (c !! x) + count xs x)
  /\ (forall x, is_Some (c' !! x) <-> is_Some (c !! x) \/ x ∈ xs)
  /\ sum_counts c' = sum_counts c + length xs.
Proof.
  cbv zeta. revert c. induction xs as [|y xs IH]; intros c; simpl.
  - split_and!.
    + intros x. unfold count. simpl. lia.
    + intros x. rewrite elem_of_nil. tauto.
    + lia.
  - destruct (IH (<[y := S (default 0 (c !! y))]> c)) as (Hc & Hk & Hs).
    split_and!.
    + intros x. rewrite Hc. unfold count. rewrite filter_cons.
      destruct (decide (y = x)) as [-> | Hne].
      * rewrite lookup_insert_eq. simpl. lia.
      * by rewrite lookup_insert_ne by done.
    + intros x. rewrite Hk, lookup_insert_is_Some', elem_of_cons.
      intuition congruence.
    + rewrite Hs.
      pose proof (sum_counts_insert c y (S (default 0 (c !! y)))). lia.
Qed.

(** [Counter(xs)[x]] is the number of times [x] occurs in [xs]; the keys
    are the elements of [xs]; the counts add up to the length of [xs]. *)
Lemma Counter_counts (xs : list string) :
  (forall x, Counter_getitem (Counter xs) x = count xs x)
  /\ (forall x, is_Some (Counter xs !! x) <-> x ∈ xs)
  /\ sum_counts (Counter xs) = length xs.
Proof.
  destruct (Counter_loop xs ∅) as (Hc & Hk & Hs). split_and!.
  - intros x. unfold Counter_getitem, Counter. by rewrite Hc.
  - intros x. unfold Counter. rewrite Hk, lookup_empty.
    split; [intros [[? ?] | ?]; done | by right].
  - unfold Counter. rewrite Hs. unfold sum_counts. by rewrite map_fold_empty.
Qed.

Lemma total_bytes_cons (stat : FileStat) (file_stats : list FileStat) :
  total_bytes (stat :: file_stats)
  = (File_Size_Bytes stat + total_bytes file_stats)%Z.
Proof. reflexivity. Qed.

(** The loop of [get_folder_size_distribution], from any dictionary. *)
Lemma folder_size_loop (file_stats : list FileStat) (m : gmap string Z) :
  let m' :=
    fold_left
      (fun (folder_sizes : gmap string Z) stat =>
         <[Source_Folder stat :=
             (default 0%Z (folder_sizes !! Source_Folder stat)
              + File_Size_Bytes stat)%Z]> folder_sizes)
      file_stats m in
  (forall folder,
     default 0%Z (m' !! folder)
     = (default 0 (m !! folder)
        + total_bytes (in_folder folder file_stats))%Z)
  /\ (forall folder,
        is_Some (m' !! folder)
        <-> is_Some (m !! folder) \/ folder ∈ map Source_Folder file_stats)
  /\ sum_values m' = (sum_values m + total_bytes file_stats)%Z.
Proof.
  cbv zeta. revert m. induction file_stats as [|r rs IH]; intros m; simpl.
  - split_and!.
    + intros folder. unfold in_folder, total_bytes. simpl. lia.
    + intros folder. rewrite elem_of_nil. tauto.
    + unfold total_bytes. simpl. lia.
  - match goal with |- context [fold_left _ rs ?m0] =>
      destruct (IH m0) as (Hc & Hk & Hs) end.
    split_and!.
    + intros folder. rewrite Hc. unfold in_folder. rewrite filter_cons.
      destruct (decide (Source_Folder r = folder)) as [<- | Hne].
      * rewrite lookup_insert_eq, total_bytes_cons. simpl. lia.
      * by rewrite lookup_insert_ne by done.
    + intros folder. rewrite Hk, lookup_insert_is_Some', elem_of_cons.
      intuition congruence.
    + rewrite Hs, sum_values_insert, total_bytes_cons. lia.
Qed.

(** X7.  [get_folder_size_distribution]: the folders of the dictionary are the
    source folders of the records, the value of a folder is the sum of the
    sizes of its records, and the values add up to the size of all the
    records. *)
Theorem folder_sizes_spec (file_stats : list FileStat) :
  let folder_sizes := get_folder_size_distribution file_stats in
  (forall folder,
     folder_sizes !! folder
     = if decide (folder ∈ map Source_Folder file_stats)
       then Some (total_bytes (in_folder folder file_stats))
       else None)
  /\ sum_values folder_sizes = total_bytes file_stats.
Proof.
  cbv zeta. destruct (folder_size_loop file_stats ∅) as (Hc & Hk & Hs).
  fold (get_folder_size_distribution file_stats) in Hc, Hk, Hs.
  split.
  - intros folder. specialize (Hc folder). specialize (Hk folder).
    rewrite lookup_empty in Hc, Hk. simpl in Hc.
    destruct (decide (folder ∈ map Source_Folder file_stats)) as [Hin | Hin].
    + destruct (proj2 Hk (or_intror Hin)) as [v Hv].
      rewrite Hv in Hc |- *. simpl in Hc. by rewrite Hc.
    + apply eq_None_not_Some. intros H. apply Hk in H as [[? ?] | ?]; done.
  - rewrite Hs. unfold sum_values. by rewrite map_fold_empty.
Qed.

(** X6.  The file types and the folders of a collector: [get_file_typedist]
    gives each file type the number of the records of that type, and
    [get_folders_info] gives each folder the number of its records. *)
Theorem typedist_and_folders_info (root_folder : string)
    (media_extensions skip_folders : list string) (all_files : bool)
    (node : fsnode) (c : t) :
  init root_folder media_extensions all_files skip_folders node = Ok c ->
  (forall ext,
     Counter_getitem (get_file_typedist c) ext
     = length (filter (fun stat => File_Type stat = ext) (file_stats c)))
  /\ (forall folder,
        Counter_getitem (get_folders_info c) folder
        = length (in_folder folder (file_stats c)))
  /\ sum_counts (get_file_typedist c) = length (file_stats c)
  /\ sum_counts (get_folders_info c) = length (file_stats c).
Proof.
  assert (Hcount : forall (f : FileStat -> string) l x,
            count (map f l) x = length (filter (fun stat => f stat = x) l)).
  { intros f l x. unfold count. induction l as [|r l IH]; [done |].
    simpl. rewrite !filter_cons.
    destruct (decide (f r = x)); simpl; by rewrite IH. }
  intros Hinit.
  assert (Hty : file_types c = map File_Type (file_stats c)).
  { unfold init in Hinit.
    destruct (check_root_folder root_folder node); [| done].
    by injection Hinit as <-. }
  unfold get_file_typedist, get_folders_info. rewrite Hty.
  destruct (Counter_counts (map File_Type (file_stats c)))
    as (Hc1 & _ & Hs1).
  destruct (Counter_counts (map Source_Folder (file_stats c)))
    as (Hc2 & _ & Hs2).
  split_and!.
  - intros ext. by rewrite Hc1, Hcount.
  - intros folder. by rewrite Hc2, Hcount.
  - by rewrite Hs1, length_map.
  - by rewrite Hs2, length_map.
Qed.

Lemma typedist_and_folders_info_witness :
  exists c,
    init "root" [".mp3"] true [] (Directory scenario_tree) = Ok c
    /\ (forall ext,
          Counter_getitem (get_file_typedist c) ext
          = length (filter (fun stat => File_Type stat = ext) (file_stats c)))
    /\ (forall folder,
          Counter_getitem (get_folders_info c) folder
          = length (in_folder folder (file_stats c)))
    /\ sum_counts (get_file_typedist c) = length (file_stats c)
    /\ sum_counts (get_folders_info c) = length (file_stats c).
Proof.
  eexists. split; [reflexivity |].
  apply (typedist_and_folders_info "root" [".mp3"] [] true
           (Directory scenario_tree)).
  reflexivity.
Defined.

End Distributions.

(** ** The distribution of the file sizes *)

Section SizeDistribution.
Import FileStatsCollector Reference Scenarios.

Local Ltac compare_all :=
  repeat match goal with
    | |- context [(?a <=? ?b)%Z] => destruct (Z.leb_spec a b); try lia
    | |- context [(?a <? ?b)%Z] => destruct (Z.ltb_spec a b); try lia
    end.

Lemma length_filter_cons_bool {A} (f : A -> bool) (x : A) (l : list A) :
  length (filter (fun y => f y = true) (x :: l))
  = (if f x then 1 else 0) + length (filter (fun y => f y = true) l).
Proof.
  rewrite filter_cons. destruct (f x).
  - by rewrite decide_True.
  - by rewrite decide_False.
Qed.

(** One record adds one to the count of each range that holds its size:
    the ranges do not overlap, so the first one is the only one. *)
Lemma size_distribution_step (c : Z * bound -> nat) (file_size : Z) :
  match first_range file_size size_ranges with
  | Some size_range => increment size_range (counts_of c)
  | None => counts_of c
  end
  = counts_of (fun r => c r + if in_range file_size r then 1 else 0).
Proof.
  unfold counts_of, size_ranges, first_range, in_range. simpl.
  compare_all; simpl; repeat f_equal; lia.
Qed.

Lemma size_distribution_loop (file_stats : list FileStat)
    (c : Z * bound -> nat) :
  fold_left
    (fun size_distribution stat =>
       match first_range (File_Size_Bytes stat) size_ranges with
       | Some size_range => increment size_range size_distribution
       | None => size_distribution
       end)
    file_stats (counts_of c)
  = counts_of
      (fun r =>
         c r + length (filter (fun stat =>
                                 in_range (File_Size_Bytes stat) r = true)
                              file_stats)).
Proof.
  revert c. induction file_stats as [|stat rs IH]; intros c;
    cbn [fold_left].
  - unfold counts_of. apply map_ext. intros sr. simpl. f_equal. lia.
  - rewrite size_distribution_step, IH.
    unfold counts_of. apply map_ext. intros sr. f_equal.
    rewrite filter_cons.
    destruct (in_range (File_Size_Bytes stat) (snd sr)) eqn:E.
    + rewrite decide_True by done. simpl. lia.
    + rewrite decide_False by done. lia.
Qed.

(** X8.  [show_file_size_distribution] prints the seven ranges in the order of
    the dictionary, each with the number of the records whose size is in
    it; a record of a non-negative size is counted once, so that the
    counts add up to the number of these records. *)
Theorem size_distribution_spec (file_stats : list FileStat) :
  show_file_size_distribution file_stats
  = map (fun sr =>
           (fst sr,
            length (filter (fun stat =>
                              in_range (File_Size_Bytes stat) (snd sr) = true)
                           file_stats)))
        size_ranges
  /\ foldr Nat.add 0 (map snd (show_file_size_distribution file_stats))
     = length (filter (fun stat => (0 <= File_Size_Bytes stat)%Z) file_stats).
Proof.
  assert (Hshow : show_file_size_distribution file_stats
                  = counts_of (fun r =>
                      length (filter (fun stat =>
                                in_range (File_Size_Bytes stat) r = true)
                              file_stats))).
  { unfold show_file_size_distribution.
    change (map (fun sr => (fst sr, 0)) size_ranges)
      with (counts_of (fun _ => 0)).
    by rewrite size_distribution_loop. }
  split; [exact Hshow |].
  rewrite Hshow. clear Hshow. unfold counts_of, size_ranges. simpl.
  induction file_stats as [|stat rs IH]; [done |].
  rewrite !length_filter_cons_bool, filter_cons.
  destruct (decide (0 <= File_Size_Bytes stat)%Z); simpl length;
    rewrite <- IH;
    repeat match goal with
      | |- context [length (filter ?P rs)] =>
          generalize (length (filter P rs)); intro
      end;
    unfold in_range; simpl; compare_all; simpl; lia.
Qed.

End SizeDistribution.

(** ** Sorting the records *)

Section Sorting.
Import FileStatsCollector Reference Scenarios.

Section InsertSorted.
Context {A K : Type} (leb : K -> K -> bool) (key : A -> K).
Hypothesis leb_total : forall a b, leb a b = true \/ leb b a = true.
Hypothesis leb_trans :
  forall a b c, leb a b = true -> leb b c = true -> leb a c = true.

Lemma insert_sorted_perm (x : A) (l : list A) :
  insert_sorted leb key x l ≡ₚ x :: l.
Proof.
  induction l as [|y l IH]; simpl; [done |].
  destruct (leb (key x) (key y)); [done |].
  rewrite IH. apply Permutation_swap.
Qed.

Lemma insert_sorted_sorted (x : A) (l : list A) :
  StronglySorted (fun x y => leb (key x) (key y) = true) l ->
  StronglySorted (fun x y => leb (key x) (key y) = true)
                 (insert_sorted leb key x l).
Proof.
  induction 1 as [|y l Hl IH Hy]; simpl.
  - repeat constructor.
  - destruct (leb (key x) (key y)) eqn:E.
    + constructor; [by constructor |].
      constructor; [done |].
      eapply Forall_impl; [exact Hy |].
      intros z Hz. simpl in *. by eapply leb_trans.
    + constructor; [done |].
      rewrite insert_sorted_perm. constructor; [| done].
      by destruct (leb_total (key x) (key y)) as [H | H];
        [rewrite H in E |].
Qed.

(** The records that hold a property which puts [x] before each of them
    stay behind [x], in their order. *)
Lemma insert_sorted_stable (P : A -> Prop) `{!forall a, Decision (P a)}
    (x : A) (l : list A) :
  (forall y, P x -> P y -> leb (key x) (key y) = true) ->
  filter P (insert_sorted leb key x l) = filter P (x :: l).
Proof.
  intros HP. induction l as [|y l IH]; simpl; [done |].
  destruct (leb (key x) (key y)) eqn:E; [done |].
  rewrite (filter_cons _ y), IH, !filter_cons.
  destruct (decide (P x)) as [Hx | Hx], (decide (P y)) as [Hy | Hy];
    try done.
  by rewrite (HP y Hx Hy) in E.
Qed.

End InsertSorted.

Section PySorted.
Context {A K : Type} `{EqDecision K} (leb : K -> K -> bool) (key : A -> K).
Hypothesis leb_total : forall a b, leb a b = true \/ leb b a = true.
Hypothesis leb_trans :
  forall a b c, leb a b = true -> leb b c = true -> leb a c = true.

Lemma py_sorted_perm (reverse : bool) (xs : list A) :
  py_sorted leb key reverse xs ≡ₚ xs.
Proof.
  unfold py_sorted. induction xs as [|x xs IH]; simpl; [done |].
  by rewrite insert_sorted_perm, IH.
Qed.

Lemma py_sorted_sorted (reverse : bool) (xs : list A) :
  StronglySorted
    (fun x y => (if reverse then leb (key y) (key x)
                 else leb (key x) (key y)) = true)
    (py_sorted leb key reverse xs).
Proof.
  unfold py_sorted. induction xs as [|x xs IH]; simpl; [constructor |].
  destruct reverse.
  - apply (insert_sorted_sorted (flip leb) key); [| | exact IH].
    + intros a b. unfold flip. destruct (leb_total a b); auto.
    + intros a b c. unfold flip. eauto.
  - by apply (insert_sorted_sorted leb key).
Qed.

(** Elements of the same key keep their order. *)
Lemma py_sorted_stable (reverse : bool) (k : K) (xs : list A) :
  filter (fun x => key x = k) (py_sorted leb key reverse xs)
  = filter (fun x => key x = k) xs.
Proof.
  assert (Hrefl : forall a, leb a a = true).
  { intros a. by destruct (leb_total a a). }
  unfold py_sorted. induction xs as [|x xs IH]; simpl; [done |].
  rewrite insert_sorted_stable.
  - by rewrite !filter_cons, IH.
  - intros y -> Hy. rewrite Hy. destruct reverse; apply Hrefl.
Qed.

End PySorted.

(** When every record has the key, the keys paired with the records give
    the records back. *)
Lemma keyed_records {K} (item : FileStat -> option K)
    (file_stats : list FileStat) (keyed : list (K * FileStat)) :
  mapM (fun stat => (fun k => (k, stat)) <$> item stat) file_stats
  = Some keyed ->
  snd <$> keyed = file_stats
  /\ Forall (fun ks => item (snd ks) = Some (fst ks)) keyed.
Proof.
  intros H. apply mapM_Some in H.
  induction H as [|stat ks l l' Hks _ [IH1 IH2]]; [done |].
  destruct (item stat) as [k |] eqn:E; [| done].
  injection Hks as <-. split.
  - rewrite fmap_cons. simpl. f_equal. exact IH1.
  - by constructor.
Qed.

(** X9.  [sort_by_key] gives back the same records, each as often as it was
    given.  When every record has the key and the order of the values is
    total and transitive, the records are arranged by the key, ascending,
    or descending when [reverse] is set, and the records of the same value
    keep their order.  When a record is without the key, the list is
    given back as it is. *)
Theorem sort_by_key_spec {K} `{EqDecision K} (item : FileStat -> option K)
    (leb : K -> K -> bool) (reverse : bool) (file_stats : list FileStat) :
  (forall a b, leb a b = true \/ leb b a = true) ->
  (forall a b c, leb a b = true -> leb b c = true -> leb a c = true) ->
  let sorted := sort_by_key item leb reverse file_stats in
  sorted ≡ₚ file_stats
  /\ (Forall (fun stat => is_Some (item stat)) file_stats ->
      StronglySorted
        (fun x y =>
           exists kx ky,
             item x = Some kx /\ item y = Some ky
             /\ (if reverse then leb ky kx else leb kx ky) = true)
        sorted
      /\ forall k,
           filter (fun stat => item stat = Some k) sorted
           = filter (fun stat => item stat = Some k) file_stats)
  /\ (~ Forall (fun stat => is_Some (item stat)) file_stats ->
      sorted = file_stats).
Proof.
  intros Htotal Htrans. cbv zeta. unfold sort_by_key.
  destruct (mapM _ file_stats) as [keyed |] eqn:Hkeyed.
  - destruct (keyed_records _ _ _ Hkeyed) as [Hsnd Hitem].
    pose proof (py_sorted_perm leb fst reverse keyed) as Hperm.
    assert (Hitem' : Forall (fun ks => item (snd ks) = Some (fst ks))
                            (py_sorted leb fst reverse keyed)).
    { by rewrite Hperm. }
    split_and!.
    + by rewrite Hperm, Hsnd.
    + intros _. split.
      * pose proof (py_sorted_sorted leb fst Htotal Htrans reverse keyed)
          as Hsorted.
        revert Hitem'. generalize (py_sorted leb fst reverse keyed) Hsorted.
        intros l Hl. induction Hl as [|[k stat] l Hl IH Hall]; intros Hinv;
          [constructor |].
        apply Forall_cons in Hinv as [Hk Hinv].
        rewrite fmap_cons. constructor; [by apply IH |].
        apply Forall_fmap, Forall_forall. intros [k' stat'] Hin. simpl.
        exists k, k'. split_and!.
        -- exact Hk.
        -- exact (proj1 (Forall_forall _ _) Hinv _ Hin).
        -- exact (proj1 (Forall_forall _ _) Hall _ Hin).
      * intros k.
        assert (Hfilter : forall l : list (K * FileStat),
                  Forall (fun ks => item (snd ks) = Some (fst ks)) l ->
                  filter (fun stat => item stat = Some k) (snd <$> l)
                  = snd <$> filter (fun ks => fst ks = k) l).
        { intros l Hl. induction Hl as [|ks l Hks _ IH]; [done |].
          rewrite fmap_cons, !filter_cons, IH.
          destruct (decide (item ks.2 = Some k)) as [Heq | Hne],
                   (decide (ks.1 = k)) as [Heq' | Hne']; try done.
          - rewrite Hks in Heq. by injection Heq.
          - subst k. done. }
        rewrite (Hfilter _ Hitem'), <- Hsnd, (Hfilter _ Hitem).
        by rewrite (py_sorted_stable leb fst Htotal reverse k keyed).
    + intros Hnot. exfalso. apply Hnot.
      rewrite <- Hsnd. apply Forall_fmap.
      eapply Forall_impl; [exact Hitem |].
      intros ks Hks. simpl. by rewrite Hks.
  - split_and!; [done | | done].
    intros Hall. exfalso.
    assert (is_Some (mapM (fun stat => (fun k => (k, stat)) <$> item stat)
                          file_stats)) as [? Hsome]; [| congruence].
    apply mapM_is_Some. eapply Forall_impl; [exact Hall |].
    intros stat [k Hk]. simpl. rewrite Hk. by eexists.
Qed.

Lemma sort_by_key_spec_witness :
  let item := fun stat => Some (File_Size_Bytes stat) in
  let file_stats :=
    [ mkStat "a" "" 5 "" 0 0 "r"; mkStat "b" "" 9 "" 0 0 "r";
      mkStat "c" "" 5 "" 0 0 "r" ] in
  let sorted := sort_by_key item Z.leb true file_stats in
  sorted ≡ₚ file_stats
  /\ (Forall (fun stat => is_Some (item stat)) file_stats ->
      StronglySorted
        (fun x y =>
           exists kx ky,
             item x = Some kx /\ item y = Some ky
             /\ (ky <=? kx)%Z = true)
        sorted
      /\ forall k,
           filter (fun stat => item stat = Some k) sorted
           = filter (fun stat => item stat = Some k) file_stats)
  /\ (~ Forall (fun stat => is_Some (item stat)) file_stats ->
      sorted = file_stats).
Proof.
  apply (sort_by_key_spec (fun stat => Some (File_Size_Bytes stat)) Z.leb
           true).
  - intros a b. rewrite !Z.leb_le. lia.
  - intros a b c. rewrite !Z.leb_le. lia.
Defined.

End Sorting.

(** ** The totals of the summary *)

Section SummaryTotals.
Import FileStatsCollector Reference Scenarios.

Lemma size_list_to_set_le (l : list string) :
  size (list_to_set l : gset string) <= length l.
Proof.
  induction l as [|x l IH].
  - by rewrite list_to_set_nil, size_empty.
  - rewrite list_to_set_cons, size_union_alt, size_singleton. simpl length.
    assert (size (list_to_set l ∖ {[x]} : gset string)
            <= size (list_to_set l : gset string)).
    { apply subseteq_size. intros y Hy.
      by apply elem_of_difference in Hy as [? _]. }
    lia.
Qed.

(** X10.  The summary of a non-empty list of records agrees with the other
    statistics: the number of files is the number of records, the total
    size is the sum of the folder sizes, the number of folders is the
    number of folders of [get_folder_size_distribution], and there is at
    least one folder and at most one per file. *)
Theorem summary_totals (file_stats : list FileStat) (order : list string) :
  file_stats ≠ [] ->
  set_iteration order (map File_Type file_stats) ->
  exists s,
    get_summary_stats file_stats order = Some s
    /\ total_files s = length file_stats
    /\ total_size s = sum_values (get_folder_size_distribution file_stats)
    /\ total_folders s = size (get_folder_size_distribution file_stats)
    /\ 1 <= total_folders s <= total_files s.
Proof.
  intros Hne [_ Hset].
  destruct (folder_size_loop file_stats ∅) as (_ & Hk & Hs).
  fold (get_folder_size_distribution file_stats) in Hk, Hs.
  unfold get_summary_stats.
  destruct file_stats as [|r rs]; [done |].
  rewrite decide_False by done.
  destruct order as [|o order].
  { exfalso. apply (elem_of_nil (File_Type r)), Hset. by left. }
  simpl py_max. eexists. split; [reflexivity |]. simpl.
  set (folders := {[Source_Folder r]} ∪ list_to_set (map Source_Folder rs)
                  : gset string).
  assert (Hdom : dom (get_folder_size_distribution (r :: rs)) = folders).
  { apply set_eq. intros folder.
    rewrite elem_of_dom, Hk, lookup_empty. subst folders.
    rewrite elem_of_union, elem_of_singleton, elem_of_list_to_set.
    simpl. rewrite elem_of_cons.
    split; [intros [[? ?] | ?]; done | by right]. }
  split_and!.
  - done.
  - rewrite Hs. unfold sum_values at 1. rewrite map_fold_empty.
    unfold total_bytes. simpl. lia.
  - by rewrite <- size_dom, Hdom.
  - assert (size folders ≠ 0); [| lia].
    apply size_non_empty_iff. intros Hempty.
    assert (Source_Folder r ∈ folders) as Hin.
    { apply elem_of_union. left. by apply elem_of_singleton. }
    rewrite Hempty in Hin. by apply elem_of_empty in Hin.
  - pose proof (size_list_to_set_le (map Source_Folder (r :: rs))) as Hle.
    simpl in Hle. rewrite length_map in Hle. exact Hle.
Qed.

Lemma summary_totals_witness :
  exists s,
    get_summary_stats two_types [".b"; ".a"] = Some s
    /\ total_files s = length two_types
    /\ total_size s = sum_values (get_folder_size_distribution two_types)
    /\ total_folders s = size (get_folder_size_distribution two_types)
    /\ 1 <= total_folders s <= total_files s.
Proof.
  apply (summary_totals two_types [".b"; ".a"]).
  - discriminate.
  - split.
    + apply (bool_decide_unpack _). vm_compute. exact I.
    + intros x. simpl. rewrite !elem_of_cons, !elem_of_nil. tauto.
Defined.

End SummaryTotals.

(** ** Moving: what is left alone *)

Section MoveSafety.
Import FileStatsCollector MediaGatherer Reference Scenarios.

(** The path [handle_file_conflict] returns does not exist. *)
Lemma handle_file_conflict_free (fs : gset string) (p d : string) :
  handle_file_conflict fs p = Some d -> d ∉ fs.
Proof.
  intros H. destruct (decide (p ∈ fs)) as [Hin | Hout].
  - destruct (OsPath.splitext p) as [base_name extension] eqn:Hsplit.
    destruct (handle_file_conflict_first_free fs p _ _ Hsplit Hin)
      as (n & _ & Hres & Hfree & _).
    rewrite Hres in H. by injection H as <-.
  - rewrite (handle_file_conflict_fresh fs p Hout) in H. by injection H as <-.
Qed.

Lemma only_moves_refl (sources : list string) (st : t * world) :
  only_moves sources st st.
Proof. unfold only_moves. split_and!; auto. Qed.

Lemma only_moves_trans (sources : list string) (a b c : t * world) :
  only_moves sources a b -> only_moves sources b c -> only_moves sources a c.
Proof.
  intros (Hc1 & Hs1 & Hk1 & Hm1) (Hc2 & Hs2 & Hk2 & Hm2).
  unfold only_moves. split_and!.
  - congruence.
  - lia.
  - auto.
  - intros src dst H.
    destruct (Hm2 _ _ H) as [Hb | [Hsrc Hdst]]; [auto |].
    right. split; [done |].
    destruct Hdst as [Hdst | Hdst]; [| by right].
    destruct (decide (dst ∈ sources)) as [Hin | Hout]; [by right |].
    left. intros Ha. by apply Hdst, Hk1.
Qed.

Lemma only_moves_weaken (sources sources' : list string) (a b : t * world) :
  sources ⊆ sources' -> only_moves sources a b -> only_moves sources' a b.
Proof.
  intros Hsub (Hc & Hs & Hk & Hm). unfold only_moves. split_and!.
  - done.
  - done.
  - intros p Hp Hout. apply Hk; [done |]. intros Hin. by apply Hout, Hsub.
  - intros src dst H.
    destruct (Hm _ _ H) as [Hb | [Hsrc [Hdst | Hdst]]]; auto.
Qed.

Lemma only_moves_emit (sources : list string) (a : t * world) (self : t)
    (w : world) (e : event) :
  only_moves sources a (self, w) -> only_moves sources a (self, emit e w).
Proof. done. Qed.

(** A step that only adds paths. *)
Lemma only_moves_grows (sources : list string) (self : t) (w w' : world) :
  (forall p, p ∈ fs w -> p ∈ fs w') -> only_moves sources (self, w) (self, w').
Proof.
  intros Hfs. unfold only_moves. simpl. split_and!; auto.
  by apply subseteq_size.
Qed.

(** One move: the source goes, a destination that did not exist comes. *)
Lemma only_moves_step (self : t) (w w' : world) (src dst name : string) :
  dst ∉ fs w ->
  shutil_move w src dst = (w', None) ->
  only_moves [src] (self, w)
    ({| collector := collector self;
        moved_files := <[src := dst]> (moved_files self);
        dest_folder := dest_folder self |},
     emit (PrintMoved name) w').
Proof.
  intros Hfree Hmove. unfold shutil_move in Hmove.
  destruct (os_path_exists (fs w) src) eqn:Hsrc; [| done].
  destruct (os_refuses _ _ _); [done |].
  apply os_path_exists_true in Hsrc. injection Hmove as <-.
  unfold only_moves. simpl. split_and!.
  - done.
  - rewrite size_union.
    + rewrite size_singleton, size_difference, size_singleton.
      * assert (size (fs w) ≠ 0); [| lia].
        apply size_non_empty_iff. intros Hempty.
        rewrite Hempty in Hsrc. by apply elem_of_empty in Hsrc.
      * by apply singleton_subseteq_l.
    + apply disjoint_singleton_l. intros Hin.
      by apply elem_of_difference in Hin as [? _].
  - intros p Hp Hout. apply elem_of_union. right.
    apply elem_of_difference. split; [done |].
    intros Heq. apply Hout. apply elem_of_singleton in Heq as ->.
    by apply list_elem_of_singleton.
  - intros k v H. destruct (decide (src = k)) as [<- | Hne].
    + right. split; [by apply list_elem_of_singleton |].
      left. rewrite lookup_insert_eq in H. by injection H as <-.
    + left. by rewrite lookup_insert_ne in H.
Qed.

Lemma move_loop_only_moves (destination_folder : string)
    (files : list FileStat) (self : t) (w : world) :
  only_moves (map source_path files) (self, w)
             (fst (move_loop destination_folder files self w)).
Proof.
  revert self w. induction files as [|f files IH]; intros self w.
  - apply only_moves_refl.
  - assert (Hrest : map source_path files ⊆ map source_path (f :: files)).
    { intros p Hp. simpl. by right. }
    cbn [move_loop]. destruct (decide _) as [Hskip | Hmoved].
    { eapply only_moves_weaken; [exact Hrest | apply IH]. }
    destruct (handle_file_conflict _ _) as [dst |] eqn:Hdst;
      [| apply only_moves_refl].
    destruct (shutil_move _ _ _) as [w' [e |]] eqn:Hmove;
      [apply only_moves_grows; intros p Hp;
       apply (shutil_move_leaves _ _ _ _ _ Hmove); [done | by right] |].
    eapply only_moves_trans.
    + eapply only_moves_weaken;
        [| exact (only_moves_step self w w' _ dst (File_Name f)
                    (handle_file_conflict_free _ _ _ Hdst) Hmove)].
      intros p Hp. apply list_elem_of_singleton in Hp as ->. by left.
    + eapply only_moves_weaken; [exact Hrest | apply IH].
Qed.

Lemma create_media_folder_only_moves (destination_folder : string)
    (self self' : t) (w w' : world) (o : option exn) :
  create_media_folder destination_folder self w = (self', w', o) ->
  only_moves [] (self, w) (self', w').
Proof.
  intros H.
  apply create_media_folder_leaves in H as (Hm & Hc & _ & _ & Hfs).
  unfold only_moves. simpl. split_and!.
  - done.
  - by apply subseteq_size.
  - intros p Hp _. by apply Hfs.
  - intros src dst Hl. left. by rewrite <- Hm.
Qed.

Lemma move_files_to_destination_only_moves (files_to_move : list FileStat)
    (destination_folder : string) (self : t) (w : world) :
  only_moves (map source_path files_to_move) (self, w)
    (fst (move_files_to_destination files_to_move destination_folder
                                    self w)).
Proof.
  unfold move_files_to_destination.
  destruct (create_media_folder destination_folder self w)
    as [[self0 w0] o] eqn:Hc.
  apply create_media_folder_only_moves in Hc.
  apply (only_moves_weaken [] (map source_path files_to_move)) in Hc;
    [| intros p Hp; by apply elem_of_nil in Hp].
  destruct o as [e |]; [by apply only_moves_emit |].
  destruct files_to_move as [|f files]; [by apply only_moves_emit |].
  pose proof (move_loop_only_moves destination_folder (f :: files) self0 w0)
    as Hl.
  destruct (move_loop destination_folder (f :: files) self0 w0)
    as [[self1 w1] [e |]]; simpl fst in *;
    apply only_moves_emit; by eapply only_moves_trans.
Qed.

Lemma sources_of_slice (files : list FileStat) (i n : Z) :
  map source_path (slice files i n) ⊆ map source_path files.
Proof.
  intros p Hp. apply list_elem_of_fmap in Hp as (r & -> & Hr).
  apply list_elem_of_fmap. exists r. split; [done |].
  unfold slice in Hr.
  by apply subseteq_take, subseteq_drop in Hr.
Qed.

Lemma batch_loop_only_moves (indices : list Z) (files_to_move : list FileStat)
    (destination_folder : string) (batch_size : Z) (delay : Q)
    (self : t) (w : world) :
  only_moves (map source_path files_to_move) (self, w)
    (fst (batch_loop indices files_to_move destination_folder batch_size
                     delay self w)).
Proof.
  revert self w. induction indices as [|i indices IH]; intros self w.
  - apply only_moves_refl.
  - cbn [batch_loop].
    pose proof (move_files_to_destination_only_moves
                  (slice files_to_move i batch_size) destination_folder
                  self w) as Hm.
    destruct (move_files_to_destination _ _ _ _) as [[self1 w1] r].
    simpl fst in Hm.
    apply (only_moves_weaken _ _ _ _ (sources_of_slice _ _ _)) in Hm.
    unfold time_sleep. destruct (Qle_bool 0 delay); [| done].
    destruct (os_refuses _ _ _); [done |].
    eapply only_moves_trans; [| apply IH].
    by do 2 apply only_moves_emit.
Qed.

(** [gather_media] only moves. *)
Lemma gather_media_only_moves (destination_folder : option string)
    (move_all : bool) (batch_size : Z) (time_delay : Q)
    (self : t) (w : world) :
  only_moves (map source_path (file_stats (collector self))) (self, w)
    (gather_media destination_folder move_all batch_size time_delay self w).
Proof.
  unfold gather_media.
  set (dest := default (dest_folder self) destination_folder).
  set (files := get_files_to_move self _).
  assert (Hsub : map source_path files
                 ⊆ map source_path (file_stats (collector self))).
  { intros p Hp. apply list_elem_of_fmap in Hp as (r & -> & Hr).
    apply list_elem_of_fmap. exists r. split; [done |].
    subst files. unfold get_files_to_move in Hr.
    by apply list_elem_of_filter in Hr as [_ ?]. }
  destruct (decide (100 < length (file_stats (collector self)))).
  - unfold _batch_move_files.
    destruct (py_range _ _) as [indices | e].
    + pose proof (batch_loop_only_moves indices files dest batch_size
                    time_delay self w) as Hb.
      destruct (batch_loop _ _ _ _ _ _ _) as [[self1 w1] [e |]];
        simpl fst in Hb; unfold show_moved_stats;
        repeat apply only_moves_emit; by eapply only_moves_weaken.
    + unfold show_moved_stats. do 2 apply only_moves_emit.
      apply only_moves_refl.
  - pose proof (move_files_to_destination_only_moves files dest self w)
      as Hm.
    destruct (move_files_to_destination files dest self w)
      as [[self1 w1] r].
    unfold show_moved_stats. apply only_moves_emit.
    by eapply only_moves_weaken.
Qed.

(** X11.  Whatever its arguments and whatever goes wrong, [gather_media] leaves
    the scan as it is; no fewer paths exist after it than before; every
    path that is not the source path of a scanned record is left in place;
    and an entry it adds to [moved_files] has the source path of a scanned
    record as its key and, as its value, a path that did not exist before
    or was such a source path: no other file is moved or written over. *)
Theorem gather_media_only_moves_scanned_files
    (destination_folder : option string) (move_all : bool) (batch_size : Z)
    (time_delay : Q) (self : t) (w : world) :
  let sources := map source_path (file_stats (collector self)) in
  let after :=
    gather_media destination_folder move_all batch_size time_delay self w in
  collector (fst after) = collector self
  /\ size (fs w) <= size (fs (snd after))
  /\ (forall p, p ∈ fs w -> p ∉ sources -> p ∈ fs (snd after))
  /\ (forall src dst,
        moved_files (fst after) !! src = Some dst ->
        moved_files self !! src = Some dst
        \/ (src ∈ sources /\ (dst ∉ fs w \/ dst ∈ sources))).
Proof.
  cbv zeta.
  destruct (gather_media_only_moves destination_folder move_all batch_size
              time_delay self w) as (Hscan & Hsize & Hkept & Hmoved).
  split_and!.
  - exact Hscan.
  - exact Hsize.
  - exact Hkept.
  - exact Hmoved.
Qed.

End MoveSafety.

(** ** Moving: the batch size *)

Section BatchSize.
Import FileStatsCollector MediaGatherer Reference Scenarios.

Local Arguments sleep_events : simpl never.

Local Ltac list_sleeps :=
  unfold show_moved_stats, emit; simpl;
  rewrite ?sleep_events_app, ?sleep_events_cons, ?sleep_events_nil; simpl;
  rewrite ?app_nil_r; try done.

(** With a negative delay the batch loop does not sleep: the first call
    of [sleep] raises. *)
Lemma batch_loop_never_sleeps (indices : list Z)
    (files_to_move : list FileStat) (destination_folder : string)
    (batch_size : Z) (delay : Q) (self : t) (w : world) :
  (delay < 0)%Q ->
  sleep_events (trace (snd (fst (batch_loop indices files_to_move
                                   destination_folder batch_size delay
                                   self w))))
  = sleep_events (trace w).
Proof.
  intros Hdelay. destruct indices as [|i indices]; [done |].
  rewrite batch_loop_negative_delay by done.
  pose proof (move_files_to_destination_sleep_events
                (slice files_to_move i batch_size) destination_folder
                self w) as Hm.
  destruct (move_files_to_destination _ _ _ _) as [[self1 w1] r].
  simpl in Hm. list_sleeps.
Qed.

(** X12.  The pauses of [gather_media], when the operating system takes
    the delay.  With at most 100 scanned records there is none.  With more,
    the files to move go in batches: when the batch size is positive and
    the delay is not negative there is one pause of [time_delay] seconds
    per batch, that is as many as the number of files to move divided by
    the batch size, rounded up; there is none when the batch size is not
    positive, and none when the delay is negative (the first [sleep]
    raises). *)
Theorem gather_media_pauses (destination_folder : option string)
    (move_all : bool) (batch_size : Z) (time_delay : Q)
    (self : t) (w : world) :
  (forall fs', os_refuses w fs' (Sleeping time_delay) = None) ->
  let files_to_move :=
    get_files_to_move self
      (if all_files (collector self) then true else move_all) in
  sleep_events (trace (snd (gather_media destination_folder move_all
                                         batch_size time_delay self w)))
  = sleep_events (trace w)
    ++ if decide (100 < length (file_stats (collector self))) then
         if (batch_size <=? 0)%Z then []
         else if Qle_bool 0 time_delay then
           replicate
             (Z.to_nat ((Z.of_nat (length files_to_move) + batch_size - 1)
                        / batch_size))
             (Sleep time_delay)
         else []
       else [].
Proof.
  intros Hos. cbv zeta. unfold gather_media.
  set (files := get_files_to_move self _).
  set (dest := default (dest_folder self) destination_folder).
  destruct (decide (100 < length (file_stats (collector self)))).
  - unfold _batch_move_files, py_range.
    destruct (Z.eqb_spec batch_size 0) as [-> | Hne].
    + list_sleeps.
    + destruct (Z.ltb_spec batch_size 0) as [Hneg | Hpos].
      * rewrite (proj2 (Z.leb_le batch_size 0)) by lia.
        list_sleeps.
      * rewrite (proj2 (Z.leb_gt batch_size 0)) by lia.
        destruct (Qle_bool 0 time_delay) eqn:Hdelay.
        -- apply Qle_bool_iff in Hdelay.
           match goal with |- context [batch_loop ?ix _ _ _ _ _ _] =>
             destruct (batch_loop_sleep_events ix files dest batch_size
                         time_delay self w Hdelay Hos) as (Hnone & Hb & _);
             destruct (batch_loop ix files dest batch_size time_delay self w)
               as [[self1 w1] o] end.
           simpl in Hnone, Hb. subst o.
           rewrite length_map, length_seq in Hb.
           list_sleeps.
        -- assert (Hneg : (time_delay < 0)%Q).
           { apply Qnot_le_lt. intros Hle.
             apply Qle_bool_iff in Hle. congruence. }
           match goal with |- context [batch_loop ?ix _ _ _ _ _ _] =>
             pose proof (batch_loop_never_sleeps ix files dest batch_size
                           time_delay self w Hneg) as Hb;
             destruct (batch_loop ix files dest batch_size time_delay self w)
               as [[self1 w1] [e |]] end;
             simpl in Hb; list_sleeps.
  - pose proof (move_files_to_destination_sleep_events files dest self w)
      as Hm.
    destruct (move_files_to_destination files dest self w)
      as [[self1 w1] r].
    simpl in Hm. list_sleeps.
Qed.

Lemma gather_media_pauses_witness :
  sleep_events (trace (snd (gather_media None false 50 (1 # 10)
                                         crowded_gatherer start_world)))
  = replicate 3 (Sleep (1 # 10)).
Proof.
  apply (gather_media_pauses None false 50 (1 # 10)
           crowded_gatherer start_world).
  reflexivity.
Defined.



End BatchSize.

(** ** Renaming: what is kept of the path *)

Section RenameKeeps.
Import FileStatsCollector MediaGatherer Reference Scenarios.

Lemma app_eq_app_str (a b c d : string) :
  a +:+ b = c +:+ d ->
  (exists k, c = a +:+ k /\ b = k +:+ d)
  \/ (exists k, a = c +:+ k /\ d = k +:+ b).
Proof.
  revert c. induction a as [|x a IH]; intros c H.
  - left. by exists c.
  - destruct c as [|y c].
    + right. by exists (String x a).
    + rewrite !app_cons_str in H. injection H as <- H.
      destruct (IH c H) as [(k & -> & ->) | (k & -> & ->)].
      * left. by exists k.
      * right. by exists k.
Qed.

Lemma absent_app (c : ascii) (a b : string) :
  absent c (a +:+ b) <-> absent c a /\ absent c b.
Proof.
  induction a as [|x a IH].
  - rewrite app_nil_l_str. unfold absent at 2. simpl. tauto.
  - rewrite app_cons_str, !absent_cons, IH. tauto.
Qed.

(** [span] cuts the string in two, the first part passing the test. *)
Lemma span_spec (f : ascii -> bool) (s a b : string) :
  PyStr.span f s = (a, b) -> s = a +:+ b /\ PyStr.forallb f a = true.
Proof.
  revert a b. induction s as [|c s IH]; intros a b; simpl.
  - intros [= <- <-]. done.
  - destruct (f c) eqn:E.
    + destruct (PyStr.span f s) as [a' b'].
      intros [= <- <-]. destruct (IH a' b' eq_refl) as [-> Ha].
      split; [done |]. simpl. by rewrite E, Ha.
    + intros [= <- <-]. done.
Qed.

(** What the tail of the pattern matches: a parenthesised number, and a
    newline after it or nothing. *)
Lemma match_number_suffix_spec (s : string) :
  match_number_suffix s = true ->
  exists ds,
    ds ≠ "" /\ PyStr.forallb is_digit ds = true
    /\ (s = "(" +:+ ds +:+ ")"
        \/ s = "(" +:+ ds +:+ ")" +:+ String PyStr.newline "").
Proof.
  unfold match_number_suffix.
  destruct s as [|c rest]; [done |].
  destruct (decide (c = "("%char)) as [-> | Hc].
  2:{ destruct c as [[] [] [] [] [] [] [] []]; done. }
  destruct (PyStr.span is_digit rest) as [ds tail] eqn:Hspan.
  apply span_spec in Hspan as [-> Hds].
  intros [Hne Htail]%andb_true_iff.
  apply negb_true_iff, bool_decide_eq_false in Hne.
  exists ds. split_and!; [done | done |].
  apply orb_true_iff in Htail as [->%bool_decide_eq_true
                                 | ->%bool_decide_eq_true].
  - by left.
  - by right.
Qed.

(** What the regular expression matches: group 1, free of newlines, and
    then the tail of the pattern. *)
Lemma re_match_group1_spec (s g : string) :
  re_match_group1 s = Some g ->
  exists rest,
    s = g +:+ rest /\ match_number_suffix rest = true
    /\ absent PyStr.newline g.
Proof.
  revert g. induction s as [|c s IH]; intros g.
  - done.
  - destruct (match_number_suffix (String c s)) eqn:Hm.
    + rewrite (re_match_group1_here _ Hm). intros [= <-].
      by exists (String c s).
    + destruct (decide (c = PyStr.newline)) as [-> | Hc].
      * change (re_match_group1 (String PyStr.newline s)) with
          (if match_number_suffix (String PyStr.newline s) then Some ""
           else if decide (PyStr.newline = PyStr.newline) then None
           else String PyStr.newline <$> re_match_group1 s).
        by rewrite Hm.
      * rewrite (re_match_group1_step _ _ Hm Hc).
        destruct (re_match_group1 s) as [g' |]; [| done].
        intros [= <-]. destruct (IH g' eq_refl) as (rest & -> & Hrest & Hg).
        exists rest. split_and!; [done | done |].
        by apply absent_cons.
Qed.

(** X14.  [remove_number_suffix] gives back a beginning of the name.  What it
    leaves out is nothing, or one number in parentheses at the end of the
    name, with a newline after it or not; in that case what it gives back
    holds no newline. *)
Theorem remove_number_suffix_spec (basename : string) :
  exists rest,
    basename = remove_number_suffix basename +:+ rest
    /\ (rest = ""
        \/ exists ds,
             ds ≠ "" /\ PyStr.forallb is_digit ds = true
             /\ (rest = "(" +:+ ds +:+ ")"
                 \/ rest = "(" +:+ ds +:+ ")" +:+ String PyStr.newline "")
             /\ absent PyStr.newline (remove_number_suffix basename)).
Proof.
  unfold remove_number_suffix.
  destruct (re_match_group1 basename) as [g |] eqn:Hg.
  - apply re_match_group1_spec in Hg as (rest & -> & Hrest & Hnl).
    exists rest. split; [done |]. right.
    apply match_number_suffix_spec in Hrest as (ds & Hne & Hds & Hshape).
    by exists ds.
  - exists "". split; [by rewrite app_nil_r_str | by left].
Qed.

Lemma pretty_N_char_digit (x : N) : is_digit (pretty_N_char x) = true.
Proof. unfold pretty_N_char. by repeat case_match. Qed.

Lemma pretty_N_go_digits (x : N) (s : string) :
  PyStr.forallb is_digit s = true ->
  PyStr.forallb is_digit (pretty_N_go x s) = true.
Proof.
  revert s. induction (N.lt_wf_0 x) as [x _ IH]; intros s Hs.
  destruct (decide (x = 0)%N) as [-> | Hx].
  - by rewrite pretty_N_go_0.
  - rewrite pretty_N_go_step by lia. apply IH.
    + apply N.div_lt; lia.
    + simpl. by rewrite pretty_N_char_digit, Hs.
Qed.

(** The counter of a candidate is written with digits. *)
Lemma pretty_nat_digits (n : nat) :
  PyStr.forallb is_digit (pretty n) = true.
Proof.
  unfold pretty, pretty_nat, pretty, pretty_N.
  destruct (decide _); [done |]. by apply pretty_N_go_digits.
Qed.

Lemma absent_of_digits (c : ascii) (ds : string) :
  is_digit c = false -> PyStr.forallb is_digit ds = true -> absent c ds.
Proof.
  intros Hc. induction ds as [|d ds IH]; [done |]. simpl.
  intros [Hd Hds]%andb_true_iff. apply absent_cons. split; [| by apply IH].
  intros ->. by rewrite Hc in Hd.
Qed.

(** A path made of a folder part, empty or ending with a slash, and a
    rest: a tail of the path that holds no slash lies in the rest. *)
Lemma keeps_prefix (D a b c : string) :
  D = "" \/ (exists D', D = D' +:+ "/") ->
  D +:+ a = b +:+ c -> absent "/" c ->
  exists a', b = D +:+ a' /\ a = a' +:+ c.
Proof.
  intros HD Heq Hc.
  apply app_eq_app_str in Heq as [(k & -> & ->) | (k & -> & ->)].
  - by exists k.
  - apply absent_app in Hc as [Hk Ha].
    destruct k as [|x k].
    { exists "". by rewrite !app_nil_r_str. }
    exfalso. destruct HD as [HD | [D' HD]].
    { by destruct b. }
    apply app_eq_app_str in HD as [(k' & -> & Hk') | (k' & -> & Hk')].
    + rewrite Hk' in Hk. apply absent_app in Hk as [_ Hk]. done.
    + destruct k' as [|y k'].
      * rewrite app_nil_l_str in Hk'. by rewrite <- Hk' in Hk.
      * rewrite app_cons_str in Hk'. injection Hk' as _ Hk'.
        by destruct k'.
Qed.

(** [os.path.join] with a name that holds no slash puts the name after
    the folder part, which is empty or ends with a slash. *)
Lemma join_relative (folder name : string) :
  absent "/" name ->
  OsPath.join folder name = OsPath.join folder "" +:+ name
  /\ (OsPath.join folder "" = ""
      \/ exists D', OsPath.join folder "" = D' +:+ "/").
Proof.
  intros Hname. unfold OsPath.join.
  assert (PyStr.startswith name "/" = false) as ->.
  { destruct name as [|x name]; [done |].
    apply absent_cons in Hname as [Hx _]. simpl.
    by rewrite decide_False. }
  change (PyStr.startswith "" "/") with false. cbv iota.
  destruct (decide (folder = "")) as [-> | Hne].
  { split; [done | by left]. }
  destruct (PyStr.endswith folder "/") eqn:Hend.
  - rewrite app_nil_r_str. split; [done |]. right.
    by apply endswith_spec in Hend.
  - split.
    + by rewrite app_assoc_str.
    + right. by exists folder.
Qed.

(** The path that [handle_file_conflict] returns for a path in a folder
    is in that folder. *)
Lemma handle_file_conflict_in_folder (fs : gset string) (D name d : string) :
  D = "" \/ (exists D', D = D' +:+ "/") ->
  absent "/" name ->
  handle_file_conflict fs (D +:+ name) = Some d ->
  exists name', d = D +:+ name' /\ absent "/" name'.
Proof.
  intros HD Hname Hd.
  destruct (decide (D +:+ name ∈ fs)) as [Hin | Hout].
  2:{ rewrite (handle_file_conflict_fresh _ _ Hout) in Hd.
      injection Hd as <-. by exists name. }
  destruct (OsPath.splitext (D +:+ name)) as [base extension] eqn:Hsplit.
  destruct (handle_file_conflict_first_free fs _ _ _ Hsplit Hin)
    as (n & _ & Hres & _ & _).
  rewrite Hres in Hd. injection Hd as <-.
  pose proof (splitext_app (D +:+ name)) as Happ.
  pose proof (splitext_extension (D +:+ name)) as Hext.
  rewrite Hsplit in Happ, Hext. simpl in Happ, Hext.
  assert (Hslash : absent "/" extension).
  { destruct Hext as [-> | (x & -> & _ & Hx)]; [done |].
    by apply absent_cons. }
  symmetry in Happ.
  destruct (keeps_prefix D name base extension HD Happ Hslash)
    as (a1 & -> & ->).
  apply absent_app in Hname as [Ha1 _].
  assert (exists a2, remove_number_suffix (D +:+ a1) = D +:+ a2
                     /\ absent "/" a2) as (a2 & -> & Ha2).
  { unfold remove_number_suffix.
    destruct (re_match_group1 (D +:+ a1)) as [g |] eqn:Hg;
      [| by exists a1].
    apply re_match_group1_spec in Hg as (rest & Hg & Hrest & _).
    apply match_number_suffix_spec in Hrest as (ds & _ & Hds & Hshape).
    assert (absent "/" rest) as Hr.
    { pose proof (absent_of_digits "/" ds eq_refl Hds) as Hd.
      destruct Hshape as [-> | ->];
        rewrite ?app_cons_str, ?app_nil_l_str;
        apply absent_cons; (split; [done |]);
        apply absent_app; (split; [done |]); done. }
    destruct (keeps_prefix D a1 g rest HD Hg Hr) as (a2 & -> & ->).
    exists a2. split; [done |]. by apply absent_app in Ha1 as [? _]. }
  unfold candidate. rewrite app_assoc_str.
  eexists. split; [reflexivity |].
  apply absent_app. split; [done |].
  rewrite app_cons_str, app_nil_l_str. apply absent_cons. split; [done |].
  apply absent_app. split.
  { apply (absent_of_digits "/" _ eq_refl), pretty_nat_digits. }
  rewrite app_cons_str, app_nil_l_str. by apply absent_cons.
Qed.

(** X15.  A file that is renamed stays in its folder: for a name that holds no
    slash, what [handle_file_conflict] makes of the path of that name in a
    folder is the path of a name, again without a slash, in the same
    folder. *)
Theorem renamed_file_stays_in_folder (fs : gset string)
    (folder name d : string) :
  absent "/" name ->
  handle_file_conflict fs (OsPath.join folder name) = Some d ->
  exists name', d = OsPath.join folder name' /\ absent "/" name'.
Proof.
  intros Hname Hd.
  destruct (join_relative folder name Hname) as [Hjoin HD].
  rewrite Hjoin in Hd.
  destruct (handle_file_conflict_in_folder fs _ name d HD Hname Hd)
    as (name' & -> & Hname').
  exists name'. split; [| done].
  by destruct (join_relative folder name' Hname') as [-> _].
Qed.

Lemma renamed_file_stays_in_folder_witness :
  exists name',
    "dest/x(1).jpg" = OsPath.join "dest" name' /\ absent "/" name'.
Proof.
  apply (renamed_file_stays_in_folder {["dest/x.jpg"]} "dest" "x.jpg").
  - reflexivity.
  - vm_compute. reflexivity.
Defined.

End RenameKeeps.

(** ** Conflict resolution: the path that is returned *)

Section ConflictResolutionSpec.
Import MediaGatherer Reference Scenarios.

(** No string is itself followed by a number in parentheses. *)
Lemma no_own_number_suffix (s : string) : ~ has_number_suffix s s.
Proof.
  intros (ds & _ & _ & H). apply (f_equal String.length) in H.
  rewrite !length_app_str in H. simpl in H. lia.
Qed.

(** On a stem without a newline [remove_number_suffix] strips the trailing
    number in parentheses, and leaves alone a stem that has none. *)
Lemma remove_number_suffix_strips (stem : string) :
  absent PyStr.newline stem ->
  strips_number_suffix stem (remove_number_suffix stem).
Proof.
  intros Hnl. unfold remove_number_suffix.
  destruct (re_match_group1 stem) as [g |] eqn:Hg.
  - left. apply re_match_group1_spec in Hg as (rest & -> & Hrest & _).
    apply match_number_suffix_spec in Hrest as (ds & Hne & Hds & [-> | ->]).
    + by exists ds.
    + exfalso. do 3 apply absent_app in Hnl as [_ Hnl]. done.
  - right. split; [done |]. intros b (ds & Hne & Hds & ->).
    pose proof Hnl as [Hb _]%absent_app.
    pose proof (remove_number_suffix_collapses b ds Hb Hne Hds) as Hc.
    unfold remove_number_suffix in Hc. rewrite Hg in Hc.
    apply (no_own_number_suffix b). exists ds. by rewrite Hc.
Qed.

(** C1.  For every desired destination path [p]: when [p] does not exist,
    [handle_file_conflict] returns [p] unchanged; when [p] exists, it
    returns the first candidate [base(N)extension], [N = 1, 2, 3, ...],
    that does not exist, so the returned path does not exist and differs
    from [p].  Here [extension] is the extension of [p] and [base] is what
    [remove_number_suffix] makes of the stem of [p]: for a stem without a
    newline that is the stem with its trailing [(N)] stripped (the stem
    itself when it has none).  It is not for every stem: the stem of
    [d/a<newline>b(1).jpg] is [d/a<newline>b] followed by [(1)], but is left
    as it is, and the existing path is renamed to
    [d/a<newline>b(1)(1).jpg]. *)
Theorem handle_file_conflict_spec (fs : gset string) (p : string) :
  let stem := fst (OsPath.splitext p) in
  let extension := snd (OsPath.splitext p) in
  let base := remove_number_suffix stem in
  ((p ∉ fs) -> handle_file_conflict fs p = Some p)
  /\ ((p ∈ fs) ->
      exists n,
        1 <= n /\
        handle_file_conflict fs p = Some (candidate base extension n) /\
        (candidate base extension n ∉ fs) /\
        candidate base extension n ≠ p /\
        forall m, 1 <= m < n -> candidate base extension m ∈ fs)
  /\ (absent PyStr.newline stem -> strips_number_suffix stem base)
  /\ (let stem := fst (OsPath.splitext newline_path) in
      has_number_suffix stem ("d/a" +:+ String PyStr.newline "b")
      /\ ~ strips_number_suffix stem (remove_number_suffix stem)
      /\ handle_file_conflict {[newline_path]} newline_path
         = Some ("d/a" +:+ String PyStr.newline "b(1)(1).jpg")).
Proof.
  cbv zeta. split_and!.
  - apply handle_file_conflict_fresh.
  - intros H.
    destruct (OsPath.splitext p) as [base_name extension] eqn:Hsplit.
    destruct (handle_file_conflict_first_free fs p _ _ Hsplit H)
      as (n & Hn & Hres & Hfree & Hbefore).
    exists n. simpl. repeat split; [done | done | done | | done].
    intros Heq. by rewrite Heq in Hfree.
  - apply remove_number_suffix_strips.
  - by exists "1".
  - assert (Hstem : fst (OsPath.splitext newline_path)
                    = "d/a" +:+ String PyStr.newline "b(1)")
      by (vm_compute; reflexivity).
    assert (Hkept : remove_number_suffix
                      ("d/a" +:+ String PyStr.newline "b(1)")
                    = "d/a" +:+ String PyStr.newline "b(1)")
      by (vm_compute; reflexivity).
    rewrite Hstem, Hkept. intros [Hsuffix | [_ Hnone]].
    + by apply no_own_number_suffix in Hsuffix.
    + apply (Hnone ("d/a" +:+ String PyStr.newline "b")). by exists "1".
  - vm_compute. reflexivity.
Qed.

Lemma handle_file_conflict_spec_witness :
  handle_file_conflict {["d/x(1).jpg"]} "d/y.jpg" = Some "d/y.jpg"
  /\ (exists n,
        1 <= n /\
        handle_file_conflict {["d/x(1).jpg"]} "d/x(1).jpg"
        = Some (candidate "d/x" ".jpg" n) /\
        (candidate "d/x" ".jpg" n ∉ ({["d/x(1).jpg"]} : gset string)) /\
        candidate "d/x" ".jpg" n ≠ "d/x(1).jpg" /\
        forall m, 1 <= m < n ->
                  candidate "d/x" ".jpg" m ∈ ({["d/x(1).jpg"]} : gset string))
  /\ strips_number_suffix "d/x(1)" "d/x".
Proof.
  split_and!.
  - apply (proj1 (handle_file_conflict_spec {["d/x(1).jpg"]} "d/y.jpg")).
    apply (proj1 (bool_decide_eq_false _)). reflexivity.
  - apply (proj1 (proj2
             (handle_file_conflict_spec {["d/x(1).jpg"]} "d/x(1).jpg"))).
    apply (proj1 (bool_decide_eq_true _)). reflexivity.
  - apply (proj1 (proj2 (proj2
             (handle_file_conflict_spec {["d/x(1).jpg"]} "d/x(1).jpg")))).
    reflexivity.
Defined.

End ConflictResolutionSpec.

(** ** Moving: when every file is there *)

Section MoveSucceeds.
Import FileStatsCollector MediaGatherer Reference Scenarios.





End MoveSucceeds.

(** ** The classifier and the extensions of a [Gatherer] *)

Section Extensions.
Import FileStatsCollector Reference Scenarios.

Lemma length_lower (s : string) :
  String.length (PyStr.lower s) = String.length s.
Proof. induction s as [|c s IH]; simpl; congruence. Qed.

(** Two ways to cut one string at the same distance from its end. *)
Lemma app_inj_length (a b c d : string) :
  a +:+ b = c +:+ d -> String.length b = String.length d -> b = d.
Proof.
  intros H Hlen.
  apply app_eq_app_str in H as [(k & -> & ->) | (k & -> & ->)].
  - rewrite length_app_str in Hlen. destruct k; [done | simpl in Hlen; lia].
  - rewrite length_app_str in Hlen. destruct k; [done | simpl in Hlen; lia].
Qed.

(** X19.  The cases of the classifier.  The case of the letters of the file name
    does not count.  The extensions are compared as they are given: one
    that holds an upper-case letter is the end of no lower-cased name, so a
    list of such extensions accepts no file.  The empty extension is the
    end of every name, so a list that holds it accepts every file; the
    empty list accepts none. *)
Theorem is_media_file_cases (media_extensions : list string)
    (filename : string) :
  is_media_file media_extensions (PyStr.lower filename)
  = is_media_file media_extensions filename
  /\ (Forall (fun ext => PyStr.lower ext ≠ ext) media_extensions ->
      is_media_file media_extensions filename = false)
  /\ ("" ∈ media_extensions ->
      is_media_file media_extensions filename = true)
  /\ is_media_file [] filename = false.
Proof.
  split_and!.
  - unfold is_media_file. by rewrite lower_idem.
  - intros Hupper. apply not_true_is_false. intros H.
    apply is_media_file_spec in H as (ext & Hin & pre & Hpre).
    apply (proj1 (Forall_forall _ _) Hupper ext Hin).
    pose proof (lower_idem filename) as Hidem.
    rewrite Hpre, lower_app in Hidem.
    apply (app_inj_length _ _ _ _ Hidem), length_lower.
  - intros Hin. apply is_media_file_spec. exists "". split; [done |].
    exists (PyStr.lower filename). by rewrite app_nil_r_str.
  - done.
Qed.

Lemma is_media_file_cases_witness :
  is_media_file [".MP3"] (PyStr.lower "Song.MP3")
  = is_media_file [".MP3"] "Song.MP3"
  /\ is_media_file [".MP3"] "Song.MP3" = false
  /\ is_media_file [".mp3"; ""] "notes.txt" = true
  /\ is_media_file [] "Song.MP3" = false.
Proof.
  split_and!.
  - apply (proj1 (is_media_file_cases [".MP3"] "Song.MP3")).
  - apply (proj1 (proj2 (is_media_file_cases [".MP3"] "Song.MP3"))).
    apply List.Forall_cons; [discriminate | apply List.Forall_nil].
  - apply (proj1 (proj2 (proj2
             (is_media_file_cases [".mp3"; ""] "notes.txt")))).
    apply (proj1 (bool_decide_eq_true _)). reflexivity.
  - apply (proj2 (proj2 (proj2 (is_media_file_cases [] "Song.MP3")))).
Defined.

Lemma existsb_empty_string (extensions : list string) :
  existsb (fun element => bool_decide (element = "")) extensions = true
  <-> "" ∈ extensions.
Proof.
  rewrite existsb_exists. split.
  - intros (x & Hin & ->%bool_decide_eq_true). by apply list_elem_of_In.
  - intros Hin. exists "". split; [by apply list_elem_of_In | done].
Qed.

Lemma set_extensions_ok (stdin extensions r : list string) :
  Gatherer.set_extensions stdin extensions = Ok r ->
  ("" ∉ r)
  /\ ("" ∉ extensions -> r = extensions)
  /\ ("" ∈ extensions ->
      exists line, line ∈ stdin /\ r = Gatherer.split_comma line).
Proof.
  revert extensions. induction stdin as [|line stdin IH]; intros extensions;
    simpl;
    destruct (existsb _ extensions) eqn:E.
  - done.
  - intros [= <-].
    assert ("" ∉ extensions) as Hno.
    { intros Hin%existsb_empty_string. congruence. }
    split_and!; done.
  - intros H. apply IH in H as (Hno & Hsame & Hasked).
    split_and!; [done | |].
    + intros Hnone. apply existsb_empty_string in E. done.
    + intros _.
      destruct (decide ("" ∈ Gatherer.split_comma line)) as [Hin | Hnin].
      * destruct (Hasked Hin) as (line' & Hline' & ->).
        exists line'. split; [by right | done].
      * exists line. split; [by left | by apply Hsame].
  - intros [= <-].
    assert ("" ∉ extensions) as Hno.
    { intros Hin%existsb_empty_string. congruence. }
    split_and!; done.
Qed.

(** X20.  The extensions of a [Gatherer] that is constructed.  The empty
    extension is not among them.  They are the extensions given when
    none of these is empty, and otherwise the elements of a line of input
    split at its commas.  When no extensions are given there are none,
    and then, unless [all_files] is set, the scan holds no record. *)
Theorem gatherer_extensions (stdin : list string) (root_folder : string)
    (destination_folder : option string) (extensions : option (list string))
    (skip_folders : option (list string)) (all_files : bool) (node : fsnode)
    (g : MediaGatherer.t) :
  Gatherer.init stdin root_folder destination_folder extensions skip_folders
                all_files node = Ok g ->
  let given := default [] extensions in
  let used := media_extensions (MediaGatherer.collector g) in
  ("" ∉ used)
  /\ ("" ∉ given -> used = given)
  /\ ("" ∈ given ->
      exists line, line ∈ stdin /\ used = Gatherer.split_comma line)
  /\ (extensions = None -> all_files = false ->
      file_stats (MediaGatherer.collector g) = []).
Proof.
  intros Hinit. cbv zeta. unfold Gatherer.init in Hinit.
  destruct (Gatherer.set_extensions stdin (default [] extensions))
    as [used | e] eqn:Hset; [| done].
  assert (Hused : media_extensions (MediaGatherer.collector g) = used
                  /\ file_stats (MediaGatherer.collector g)
                     = _gather_file_stats root_folder used all_files
                         (default [] skip_folders
                          ++ [default (OsPath.join root_folder
                                                   "Extracted Files")
                                      destination_folder])
                         node).
  { unfold MediaGatherer.init, init, check_root_folder in Hinit.
    destruct (os_path_exists_node node); [| done].
    by injection Hinit as <-. }
  destruct Hused as [-> Hstats].
  destruct (set_extensions_ok _ _ _ Hset) as (Hno & Hsame & Hasked).
  split_and!; [done | done | done |].
  intros -> ->. simpl in Hsame. rewrite Hstats.
  rewrite (Hsame ltac:(apply not_elem_of_nil)).
  unfold _gather_file_stats.
  induction (filter _ (os_walk root_folder node)) as [|[folder entries] l IH];
    [done |].
  simpl. rewrite IH, app_nil_r.
  unfold process_files. induction entries as [|e es IHe]; [done |].
  simpl. by destruct (is_file e).
Qed.

Lemma gatherer_extensions_witness :
  exists g,
    Gatherer.init [".mp3,.wav"] "root" None (Some [".mp3"; ""]) None false
                  (Directory scenario_tree) = Ok g
    /\ ("" ∉ media_extensions (MediaGatherer.collector g))
    /\ ("" ∉ [".mp3"; ""] ->
        media_extensions (MediaGatherer.collector g) = [".mp3"; ""])
    /\ ("" ∈ [".mp3"; ""] ->
        exists line,
          line ∈ [".mp3,.wav"]
          /\ media_extensions (MediaGatherer.collector g)
             = Gatherer.split_comma line)
    /\ (Some [".mp3"; ""] = None -> false = false ->
        file_stats (MediaGatherer.collector g) = []).
Proof.
  eexists. split; [reflexivity |].
  apply (gatherer_extensions [".mp3,.wav"] "root" None
           (Some [".mp3"; ""]) None false (Directory scenario_tree)).
  reflexivity.
Defined.

End Extensions.

(** ** The report of the moved files *)

Section MovedStatsCsv.
Import FileStatsCollector MediaGatherer Reference Scenarios.

Lemma absent_join (c : ascii) (a b : string) :
  c ≠ "/"%char -> absent c a -> absent c b -> absent c (OsPath.join a b).
Proof.
  intros Hc Ha Hb. unfold OsPath.join.
  destruct (PyStr.startswith b "/"); [done |].
  destruct (decide (a = "")); [done |].
  destruct (PyStr.endswith a "/").
  - by apply absent_app.
  - apply absent_app. split; [done |].
    rewrite app_cons_str, app_nil_l_str. by apply absent_cons.
Qed.

(** X21.  With the paths of [posixpath], the report written after a run of
    [gather_media] that started with nothing moved holds no row: when the
    folders and the names of the scanned records hold no backslash, either
    nothing was moved and no report is written, or the key of the first
    scanned record, built with a backslash, is not in [moved_files], whose
    keys are built by [os.path.join], and the report stops before its
    first row. *)
Theorem moved_stats_csv_has_no_row (destination_folder : option string)
    (move_all : bool) (batch_size : Z) (time_delay : Q)
    (current_date : string) (self : t) (w : world) :
  moved_files self = ∅ ->
  Forall (fun r => absent "\" (Source_Folder r) /\ absent "\" (File_Name r))
         (file_stats (collector self)) ->
  let after :=
    fst (gather_media destination_folder move_all batch_size time_delay
                      self w) in
  generate_moved_stats_csv current_date after = NothingMoved
  \/ exists r rest,
       file_stats (collector self) = r :: rest
       /\ generate_moved_stats_csv current_date after
          = RowsThenKeyError [] (moved_key r).
Proof.
  intros Hempty Hnames. cbv zeta.
  destruct (gather_media_only_moves destination_folder move_all batch_size
              time_delay self w) as (Hcoll & _ & _ & Hkeys).
  destruct (gather_media _ _ _ _ _ _) as [self' w']. simpl in *.
  unfold generate_moved_stats_csv.
  destruct (decide (moved_files self' = ∅)) as [| Hmoved]; [by left |].
  right. rewrite Hcoll.
  assert (Hno : forall r, moved_files self' !! moved_key r = None).
  { intros r. apply eq_None_not_Some. intros [dst Hdst].
    destruct (Hkeys _ _ Hdst) as [Hold | [Hsrc _]].
    { by rewrite Hempty, lookup_empty in Hold. }
    apply list_elem_of_fmap in Hsrc as (r' & Heq & Hr').
    destruct (proj1 (Forall_forall _ _) Hnames r' Hr') as [Hf Hn].
    assert (absent "\" (moved_key r)) as Habs.
    { rewrite Heq. by apply absent_join. }
    unfold moved_key in Habs.
    apply absent_app in Habs as [_ Habs].
    rewrite app_cons_str in Habs. by apply absent_cons in Habs as [? _]. }
  destruct (file_stats (collector self)) as [|r rest].
  - exfalso. apply Hmoved. apply map_eq. intros k.
    rewrite lookup_empty. apply eq_None_not_Some. intros [dst Hdst].
    destruct (Hkeys _ _ Hdst) as [Hold | [Hsrc _]].
    + by rewrite Hempty, lookup_empty in Hold.
    + by apply elem_of_nil in Hsrc.
  - exists r, rest. split; [done |]. simpl. by rewrite Hno.
Qed.

Lemma moved_stats_csv_has_no_row_witness :
  let after :=
    fst (gather_media None false 15 (1 # 10) start_gatherer start_world) in
  generate_moved_stats_csv "20240101_000000" after = NothingMoved
  \/ exists r rest,
       file_stats (collector start_gatherer) = r :: rest
       /\ generate_moved_stats_csv "20240101_000000" after
          = RowsThenKeyError [] (moved_key r).
Proof.
  apply (moved_stats_csv_has_no_row None false 15 (1 # 10)
           "20240101_000000" start_gatherer start_world).
  - reflexivity.
  - repeat (apply List.Forall_cons; [by split |]). apply List.Forall_nil.
Defined.

End MovedStatsCsv.

(** ** Renaming: the extension *)

Section RenameKeepsExtension.
Import FileStatsCollector MediaGatherer Reference Scenarios.

Lemma take_app_length (a b : string) :
  PyStr.take (String.length a) (a +:+ b) = a.
Proof.
  induction a as [|x a IH]; [by destruct b |].
  rewrite app_cons_str. simpl. by rewrite IH.
Qed.

Lemma rfind_from_absent (i : Z) (c : ascii) (s : string) :
  absent c s -> PyStr.rfind_from i c s = (-1)%Z.
Proof.
  revert i. induction s as [|a s IH]; intros i; [done |].
  intros [Ha Hs]%absent_cons. cbn [PyStr.rfind_from].
  rewrite (IH _ Hs). simpl. by rewrite decide_False.
Qed.

(** The index of the last occurrence. *)
Lemma rfind_from_last (i : Z) (c : ascii) (a b : string) :
  (0 <= i)%Z -> absent c b ->
  PyStr.rfind_from i c (a +:+ String c b)
  = (i + Z.of_nat (String.length a))%Z.
Proof.
  revert i. induction a as [|x a IH]; intros i Hi Hb.
  - rewrite app_nil_l_str. cbn [PyStr.rfind_from].
    rewrite (rfind_from_absent _ _ _ Hb). simpl.
    rewrite decide_True by done. lia.
  - rewrite app_cons_str. cbn [PyStr.rfind_from String.length].
    rewrite IH by (done || lia).
    rewrite (proj2 (Z.leb_le _ _)) by lia. lia.
Qed.

Lemma rfind_from_app_absent (i : Z) (c : ascii) (a b : string) :
  absent c b ->
  PyStr.rfind_from i c (a +:+ b) = PyStr.rfind_from i c a.
Proof.
  intros Hb. revert i. induction a as [|x a IH]; intros i.
  - rewrite app_nil_l_str. by rewrite rfind_from_absent.
  - rewrite app_cons_str. cbn [PyStr.rfind_from]. by rewrite IH.
Qed.

Lemma rfind_from_lt (i : Z) (c : ascii) (s : string) :
  (0 <= i)%Z ->
  (PyStr.rfind_from i c s < i + Z.of_nat (String.length s))%Z.
Proof.
  revert i. induction s as [|a s IH]; intros i Hi;
    cbn [PyStr.rfind_from String.length]; [lia |].
  specialize (IH (i + 1)%Z ltac:(lia)).
  destruct (Z.leb_spec 0 (PyStr.rfind_from (i + 1) c s)); [lia |].
  destruct (decide (a = c)); lia.
Qed.

(** The loop that skips the leading dots finds a character other than the
    dot when the part it goes through is not made of dots. *)
Lemma skip_leading_dots_spec (pre mid rest : string) :
  OsPath.skip_leading_dots (pre +:+ mid +:+ rest) (String.length mid)
                           (String.length pre)
  = negb (all_dots mid).
Proof.
  revert pre. induction mid as [|c mid IH]; intros pre; [done |].
  cbn [String.length OsPath.skip_leading_dots].
  rewrite drop_app_length, app_cons_str.
  change (PyStr.take 1 (String c (mid +:+ rest))) with (String c "").
  destruct (decide (c = "."%char)) as [-> | Hc].
  - rewrite decide_False by (intros H; by apply H).
    replace (pre +:+ String "." (mid +:+ rest))
      with ((pre +:+ ".") +:+ mid +:+ rest)
      by (by rewrite app_assoc_str).
    replace (S (String.length pre)) with (String.length (pre +:+ "."))
      by (rewrite length_app_str; simpl; lia).
    by rewrite IH.
  - rewrite decide_True by congruence.
    unfold all_dots. simpl. by rewrite bool_decide_eq_false_2.
Qed.

Lemma last_occurrence (c : ascii) (s : string) :
  absent c s \/ exists a b, s = a +:+ String c b /\ absent c b.
Proof.
  induction s as [|x s IH]; [by left |].
  destruct IH as [Hs | (a & b & -> & Hb)].
  - destruct (decide (x = c)) as [-> | Hx].
    + right. by exists "", s.
    + left. by apply absent_cons.
  - right. by exists (String x a), b.
Qed.

(** A path is a folder part, empty or ending with a slash, and a last
    component that holds no slash. *)
Lemma last_component (p : string) :
  exists u w,
    p = u +:+ w /\ (u = "" \/ exists u', u = u' +:+ "/") /\ absent "/" w.
Proof.
  destruct (last_occurrence "/" p) as [Hp | (a & b & -> & Hb)].
  - exists "", p. split_and!; [done | by left | done].
  - exists (a +:+ "/"), b. split_and!; [| right; by exists a | done].
    by rewrite app_assoc_str.
Qed.

Lemma sep_index (u w : string) :
  u = "" \/ (exists u', u = u' +:+ "/") -> absent "/" w ->
  (PyStr.rfind (u +:+ w) OsPath.sep + 1)%Z = Z.of_nat (String.length u).
Proof.
  intros [-> | [u' ->]] Hw; unfold PyStr.rfind.
  - rewrite app_nil_l_str, rfind_from_absent; done.
  - rewrite app_assoc_str, app_cons_str, app_nil_l_str.
    rewrite rfind_from_last by done.
    rewrite length_app_str. simpl. lia.
Qed.

(** [os.path.splitext] on a path whose last component has a dot: the
    extension starts at the last dot unless only dots come before it. *)
Lemma splitext_with_dot (u v x : string) :
  u = "" \/ (exists u', u = u' +:+ "/") ->
  absent "/" v -> absent "/" x -> absent "." x ->
  OsPath.splitext (u +:+ v +:+ String "." x)
  = if all_dots v then (u +:+ v +:+ String "." x, "")
    else (u +:+ v, String "." x).
Proof.
  intros Hu Hv Hx Hdot.
  assert (Hw : absent "/" (v +:+ String "." x)).
  { apply absent_app. split; [done |]. by apply absent_cons. }
  pose proof (sep_index u _ Hu Hw) as Hsep.
  assert (Hdi : PyStr.rfind (u +:+ v +:+ String "." x) OsPath.extsep
                = Z.of_nat (String.length u + String.length v)).
  { unfold PyStr.rfind. rewrite <- app_assoc_str.
    rewrite rfind_from_last by done.
    rewrite length_app_str. lia. }
  unfold OsPath.splitext. rewrite Hdi.
  rewrite (proj2 (Z.ltb_lt _ _)) by lia.
  rewrite Hsep.
  replace (Z.to_nat (Z.of_nat (String.length u + String.length v)
                     - Z.of_nat (String.length u)))
    with (String.length v) by lia.
  rewrite !Nat2Z.id.
  rewrite skip_leading_dots_spec.
  destruct (all_dots v); [done |]. simpl negb. cbv iota.
  rewrite <- (app_assoc_str u v), <- length_app_str.
  by rewrite take_app_length, drop_app_length.
Qed.

(** [os.path.splitext] on a path whose last component has no dot. *)
Lemma splitext_no_dot (u w : string) :
  u = "" \/ (exists u', u = u' +:+ "/") ->
  absent "/" w -> absent "." w ->
  OsPath.splitext (u +:+ w) = (u +:+ w, "").
Proof.
  intros Hu Hw Hdot.
  pose proof (sep_index u _ Hu Hw) as Hsep.
  assert (Hdi : (PyStr.rfind (u +:+ w) OsPath.extsep + 1
                 < Z.of_nat (String.length u) + 1)%Z).
  { unfold PyStr.rfind. rewrite rfind_from_app_absent by done.
    destruct Hu as [-> | [u' ->]]; [simpl; lia |].
    rewrite rfind_from_app_absent by done.
    pose proof (rfind_from_lt 0 OsPath.extsep u' ltac:(lia)).
    rewrite length_app_str. simpl. lia. }
  unfold OsPath.splitext.
  by rewrite (proj2 (Z.ltb_ge _ _)) by lia.
Qed.

Lemma all_dots_app (a b : string) :
  all_dots (a +:+ b) = all_dots a && all_dots b.
Proof.
  unfold all_dots. induction a as [|x a IH]; [done |].
  rewrite app_cons_str. simpl. by rewrite IH, andb_assoc.
Qed.

Lemma pretty_N_go_nonempty (x : N) (s : string) :
  s ≠ "" -> pretty_N_go x s ≠ "".
Proof.
  revert s. induction (N.lt_wf_0 x) as [x _ IH]; intros s Hs.
  destruct (decide (x = 0)%N) as [-> | Hx].
  - by rewrite pretty_N_go_0.
  - rewrite pretty_N_go_step by lia. apply IH; [| done].
    apply N.div_lt; lia.
Qed.

Lemma pretty_nat_nonempty (n : nat) : pretty n ≠ "".
Proof.
  unfold pretty, pretty_nat, pretty, pretty_N.
  destruct (decide _) as [| Hne]; [done |].
  rewrite pretty_N_go_step by lia. by apply pretty_N_go_nonempty.
Qed.

(** The part a candidate puts between the stem and the extension holds
    neither a slash nor a dot, and is not made of dots. *)
Lemma counter_part (n : nat) :
  let t := "(" +:+ pretty n +:+ ")" in
  absent "/" t /\ absent "." t /\ forall a, all_dots (a +:+ t) = false.
Proof.
  cbv zeta. pose proof (pretty_nat_digits n) as Hd.
  rewrite app_cons_str, app_nil_l_str. split_and!.
  - apply absent_cons. split; [done |]. apply absent_app.
    split; [by apply absent_of_digits | done].
  - apply absent_cons. split; [done |]. apply absent_app.
    split; [by apply absent_of_digits | done].
  - intros a. rewrite all_dots_app. unfold all_dots at 2. simpl.
    apply andb_false_r.
Qed.

(** The candidates made from a path have the extension of the path, and
    the stem they were given. *)
Lemma splitext_candidate (p : string) (n : nat) :
  let base := remove_number_suffix (fst (OsPath.splitext p)) in
  let extension := snd (OsPath.splitext p) in
  OsPath.splitext (candidate base extension n)
  = (base +:+ "(" +:+ pretty n +:+ ")", extension).
Proof.
  cbv zeta. unfold candidate.
  destruct (counter_part n) as (Hts & Htd & Htn).
  destruct (last_component p) as (u & w & -> & Hu & Hw).
  pose proof (splitext_app (u +:+ w)) as Happ.
  pose proof (splitext_extension (u +:+ w)) as Hext.
  destruct (OsPath.splitext (u +:+ w)) as [base extension] eqn:Hsplit.
  cbn [fst snd] in *.
  assert (Hes : absent "/" extension).
  { destruct Hext as [-> | (x & -> & _ & Hx)]; [done |].
    by apply absent_cons. }
  symmetry in Happ.
  destruct (keeps_prefix u w base extension Hu Happ Hes) as (a1 & -> & ->).
  clear Happ.
  assert (exists a2 rest,
            remove_number_suffix (u +:+ a1) = u +:+ a2
            /\ a1 = a2 +:+ rest /\ absent "." rest /\ absent "/" rest)
    as (a2 & rest & -> & -> & Hrd & Hrs).
  { unfold remove_number_suffix.
    destruct (re_match_group1 (u +:+ a1)) as [g |] eqn:Hg.
    2:{ exists a1, "". by rewrite app_nil_r_str. }
    apply re_match_group1_spec in Hg as (rest & Hg & Hrest & _).
    apply match_number_suffix_spec in Hrest as (ds & _ & Hds & Hshape).
    assert (absent "/" rest /\ absent "." rest) as [Hrs Hrd].
    { pose proof (absent_of_digits "/" ds eq_refl Hds).
      pose proof (absent_of_digits "." ds eq_refl Hds).
      destruct Hshape as [-> | ->];
        rewrite ?app_cons_str, ?app_nil_l_str;
        (split; apply absent_cons; (split; [done |]);
         apply absent_app; (split; [done |]); done). }
    destruct (keeps_prefix u a1 g rest Hu Hg Hrs) as (a2 & -> & ->).
    by exists a2, rest. }
  apply absent_app in Hw as [Hw _].
  apply absent_app in Hw as [Ha2 _].
  set (t := "(" +:+ pretty n +:+ ")") in *.
  assert (Hv : absent "/" (a2 +:+ t)) by (by apply absent_app).
  replace ((u +:+ a2) +:+ "(" +:+ pretty n +:+ ")" +:+ extension)
    with (u +:+ (a2 +:+ t) +:+ extension)
    by (subst t; by rewrite !app_assoc_str).
  rewrite (app_assoc_str u a2 t).
  destruct Hext as [-> | (x & -> & Hxd & Hxs)].
  - (* no extension: the last component has no dot, or only dots before
       its last dot *)
    rewrite app_nil_r_str in Hsplit |- *.
    destruct (last_occurrence "." a2) as [Hnd | (v & k & -> & Hk)].
    { apply splitext_no_dot; [done | done |]. by apply absent_app. }
    apply absent_app in Ha2 as [Hvs Hks].
    apply absent_cons in Hks as [_ Hks].
    assert (Hall : all_dots v = true).
    { rewrite !app_assoc_str, app_cons_str in Hsplit.
      rewrite splitext_with_dot in Hsplit;
        [| done | done | by apply absent_app | by apply absent_app].
      destruct (all_dots v); [done | by injection Hsplit]. }
    rewrite !app_assoc_str, app_cons_str.
    rewrite splitext_with_dot;
      [| done | done | by apply absent_app | by apply absent_app].
    by rewrite Hall.
  - rewrite splitext_with_dot by done. by rewrite Htn.
Qed.

(** X16.  A file that is renamed keeps its extension: the path that
    [handle_file_conflict] returns has the extension of the path it was
    given, and it is that path or has as its stem the stem of that path,
    without its number, followed by a number in parentheses. *)
Theorem renamed_file_keeps_extension (fs : gset string) (p d : string) :
  handle_file_conflict fs p = Some d ->
  snd (OsPath.splitext d) = snd (OsPath.splitext p)
  /\ (d = p
      \/ exists n,
           1 <= n
           /\ fst (OsPath.splitext d)
              = remove_number_suffix (fst (OsPath.splitext p))
                +:+ "(" +:+ pretty n +:+ ")").
Proof.
  intros Hd. destruct (decide (p ∈ fs)) as [Hin | Hout].
  2:{ rewrite (handle_file_conflict_fresh _ _ Hout) in Hd.
      injection Hd as <-. split; [done | by left]. }
  destruct (OsPath.splitext p) as [base extension] eqn:Hsplit.
  destruct (handle_file_conflict_first_free fs p _ _ Hsplit Hin)
    as (n & Hn & Hres & _ & _).
  rewrite Hres in Hd. injection Hd as <-.
  pose proof (splitext_candidate p n) as Hcand.
  rewrite Hsplit in Hcand. cbn [fst snd] in Hcand |- *.
  rewrite Hcand. split; [done |]. right. by exists n.
Qed.

Lemma renamed_file_keeps_extension_witness :
  snd (OsPath.splitext "d/x.tar(1).gz") = snd (OsPath.splitext "d/x.tar.gz")
  /\ ("d/x.tar(1).gz" = "d/x.tar.gz"
      \/ exists n,
           1 <= n
           /\ fst (OsPath.splitext "d/x.tar(1).gz")
              = remove_number_suffix (fst (OsPath.splitext "d/x.tar.gz"))
                +:+ "(" +:+ pretty n +:+ ")").
Proof.
  apply (renamed_file_keeps_extension
           {["d/x.tar.gz"]} "d/x.tar.gz").
  vm_compute. reflexivity.
Defined.

(** X17.  Renaming again does not stack the numbers.  When the stem of an
    existing path holds no newline and the path is renamed, the path it is
    given, renamed in its turn once it exists, becomes a candidate of the
    first path: the stem of that path without its number, one number in
    parentheses, and the extension. *)
Theorem renaming_again_does_not_stack (fs fs' : gset string)
    (p d d' : string) :
  absent PyStr.newline (fst (OsPath.splitext p)) ->
  p ∈ fs ->
  handle_file_conflict fs p = Some d ->
  d ∈ fs' ->
  handle_file_conflict fs' d = Some d' ->
  exists m,
    1 <= m
    /\ d' = candidate (remove_number_suffix (fst (OsPath.splitext p)))
                      (snd (OsPath.splitext p)) m
    /\ (d' ∉ fs')
    /\ forall k, 1 <= k < m ->
         candidate (remove_number_suffix (fst (OsPath.splitext p)))
                   (snd (OsPath.splitext p)) k ∈ fs'.
Proof.
  intros Hnl Hin Hd Hin' Hd'.
  destruct (OsPath.splitext p) as [base extension] eqn:Hsplit.
  cbn [fst snd] in *.
  destruct (handle_file_conflict_first_free fs p _ _ Hsplit Hin)
    as (n & Hn & Hres & _ & _).
  rewrite Hres in Hd. injection Hd as <-.
  pose proof (splitext_candidate p n) as Hcand.
  rewrite Hsplit in Hcand. cbn [fst snd] in Hcand.
  destruct (handle_file_conflict_first_free fs' _ _ _ Hcand Hin')
    as (m & Hm & Hres' & Hfree & Hbefore).
  rewrite Hres' in Hd'. injection Hd' as <-.
  assert (Hg : absent PyStr.newline (remove_number_suffix base)).
  { unfold remove_number_suffix.
    destruct (re_match_group1 base) as [g |] eqn:Hg; [| done].
    by apply re_match_group1_spec in Hg as (rest & _ & _ & ?). }
  rewrite (remove_number_suffix_collapses _ (pretty n) Hg
             (pretty_nat_nonempty n) (pretty_nat_digits n))
    in Hfree, Hbefore |- *.
  by exists m.
Qed.

Lemma renaming_again_does_not_stack_witness :
  exists m,
    1 <= m
    /\ "d/x(2).jpg"
       = candidate (remove_number_suffix (fst (OsPath.splitext "d/x.jpg")))
                   (snd (OsPath.splitext "d/x.jpg")) m
    /\ ("d/x(2).jpg" ∉ ({["d/x.jpg"; "d/x(1).jpg"]} : gset string))
    /\ forall k, 1 <= k < m ->
         candidate (remove_number_suffix (fst (OsPath.splitext "d/x.jpg")))
                   (snd (OsPath.splitext "d/x.jpg")) k
         ∈ ({["d/x.jpg"; "d/x(1).jpg"]} : gset string).
Proof.
  apply (renaming_again_does_not_stack
           {["d/x.jpg"]} {["d/x.jpg"; "d/x(1).jpg"]}
           "d/x.jpg" "d/x(1).jpg" "d/x(2).jpg").
  - reflexivity.
  - apply (proj1 (bool_decide_eq_true _)). reflexivity.
  - vm_compute. reflexivity.
  - apply (proj1 (bool_decide_eq_true _)). reflexivity.
  - vm_compute. reflexivity.
Defined.

End RenameKeepsExtension.

(** ** [get_file_stats] *)

Section GetFileStats.
Import FileStatsCollector Reference Scenarios.

Lemma last_char (s : string) :
  s = "" \/ exists f c, s = f +:+ String c "".
Proof.
  induction s as [|x s IH]; [by left |]. right.
  destruct IH as [-> | (f & c & ->)].
  - by exists "", x.
  - by exists (String x f), c.
Qed.

Lemma rstrip_sep_last (f : string) (c : ascii) :
  c ≠ OsPath.sep ->
  OsPath.rstrip_sep (f +:+ String c "/") = f +:+ String c "".
Proof.
  intros Hc. induction f as [|x f IH].
  - rewrite !app_nil_l_str. simpl. by rewrite decide_False.
  - rewrite !app_cons_str. cbn [OsPath.rstrip_sep]. rewrite IH.
    destruct (decide (x = OsPath.sep)); [| done].
    rewrite decide_False; [done |]. by destruct f.
Qed.

(** [os.path.basename] and [os.path.dirname] undo [os.path.join] for a
    name without a slash and a folder that does not end with one. *)
Lemma basename_dirname_join (folder name : string) :
  absent "/" name -> PyStr.endswith folder "/" = false ->
  OsPath.basename (OsPath.join folder name) = name
  /\ OsPath.dirname (OsPath.join folder name) = folder.
Proof.
  intros Hname Hend.
  destruct (join_relative folder name Hname) as [Hjoin HD].
  pose proof (sep_index _ _ HD Hname) as Hsep.
  rewrite <- Hjoin in Hsep.
  unfold OsPath.basename, OsPath.dirname. rewrite Hsep, Nat2Z.id, Hjoin.
  rewrite drop_app_length, take_app_length. split; [done |].
  unfold OsPath.join. change (PyStr.startswith "" "/") with false.
  cbv iota. destruct (decide (folder = "")) as [-> | Hne]; [done |].
  rewrite Hend.
  destruct (last_char folder) as [-> | (f & c & ->)]; [done |].
  assert (Hc : c ≠ OsPath.sep).
  { intros ->. apply not_true_iff_false in Hend. apply Hend.
    apply endswith_spec. by exists f. }
  rewrite app_assoc_str, app_cons_str, app_nil_l_str.
  change ("/" +:+ "") with "/".
  assert (PyStr.forallb (fun c => bool_decide (c = OsPath.sep))
                        (f +:+ String c "/") = false) as ->.
  { clear -Hc. induction f as [|x f IH].
    - rewrite app_nil_l_str. simpl. by rewrite bool_decide_eq_false_2.
    - rewrite app_cons_str. simpl. rewrite IH. apply andb_false_r. }
  rewrite bool_decide_eq_false_2 by (by destruct f).
  simpl negb. cbv iota. simpl andb. cbv iota.
  by apply rstrip_sep_last.
Qed.

(** X22.  [get_file_stats] on the path of an entry of a folder gives the record
    that the scan makes of this entry: for a name without a slash and a
    folder that does not end with one, when [os.stat] answers with the
    size and the dates of the entry.  When [os.stat] raises, nothing is
    returned. *)
Theorem get_file_stats_agrees_with_scan
    (os_stat : string -> result stat_result) (folder : string)
    (e : DirEntry) :
  is_file e = true ->
  absent "/" (name e) ->
  PyStr.endswith folder "/" = false ->
  (os_stat (OsPath.join folder (name e))
   = Ok (mkStatResult (st_size e) (st_ctime e) (st_mtime e)) ->
   get_file_stats os_stat (OsPath.join folder (name e))
   = Some (process_files folder [e] true (fun _ => true) format_size))
  /\ (forall err,
        os_stat (OsPath.join folder (name e)) = Raise err ->
        get_file_stats os_stat (OsPath.join folder (name e)) = None).
Proof.
  intros Hfile Hname Hend.
  destruct (basename_dirname_join folder (name e) Hname Hend)
    as [Hbase Hdir].
  unfold get_file_stats. split.
  - intros ->. rewrite Hbase, Hdir. unfold process_files. simpl.
    by rewrite Hfile.
  - by intros err ->.
Qed.

Lemma get_file_stats_agrees_with_scan_witness :
  let e := mkEntry "a.MP3" true 10 1 2 in
  let os_stat := fun _ : string => Ok (mkStatResult 10 1 2) in
  (os_stat (OsPath.join "root/sub" "a.MP3") = Ok (mkStatResult 10 1 2) ->
   get_file_stats os_stat (OsPath.join "root/sub" "a.MP3")
   = Some (process_files "root/sub" [mkEntry "a.MP3" true 10 1 2]
                         true (fun _ => true) format_size))
  /\ (forall err,
        os_stat (OsPath.join "root/sub" "a.MP3") = Raise err ->
        get_file_stats os_stat (OsPath.join "root/sub" "a.MP3") = None).
Proof.
  apply (get_file_stats_agrees_with_scan
           (fun _ : string => Ok (mkStatResult 10 1 2)) "root/sub"
           (mkEntry "a.MP3" true 10 1 2)).
  - reflexivity.
  - reflexivity.
  - reflexivity.
Defined.

End GetFileStats.
